(** * Bounding volumes of geometric primitives (fcl, geometric_shapes_utility.cpp)

    A shallow embedding of [src/shape/geometric_shapes_utility.cpp]: the
    vertex sampler [getBoundVertices], the implicit-surface [transform], the
    per-shape [computeBV] specialisations and the box reconstructor
    [constructBox].

    The source is written over [FCL_REAL], a typedef the embedding library
    fixes at build time.  The embedding keeps that choice open: every function
    is defined once over an interface [Scalar], which has two instances here,
    - [float], the IEEE binary64 numbers of the kernel, on which the
      definitions run ([vm_compute]), and
    - [R], the real numbers, the idealisation in which the arithmetic
      properties (dot products, orthonormal rotations, square roots) are
      stated.
    Properties that only depend on the control flow are proved for every
    instance.

    The file has three parts: the embedding of the source, the vocabulary of
    the statements, and the properties with their proofs. *)

From Stdlib Require Import ZArith List Bool Lia.
From Stdlib Require Import Reals Lra Psatz RNsatz.
From Stdlib Require PrimFloat Uint63.
Import ListNotations.

Set Implicit Arguments.

(** ** The scalar type [FCL_REAL] *)

Declare Scope fcl_scope.
Delimit Scope fcl_scope with fcl.

Class Scalar (F : Type) : Type := {
  lit : Z -> F;             (* an integer-valued literal: 0, 1, 2, 5.0, 27.0 *)
  half : F;                 (* the literal 0.5 *)
  sadd : F -> F -> F;
  ssub : F -> F -> F;
  smul : F -> F -> F;
  sdiv : F -> F -> F;
  sopp : F -> F;
  fabs : F -> F;            (* fabs, std::abs *)
  ssqrt : F -> F;           (* sqrt *)
  seqb : F -> F -> bool;    (* == *)
  sltb : F -> F -> bool;    (* <  *)
  sleb : F -> F -> bool;    (* <= *)
  real_max : F              (* std::numeric_limits<FCL_REAL>::max() *)
}.

Notation "0" := (lit 0%Z) : fcl_scope.
Notation "1" := (lit 1%Z) : fcl_scope.
Notation "2" := (lit 2%Z) : fcl_scope.
Notation "3" := (lit 3%Z) : fcl_scope.
Notation "5" := (lit 5%Z) : fcl_scope.
Notation "6" := (lit 6%Z) : fcl_scope.
Notation "15" := (lit 15%Z) : fcl_scope.
Notation "27" := (lit 27%Z) : fcl_scope.
Infix "+" := sadd : fcl_scope.
Infix "-" := ssub : fcl_scope.
Infix "*" := smul : fcl_scope.
Infix "/" := sdiv : fcl_scope.
Notation "- x" := (sopp x) : fcl_scope.
Infix "=?" := seqb (at level 70, no associativity) : fcl_scope.
Infix "<?" := sltb (at level 70, no associativity) : fcl_scope.
Infix "<=?" := sleb (at level 70, no associativity) : fcl_scope.
Notation "x >? y" := (sltb y x) (at level 70, no associativity) : fcl_scope.
Notation "x >=? y" := (sleb y x) (at level 70, no associativity) : fcl_scope.

(** [FCL_REAL = double]: the kernel's binary64 numbers. *)
Definition float_lit (z : Z) : PrimFloat.float :=
  match z with
  | Z0 => PrimFloat.zero
  | Zpos _ => PrimFloat.of_uint63 (Uint63.of_Z z)
  | Zneg p => PrimFloat.opp (PrimFloat.of_uint63 (Uint63.of_Z (Zpos p)))
  end.

#[export] Instance Scalar_float : Scalar PrimFloat.float := {|
  lit := float_lit;
  half := PrimFloat.div PrimFloat.one PrimFloat.two;
  sadd := PrimFloat.add;
  ssub := PrimFloat.sub;
  smul := PrimFloat.mul;
  sdiv := PrimFloat.div;
  sopp := PrimFloat.opp;
  fabs := PrimFloat.abs;
  ssqrt := PrimFloat.sqrt;
  seqb := PrimFloat.eqb;
  sltb := PrimFloat.ltb;
  sleb := PrimFloat.leb;
  real_max := PrimFloat.next_down PrimFloat.infinity
|}.

(** The idealised reals.  The comparisons are the decidable ones of [R]; the
    largest finite value is that of binary64, [(2^53 - 1) * 2^971]. *)
Definition Reqb (x y : R) : bool := if Req_dec_T x y then true else false.
Definition Rltb (x y : R) : bool := if Rlt_dec x y then true else false.
Definition Rleb (x y : R) : bool := if Rle_dec x y then true else false.
Definition Rreal_max : R := IZR ((2 ^ 53 - 1) * 2 ^ 971).

#[export] Instance Scalar_R : Scalar R := {|
  lit := IZR;
  half := (/ 2)%R;
  sadd := Rplus;
  ssub := Rminus;
  smul := Rmult;
  sdiv := Rdiv;
  sopp := Ropp;
  fabs := Rabs;
  ssqrt := sqrt;
  seqb := Reqb;
  sltb := Rltb;
  sleb := Rleb;
  real_max := Rreal_max
|}.

(** ** Vectors, matrices and rigid transforms (Eigen's Vector3d, Matrix3d,
    Transform3d) *)

Section Geometry.
Context {F : Type} `{Scalar F}.
Local Open Scope fcl_scope.

(** std::min and std::max. *)
Definition smin (a b : F) : F := if b <? a then b else a.
Definition smax (a b : F) : F := if a <? b then b else a.

Record Vector3d : Type := Vec3 { vx : F; vy : F; vz : F }.

(** [v[i]]; the source only indexes with the literals 0, 1 and 2. *)
Definition coeff (v : Vector3d) (i : nat) : F :=
  match i with
  | O => vx v
  | S O => vy v
  | _ => vz v
  end.

Definition Constant (c : F) : Vector3d := Vec3 c c c.
Definition vadd (a b : Vector3d) : Vector3d :=
  Vec3 (vx a + vx b) (vy a + vy b) (vz a + vz b).
Definition vsub (a b : Vector3d) : Vector3d :=
  Vec3 (vx a - vx b) (vy a - vy b) (vz a - vz b).
Definition vscale (a : Vector3d) (c : F) : Vector3d :=
  Vec3 (vx a * c) (vy a * c) (vz a * c).
Definition dot (a b : Vector3d) : F :=
  vx a * vx b + vy a * vy b + vz a * vz b.
Definition vmin (a b : Vector3d) : Vector3d :=
  Vec3 (smin (vx a) (vx b)) (smin (vy a) (vy b)) (smin (vz a) (vz b)).
Definition vmax (a b : Vector3d) : Vector3d :=
  Vec3 (smax (vx a) (vx b)) (smax (vy a) (vy b)) (smax (vz a) (vz b)).

(** A 3x3 matrix by rows; [R(i, j)] is [mcoeff R i j]. *)
Record Matrix3d : Type := Mat3 { row0 : Vector3d; row1 : Vector3d; row2 : Vector3d }.

Definition mrow (m : Matrix3d) (i : nat) : Vector3d :=
  match i with
  | O => row0 m
  | S O => row1 m
  | _ => row2 m
  end.
Definition mcoeff (m : Matrix3d) (i j : nat) : F := coeff (mrow m i) j.
Definition mcol (m : Matrix3d) (j : nat) : Vector3d :=
  Vec3 (mcoeff m 0 j) (mcoeff m 1 j) (mcoeff m 2 j).

Definition Identity : Matrix3d :=
  Mat3 (Vec3 1 0 0) (Vec3 0 1 0) (Vec3 0 0 1).
Definition mat_vec (m : Matrix3d) (v : Vector3d) : Vector3d :=
  Vec3 (dot (row0 m) v) (dot (row1 m) v) (dot (row2 m) v).
Definition mat_mul (a b : Matrix3d) : Matrix3d :=
  Mat3 (Vec3 (dot (row0 a) (mcol b 0)) (dot (row0 a) (mcol b 1)) (dot (row0 a) (mcol b 2)))
       (Vec3 (dot (row1 a) (mcol b 0)) (dot (row1 a) (mcol b 1)) (dot (row1 a) (mcol b 2)))
       (Vec3 (dot (row2 a) (mcol b 0)) (dot (row2 a) (mcol b 1)) (dot (row2 a) (mcol b 2))).
Definition transpose (m : Matrix3d) : Matrix3d :=
  Mat3 (mcol m 0) (mcol m 1) (mcol m 2).

(** [axis.col(j) = v] *)
Definition set_col (m : Matrix3d) (j : nat) (v : Vector3d) : Matrix3d :=
  let upd (r : Vector3d) (c : F) :=
    match j with
    | O => Vec3 c (vy r) (vz r)
    | S O => Vec3 (vx r) c (vz r)
    | _ => Vec3 (vx r) (vy r) c
    end in
  Mat3 (upd (row0 m) (vx v)) (upd (row1 m) (vy v)) (upd (row2 m) (vz v)).

(** Transform3d: [tf.linear()] and [tf.translation()]. *)
Record Transform3d : Type := Tf { linear : Matrix3d; translation : Vector3d }.

Definition tf_identity : Transform3d := Tf Identity (Constant 0).
(** [tf * v] *)
Definition tf_apply (tf : Transform3d) (v : Vector3d) : Vector3d :=
  vadd (mat_vec (linear tf) v) (translation tf).
(** [tf1 * tf2] *)
Definition tf_mul (a b : Transform3d) : Transform3d :=
  Tf (mat_mul (linear a) (linear b))
     (vadd (mat_vec (linear a) (translation b)) (translation a)).
(** [tf * Eigen::Translation3d(c)] *)
Definition tf_mul_translation (a : Transform3d) (c : Vector3d) : Transform3d :=
  Tf (linear a) (vadd (mat_vec (linear a) c) (translation a)).

End Geometry.

Arguments Vector3d F : clear implicits.
Arguments Matrix3d F : clear implicits.
Arguments Transform3d F : clear implicits.

(** [v.[i]] is the source's [v[i]], and [R.[i, j]] its [R(i, j)]. *)
Notation "v .[ i ]" := (coeff v i%nat)
  (at level 1, left associativity, format "v .[ i ]") : fcl_scope.
Notation "m .[ i , j ]" := (mcoeff m i%nat j%nat)
  (at level 1, left associativity, format "m .[ i ,  j ]") : fcl_scope.

(** ** The shape catalogue and the bounding volumes *)

Section Shapes.
Context {F : Type} `{Scalar F}.
Local Open Scope fcl_scope.

(** The classes of the shapes and of the bounding volumes are declared in
    headers that are not under src/; the records hold the members that the
    source reads and writes, under the names it uses. *)
Record Box : Type := mkBox { side : Vector3d F }.
Record Sphere : Type := mkSphere { sphere_radius : F }.
Record Ellipsoid : Type := mkEllipsoid { radii : Vector3d F }.
Record Capsule : Type := mkCapsule { capsule_radius : F; capsule_lz : F }.
Record Cone : Type := mkCone { cone_radius : F; cone_lz : F }.
Record Cylinder : Type := mkCylinder { cylinder_radius : F; cylinder_lz : F }.
(** [num_points] is the length of [points]. *)
Record Convex : Type := mkConvex { points : list (Vector3d F) }.
Record TriangleP : Type :=
  mkTriangleP { tri_a : Vector3d F; tri_b : Vector3d F; tri_c : Vector3d F }.
(** The region [n . x <= d]. *)
Record Halfspace : Type := mkHalfspace { hs_n : Vector3d F; hs_d : F }.
(** The surface [n . x = d]. *)
Record Plane : Type := mkPlane { pl_n : Vector3d F; pl_d : F }.

Record AABB : Type := mkAABB { min_ : Vector3d F; max_ : Vector3d F }.
Record OBB : Type :=
  mkOBB { obb_axis : Matrix3d F; To : Vector3d F; extent : Vector3d F }.
Record RSS : Type :=
  mkRSS { rss_axis : Matrix3d F; Tr : Vector3d F; l0 : F; l1 : F; r : F }.
Record OBBRSS : Type := mkOBBRSS { obbrss_obb : OBB; obbrss_rss : RSS }.
Record kIOS_Sphere : Type := mkkIOS_Sphere { o : Vector3d F; sr : F }.
Record kIOS : Type :=
  mkkIOS { spheres : list kIOS_Sphere; num_spheres : nat; kios_obb : OBB }.
(** [KDOP<N>] is "an array of [N] signed distances"; the source reads and
    writes it through [dist(i)], with literal indices below [N]. *)
Definition KDOP : Type := list F.

(** [bv.dist(i)], read. *)
Definition dist (bv : KDOP) (i : nat) : F := nth i bv 0.

(** [bv.dist(i) = v] *)
Fixpoint set_dist (bv : KDOP) (i : nat) (v : F) : KDOP :=
  match bv, i with
  | [], _ => []
  | _ :: t, O => v :: t
  | h :: t, S j => h :: set_dist t j v
  end.

(** Modelled from the spec: the default constructor [AABB()], declared in
    the AABB header, not under src/.  An AABB is "described by min/max
    corners"; the default one is the empty box, from which the source
    "accumulate[s] min/max over all transformed points". *)
Definition AABB_default : AABB :=
  mkAABB (Constant real_max) (Constant (- real_max)).

(** Modelled from the spec: [AABB::operator+=(const Vector3d&)], declared in
    the AABB header, not under src/: it "accumulate[s] min/max" with the
    point. *)
Definition AABB_add (bv : AABB) (p : Vector3d F) : AABB :=
  mkAABB (vmin (min_ bv) p) (vmax (max_ bv) p).

(** Modelled from the spec: the constructor [AABB(a, b, c)], declared in the
    AABB header, not under src/: the "min/max over the 3 transformed
    vertices". *)
Definition AABB_of3 (a b c : Vector3d F) : AABB :=
  mkAABB (vmin (vmin a b) c) (vmax (vmax a b) c).

(** Modelled from the spec: [AABB::center()], declared in the AABB header,
    not under src/: "the bound's center", the midpoint of the corners. *)
Definition AABB_center (bv : AABB) : Vector3d F :=
  vscale (vadd (min_ bv) (max_ bv)) half.

(** Modelled from the spec: [KDOP<N>::width()], [height()], [depth()] and
    [center()], declared in the KDOP header, not under src/.  A KDOP<N> holds
    "k/2 support-plane pairs": for direction [i] the least distance at index
    [i] and the greatest at index [N/2 + i], and its first three directions
    are the coordinate axes; these members are the "axis-aligned
    width/height/depth" and "the bound's center". *)
Definition KDOP_width (D : nat) (bv : KDOP) : F := dist bv D - dist bv 0.
(** Modelled from the spec: see [KDOP_width]. *)
Definition KDOP_height (D : nat) (bv : KDOP) : F := dist bv (D + 1) - dist bv 1.
(** Modelled from the spec: see [KDOP_width]. *)
Definition KDOP_depth (D : nat) (bv : KDOP) : F := dist bv (D + 2) - dist bv 2.
(** Modelled from the spec: see [KDOP_width]. *)
Definition KDOP_center (D : nat) (bv : KDOP) : Vector3d F :=
  vscale (Vec3 (dist bv 0 + dist bv D)
               (dist bv 1 + dist bv (D + 1))
               (dist bv 2 + dist bv (D + 2))) half.

(** Modelled from the spec: [generateCoordinateSystem], declared in
    fcl/math/geometry.h, not under src/.  It keeps column 0 of the matrix and
    fills columns 1 and 2 by "a canonical perpendicular-basis completion":
    a unit vector [u] across column 0, and their cross product. *)
Definition generateCoordinateSystem (axis : Matrix3d F) : Matrix3d F :=
  let w := mcol axis 0 in
  if fabs (vx w) >=? fabs (vy w) then
    let inv_length := 1 / ssqrt (vx w * vx w + vz w * vz w) in
    let u := Vec3 (- vz w * inv_length) 0 (vx w * inv_length) in
    let v := Vec3 (vy w * vz u) (vz w * vx u - vx w * vz u) (- vy w * vx u) in
    set_col (set_col axis 1 u) 2 v
  else
    let inv_length := 1 / ssqrt (vy w * vy w + vz w * vz w) in
    let u := Vec3 0 (vz w * inv_length) (- vy w * inv_length) in
    let v := Vec3 (vy w * vz u - vz w * vy u) (- vx w * vz u) (vx w * vy u) in
    set_col (set_col axis 1 u) 2 v.

(** *** details::getBoundVertices *)

Definition getBoundVertices_Box (box : Box) (tf : Transform3d F)
  : list (Vector3d F) :=
  let a := (side box).[0] / 2 in
  let b := (side box).[1] / 2 in
  let c := (side box).[2] / 2 in
  [ tf_apply tf (Vec3 a b c);
    tf_apply tf (Vec3 a b (- c));
    tf_apply tf (Vec3 a (- b) c);
    tf_apply tf (Vec3 a (- b) (- c));
    tf_apply tf (Vec3 (- a) b c);
    tf_apply tf (Vec3 (- a) b (- c));
    tf_apply tf (Vec3 (- a) (- b) c);
    tf_apply tf (Vec3 (- a) (- b) (- c)) ].

(** "we use icosahedron to bound the sphere" *)
Definition getBoundVertices_Sphere (sphere : Sphere) (tf : Transform3d F)
  : list (Vector3d F) :=
  let m := (1 + ssqrt 5) / 2 in
  let edge_size := sphere_radius sphere * 6 / (ssqrt 27 + ssqrt 15) in
  let a := edge_size in
  let b := m * edge_size in
  [ tf_apply tf (Vec3 0 a b);
    tf_apply tf (Vec3 0 (- a) b);
    tf_apply tf (Vec3 0 a (- b));
    tf_apply tf (Vec3 0 (- a) (- b));
    tf_apply tf (Vec3 a b 0);
    tf_apply tf (Vec3 (- a) b 0);
    tf_apply tf (Vec3 a (- b) 0);
    tf_apply tf (Vec3 (- a) (- b) 0);
    tf_apply tf (Vec3 b 0 a);
    tf_apply tf (Vec3 b 0 (- a));
    tf_apply tf (Vec3 (- b) 0 a);
    tf_apply tf (Vec3 (- b) 0 (- a)) ].

(** "we use scaled icosahedron to bound the ellipsoid" *)
Definition getBoundVertices_Ellipsoid (ellipsoid : Ellipsoid) (tf : Transform3d F)
  : list (Vector3d F) :=
  let phi := (1 + ssqrt 5) / 2 in
  let a := ssqrt 3 / (phi * phi) in
  let b := phi * a in
  let A := (radii ellipsoid).[0] in
  let B := (radii ellipsoid).[1] in
  let C := (radii ellipsoid).[2] in
  let Aa := A * a in
  let Ab := A * b in
  let Ba := B * a in
  let Bb := B * b in
  let Ca := C * a in
  let Cb := C * b in
  [ tf_apply tf (Vec3 0 Ba Cb);
    tf_apply tf (Vec3 0 (- Ba) Cb);
    tf_apply tf (Vec3 0 Ba (- Cb));
    tf_apply tf (Vec3 0 (- Ba) (- Cb));
    tf_apply tf (Vec3 Aa Bb 0);
    tf_apply tf (Vec3 (- Aa) Bb 0);
    tf_apply tf (Vec3 Aa (- Bb) 0);
    tf_apply tf (Vec3 (- Aa) (- Bb) 0);
    tf_apply tf (Vec3 Ab 0 Ca);
    tf_apply tf (Vec3 Ab 0 (- Ca));
    tf_apply tf (Vec3 (- Ab) 0 Ca);
    tf_apply tf (Vec3 (- Ab) 0 (- Ca)) ].

Definition getBoundVertices_Capsule (capsule : Capsule) (tf : Transform3d F)
  : list (Vector3d F) :=
  let m := (1 + ssqrt 5) / 2 in
  let hl := capsule_lz capsule * half in
  let edge_size := capsule_radius capsule * 6 / (ssqrt 27 + ssqrt 15) in
  let a := edge_size in
  let b := m * edge_size in
  let r2 := capsule_radius capsule * 2 / ssqrt 3 in
  let c := half * r2 in
  let d := capsule_radius capsule in
  [ tf_apply tf (Vec3 0 a (b + hl));
    tf_apply tf (Vec3 0 (- a) (b + hl));
    tf_apply tf (Vec3 0 a (- b + hl));
    tf_apply tf (Vec3 0 (- a) (- b + hl));
    tf_apply tf (Vec3 a b hl);
    tf_apply tf (Vec3 (- a) b hl);
    tf_apply tf (Vec3 a (- b) hl);
    tf_apply tf (Vec3 (- a) (- b) hl);
    tf_apply tf (Vec3 b 0 (a + hl));
    tf_apply tf (Vec3 b 0 (- a + hl));
    tf_apply tf (Vec3 (- b) 0 (a + hl));
    tf_apply tf (Vec3 (- b) 0 (- a + hl));

    tf_apply tf (Vec3 0 a (b - hl));
    tf_apply tf (Vec3 0 (- a) (b - hl));
    tf_apply tf (Vec3 0 a (- b - hl));
    tf_apply tf (Vec3 0 (- a) (- b - hl));
    tf_apply tf (Vec3 a b (- hl));
    tf_apply tf (Vec3 (- a) b (- hl));
    tf_apply tf (Vec3 a (- b) (- hl));
    tf_apply tf (Vec3 (- a) (- b) (- hl));
    tf_apply tf (Vec3 b 0 (a - hl));
    tf_apply tf (Vec3 b 0 (- a - hl));
    tf_apply tf (Vec3 (- b) 0 (a - hl));
    tf_apply tf (Vec3 (- b) 0 (- a - hl));

    tf_apply tf (Vec3 r2 0 hl);
    tf_apply tf (Vec3 c d hl);
    tf_apply tf (Vec3 (- c) d hl);
    tf_apply tf (Vec3 (- r2) 0 hl);
    tf_apply tf (Vec3 (- c) (- d) hl);
    tf_apply tf (Vec3 c (- d) hl);

    tf_apply tf (Vec3 r2 0 (- hl));
    tf_apply tf (Vec3 c d (- hl));
    tf_apply tf (Vec3 (- c) d (- hl));
    tf_apply tf (Vec3 (- r2) 0 (- hl));
    tf_apply tf (Vec3 (- c) (- d) (- hl));
    tf_apply tf (Vec3 c (- d) (- hl)) ].

Definition getBoundVertices_Cone (cone : Cone) (tf : Transform3d F)
  : list (Vector3d F) :=
  let hl := cone_lz cone * half in
  let r2 := cone_radius cone * 2 / ssqrt 3 in
  let a := half * r2 in
  let b := cone_radius cone in
  [ tf_apply tf (Vec3 r2 0 (- hl));
    tf_apply tf (Vec3 a b (- hl));
    tf_apply tf (Vec3 (- a) b (- hl));
    tf_apply tf (Vec3 (- r2) 0 (- hl));
    tf_apply tf (Vec3 (- a) (- b) (- hl));
    tf_apply tf (Vec3 a (- b) (- hl));

    tf_apply tf (Vec3 0 0 hl) ].

Definition getBoundVertices_Cylinder (cylinder : Cylinder) (tf : Transform3d F)
  : list (Vector3d F) :=
  let hl := cylinder_lz cylinder * half in
  let r2 := cylinder_radius cylinder * 2 / ssqrt 3 in
  let a := half * r2 in
  let b := cylinder_radius cylinder in
  [ tf_apply tf (Vec3 r2 0 (- hl));
    tf_apply tf (Vec3 a b (- hl));
    tf_apply tf (Vec3 (- a) b (- hl));
    tf_apply tf (Vec3 (- r2) 0 (- hl));
    tf_apply tf (Vec3 (- a) (- b) (- hl));
    tf_apply tf (Vec3 a (- b) (- hl));

    tf_apply tf (Vec3 r2 0 hl);
    tf_apply tf (Vec3 a b hl);
    tf_apply tf (Vec3 (- a) b hl);
    tf_apply tf (Vec3 (- r2) 0 hl);
    tf_apply tf (Vec3 (- a) (- b) hl);
    tf_apply tf (Vec3 a (- b) hl) ].

(** The loop [for (i = 0; i < num_points; ++i) result[i] = tf * points[i]]. *)
Definition getBoundVertices_Convex (convex : Convex) (tf : Transform3d F)
  : list (Vector3d F) :=
  map (fun p => tf_apply tf p) (points convex).

Definition getBoundVertices_TriangleP (triangle : TriangleP) (tf : Transform3d F)
  : list (Vector3d F) :=
  [ tf_apply tf (tri_a triangle);
    tf_apply tf (tri_b triangle);
    tf_apply tf (tri_c triangle) ].

(** *** transform: a rigid transform applied to a half-space or a plane

    "suppose the initial halfspace is n * x <= d; after transform (R, T),
    x --> x' = R x + T and the new half space becomes n' * x' <= d' where
    n' = R * n and d' = d + n' * T" *)
Definition transform_Halfspace (a : Halfspace) (tf : Transform3d F)
  : Halfspace :=
  let n := mat_vec (linear tf) (hs_n a) in
  let d := hs_d a + dot n (translation tf) in
  mkHalfspace n d.

Definition transform_Plane (a : Plane) (tf : Transform3d F) : Plane :=
  let n := mat_vec (linear tf) (pl_n a) in
  let d := pl_d a + dot n (translation tf) in
  mkPlane n d.

(** *** computeBV<AABB, S> *)

Definition computeBV_AABB_Box (s : Box) (tf : Transform3d F) : AABB :=
  let R := linear tf in
  let T := translation tf in
  let x_range := half * (fabs (R.[0, 0] * (side s).[0])
                         + fabs (R.[0, 1] * (side s).[1])
                         + fabs (R.[0, 2] * (side s).[2])) in
  let y_range := half * (fabs (R.[1, 0] * (side s).[0])
                         + fabs (R.[1, 1] * (side s).[1])
                         + fabs (R.[1, 2] * (side s).[2])) in
  let z_range := half * (fabs (R.[2, 0] * (side s).[0])
                         + fabs (R.[2, 1] * (side s).[1])
                         + fabs (R.[2, 2] * (side s).[2])) in
  let v_delta := Vec3 x_range y_range z_range in
  mkAABB (vsub T v_delta) (vadd T v_delta).

Definition computeBV_AABB_Sphere (s : Sphere) (tf : Transform3d F) : AABB :=
  let T := translation tf in
  let v_delta := Constant (sphere_radius s) in
  mkAABB (vsub T v_delta) (vadd T v_delta).

Definition computeBV_AABB_Ellipsoid (s : Ellipsoid) (tf : Transform3d F) : AABB :=
  let R := linear tf in
  let T := translation tf in
  let x_range := fabs (R.[0, 0] * (radii s).[0])
                 + fabs (R.[0, 1] * (radii s).[1])
                 + fabs (R.[0, 2] * (radii s).[2]) in
  let y_range := fabs (R.[1, 0] * (radii s).[0])
                 + fabs (R.[1, 1] * (radii s).[1])
                 + fabs (R.[1, 2] * (radii s).[2]) in
  let z_range := fabs (R.[2, 0] * (radii s).[0])
                 + fabs (R.[2, 1] * (radii s).[1])
                 + fabs (R.[2, 2] * (radii s).[2]) in
  let v_delta := Vec3 x_range y_range z_range in
  mkAABB (vsub T v_delta) (vadd T v_delta).

Definition computeBV_AABB_Capsule (s : Capsule) (tf : Transform3d F) : AABB :=
  let R := linear tf in
  let T := translation tf in
  let x_range := half * fabs (R.[0, 2] * capsule_lz s) + capsule_radius s in
  let y_range := half * fabs (R.[1, 2] * capsule_lz s) + capsule_radius s in
  let z_range := half * fabs (R.[2, 2] * capsule_lz s) + capsule_radius s in
  let v_delta := Vec3 x_range y_range z_range in
  mkAABB (vsub T v_delta) (vadd T v_delta).

Definition computeBV_AABB_Cone (s : Cone) (tf : Transform3d F) : AABB :=
  let R := linear tf in
  let T := translation tf in
  let x_range := fabs (R.[0, 0] * cone_radius s)
                 + fabs (R.[0, 1] * cone_radius s)
                 + half * fabs (R.[0, 2] * cone_lz s) in
  let y_range := fabs (R.[1, 0] * cone_radius s)
                 + fabs (R.[1, 1] * cone_radius s)
                 + half * fabs (R.[1, 2] * cone_lz s) in
  let z_range := fabs (R.[2, 0] * cone_radius s)
                 + fabs (R.[2, 1] * cone_radius s)
                 + half * fabs (R.[2, 2] * cone_lz s) in
  let v_delta := Vec3 x_range y_range z_range in
  mkAABB (vsub T v_delta) (vadd T v_delta).

Definition computeBV_AABB_Cylinder (s : Cylinder) (tf : Transform3d F) : AABB :=
  let R := linear tf in
  let T := translation tf in
  let x_range := fabs (R.[0, 0] * cylinder_radius s)
                 + fabs (R.[0, 1] * cylinder_radius s)
                 + half * fabs (R.[0, 2] * cylinder_lz s) in
  let y_range := fabs (R.[1, 0] * cylinder_radius s)
                 + fabs (R.[1, 1] * cylinder_radius s)
                 + half * fabs (R.[1, 2] * cylinder_lz s) in
  let z_range := fabs (R.[2, 0] * cylinder_radius s)
                 + fabs (R.[2, 1] * cylinder_radius s)
                 + half * fabs (R.[2, 2] * cylinder_lz s) in
  let v_delta := Vec3 x_range y_range z_range in
  mkAABB (vsub T v_delta) (vadd T v_delta).

(** The loop [for (i = 0; i < num_points; ++i) bv_ += R * points[i] + T]. *)
Definition computeBV_AABB_Convex (s : Convex) (tf : Transform3d F) : AABB :=
  let R := linear tf in
  let T := translation tf in
  fold_left (fun bv_ p => let new_p := vadd (mat_vec R p) T in AABB_add bv_ new_p)
            (points s) AABB_default.

Definition computeBV_AABB_TriangleP (s : TriangleP) (tf : Transform3d F) : AABB :=
  AABB_of3 (tf_apply tf (tri_a s)) (tf_apply tf (tri_b s)) (tf_apply tf (tri_c s)).

(** [bv_.min_[i] = v] and [bv_.max_[i] = v] *)
Definition set_coeff (v : Vector3d F) (i : nat) (c : F) : Vector3d F :=
  match i with
  | O => Vec3 c (vy v) (vz v)
  | S O => Vec3 (vx v) c (vz v)
  | _ => Vec3 (vx v) (vy v) c
  end.
Definition set_min (bv : AABB) (i : nat) (c : F) : AABB :=
  mkAABB (set_coeff (min_ bv) i c) (max_ bv).
Definition set_max (bv : AABB) (i : nat) (c : F) : AABB :=
  mkAABB (min_ bv) (set_coeff (max_ bv) i c).

Definition computeBV_AABB_Halfspace (s : Halfspace) (tf : Transform3d F) : AABB :=
  let new_s := transform_Halfspace s tf in
  let n := hs_n new_s in
  let d := hs_d new_s in
  let bv_ := mkAABB (Constant (- real_max)) (Constant real_max) in
  if (n.[1] =? 0) && (n.[2] =? 0) then
    (* normal aligned with x axis *)
    if n.[0] <? 0 then set_min bv_ 0 (- d)
    else if n.[0] >? 0 then set_max bv_ 0 d
    else bv_
  else if (n.[0] =? 0) && (n.[2] =? 0) then
    (* normal aligned with y axis *)
    if n.[1] <? 0 then set_min bv_ 1 (- d)
    else if n.[1] >? 0 then set_max bv_ 1 d
    else bv_
  else if (n.[0] =? 0) && (n.[1] =? 0) then
    (* normal aligned with z axis *)
    if n.[2] <? 0 then set_min bv_ 2 (- d)
    else if n.[2] >? 0 then set_max bv_ 2 d
    else bv_
  else bv_.

Definition computeBV_AABB_Plane (s : Plane) (tf : Transform3d F) : AABB :=
  let new_s := transform_Plane s tf in
  let n := pl_n new_s in
  let d := pl_d new_s in
  let bv_ := mkAABB (Constant (- real_max)) (Constant real_max) in
  if (n.[1] =? 0) && (n.[2] =? 0) then
    (* normal aligned with x axis *)
    if n.[0] <? 0 then set_min (set_max bv_ 0 (- d)) 0 (- d)
    else if n.[0] >? 0 then set_min (set_max bv_ 0 d) 0 d
    else bv_
  else if (n.[0] =? 0) && (n.[2] =? 0) then
    (* normal aligned with y axis *)
    if n.[1] <? 0 then set_min (set_max bv_ 1 (- d)) 1 (- d)
    else if n.[1] >? 0 then set_min (set_max bv_ 1 d) 1 d
    else bv_
  else if (n.[0] =? 0) && (n.[1] =? 0) then
    (* normal aligned with z axis *)
    if n.[2] <? 0 then set_min (set_max bv_ 2 (- d)) 2 (- d)
    else if n.[2] >? 0 then set_min (set_max bv_ 2 d) 2 d
    else bv_
  else bv_.

(** *** computeBV<OBB, S> *)

Definition computeBV_OBB_Box (s : Box) (tf : Transform3d F) : OBB :=
  mkOBB (linear tf) (translation tf) (vscale (side s) half).

Definition computeBV_OBB_Sphere (s : Sphere) (tf : Transform3d F) : OBB :=
  mkOBB Identity (translation tf) (Constant (sphere_radius s)).

Definition computeBV_OBB_Ellipsoid (s : Ellipsoid) (tf : Transform3d F) : OBB :=
  mkOBB (linear tf) (translation tf) (radii s).

Definition computeBV_OBB_Capsule (s : Capsule) (tf : Transform3d F) : OBB :=
  mkOBB (linear tf) (translation tf)
        (Vec3 (capsule_radius s) (capsule_radius s)
              (capsule_lz s / 2 + capsule_radius s)).

Definition computeBV_OBB_Cone (s : Cone) (tf : Transform3d F) : OBB :=
  mkOBB (linear tf) (translation tf)
        (Vec3 (cone_radius s) (cone_radius s) (cone_lz s / 2)).

Definition computeBV_OBB_Cylinder (s : Cylinder) (tf : Transform3d F) : OBB :=
  mkOBB (linear tf) (translation tf)
        (Vec3 (cylinder_radius s) (cylinder_radius s) (cylinder_lz s / 2)).

(** [fit] is declared in the BV fitting header, not under src/, and
    nothing below depends on how it fits a box to the points: it is a
    parameter.  It writes the box it is given. *)
Variable fit : list (Vector3d F) -> OBB -> OBB.

Definition computeBV_OBB_Convex (s : Convex) (tf : Transform3d F) (bv : OBB) : OBB :=
  let bv := fit (points s) bv in
  let bv := mkOBB (linear tf) (To bv) (extent bv) in
  mkOBB (obb_axis bv) (tf_apply tf (To bv)) (extent bv).

(** "Half space can only have very rough OBB" *)
Definition computeBV_OBB_Halfspace (s : Halfspace) (tf : Transform3d F) : OBB :=
  mkOBB Identity (Constant 0) (Constant real_max).

(** The source writes column 0 of [bv.axis] and hands the matrix to
    [generateCoordinateSystem], so the result is a function of the [bv] that
    comes in as well. *)
Definition computeBV_OBB_Plane (s : Plane) (tf : Transform3d F) (bv : OBB) : OBB :=
  let n := mat_vec (linear tf) (pl_n s) in
  let axis := generateCoordinateSystem (set_col (obb_axis bv) 0 n) in
  let p := vscale (pl_n s) (pl_d s) in
  mkOBB axis (tf_apply tf p) (Vec3 0 real_max real_max).

(** *** computeBV<RSS, S>, computeBV<OBBRSS, S> and computeBV<kIOS, S> for
    half-spaces and planes *)

(** "Half space can only have very rough RSS" *)
Definition computeBV_RSS_Halfspace (s : Halfspace) (tf : Transform3d F) : RSS :=
  mkRSS Identity (Constant 0) real_max real_max real_max.

Definition computeBV_OBBRSS_Halfspace (s : Halfspace) (tf : Transform3d F)
  : OBBRSS :=
  mkOBBRSS (computeBV_OBB_Halfspace s tf) (computeBV_RSS_Halfspace s tf).

(** [bv.spheres[0].o.setZero(); bv.spheres[0].r = max]: sphere 0 of the
    array is written, the others are left as they come in. *)
Definition set_sphere0 (sp : list kIOS_Sphere) (s0 : kIOS_Sphere)
  : list kIOS_Sphere :=
  s0 :: tl sp.

Definition computeBV_kIOS_Halfspace (s : Halfspace) (tf : Transform3d F)
  (bv : kIOS) : kIOS :=
  mkkIOS (set_sphere0 (spheres bv) (mkkIOS_Sphere (Constant 0) real_max))
         1 (computeBV_OBB_Halfspace s tf).

(** As for the OBB, columns 1 and 2 of [bv.axis] come in with [bv]. *)
Definition computeBV_RSS_Plane (s : Plane) (tf : Transform3d F) (bv : RSS) : RSS :=
  let n := mat_vec (linear tf) (pl_n s) in
  let axis := generateCoordinateSystem (set_col (rss_axis bv) 0 n) in
  let p := vscale (pl_n s) (pl_d s) in
  mkRSS axis (tf_apply tf p) real_max real_max 0.

Definition computeBV_OBBRSS_Plane (s : Plane) (tf : Transform3d F) (bv : OBBRSS)
  : OBBRSS :=
  mkOBBRSS (computeBV_OBB_Plane s tf (obbrss_obb bv))
           (computeBV_RSS_Plane s tf (obbrss_rss bv)).

Definition computeBV_kIOS_Plane (s : Plane) (tf : Transform3d F) (bv : kIOS)
  : kIOS :=
  mkkIOS (set_sphere0 (spheres bv) (mkkIOS_Sphere (Constant 0) real_max))
         1 (computeBV_OBB_Plane s tf (kios_obb bv)).

(** *** computeBV<KDOP<N>, Halfspace> and computeBV<KDOP<N>, Plane>

    The two loops that open each of them: [dist(i) = -max] for [i < D], and
    [dist(i) = max] for [D <= i < 2 * D]. *)
Definition KDOP_unbounded (D : nat) : KDOP :=
  repeat (- real_max) D ++ repeat real_max D.

Definition computeBV_KDOP16_Halfspace (s : Halfspace) (tf : Transform3d F) : KDOP :=
  let new_s := transform_Halfspace s tf in
  let n := hs_n new_s in
  let d := hs_d new_s in
  let D := 8%nat in
  let bv := KDOP_unbounded D in
  if (n.[1] =? 0) && (n.[2] =? 0) then
    if n.[0] >? 0 then set_dist bv D d else set_dist bv 0 (- d)
  else if (n.[0] =? 0) && (n.[2] =? 0) then
    if n.[1] >? 0 then set_dist bv (D + 1) d else set_dist bv 1 (- d)
  else if (n.[0] =? 0) && (n.[1] =? 0) then
    if n.[2] >? 0 then set_dist bv (D + 2) d else set_dist bv 2 (- d)
  else if (n.[2] =? 0) && (n.[0] =? n.[1]) then
    if n.[0] >? 0 then set_dist bv (D + 3) (n.[0] * d * 2)
    else set_dist bv 3 (n.[0] * d * 2)
  else if (n.[1] =? 0) && (n.[0] =? n.[2]) then
    if n.[1] >? 0 then set_dist bv (D + 4) (n.[0] * d * 2)
    else set_dist bv 4 (n.[0] * d * 2)
  else if (n.[0] =? 0) && (n.[1] =? n.[2]) then
    if n.[1] >? 0 then set_dist bv (D + 5) (n.[1] * d * 2)
    else set_dist bv 5 (n.[1] * d * 2)
  else if (n.[2] =? 0) && (n.[0] + n.[1] =? 0) then
    if n.[0] >? 0 then set_dist bv (D + 6) (n.[0] * d * 2)
    else set_dist bv 6 (n.[0] * d * 2)
  else if (n.[1] =? 0) && (n.[0] + n.[2] =? 0) then
    if n.[0] >? 0 then set_dist bv (D + 7) (n.[0] * d * 2)
    else set_dist bv 7 (n.[0] * d * 2)
  else bv.

Definition computeBV_KDOP18_Halfspace (s : Halfspace) (tf : Transform3d F) : KDOP :=
  let new_s := transform_Halfspace s tf in
  let n := hs_n new_s in
  let d := hs_d new_s in
  let D := 9%nat in
  let bv := KDOP_unbounded D in
  if (n.[1] =? 0) && (n.[2] =? 0) then
    if n.[0] >? 0 then set_dist bv D d else set_dist bv 0 (- d)
  else if (n.[0] =? 0) && (n.[2] =? 0) then
    if n.[1] >? 0 then set_dist bv (D + 1) d else set_dist bv 1 (- d)
  else if (n.[0] =? 0) && (n.[1] =? 0) then
    if n.[2] >? 0 then set_dist bv (D + 2) d else set_dist bv 2 (- d)
  else if (n.[2] =? 0) && (n.[0] =? n.[1]) then
    if n.[0] >? 0 then set_dist bv (D + 3) (n.[0] * d * 2)
    else set_dist bv 3 (n.[0] * d * 2)
  else if (n.[1] =? 0) && (n.[0] =? n.[2]) then
    if n.[1] >? 0 then set_dist bv (D + 4) (n.[0] * d * 2)
    else set_dist bv 4 (n.[0] * d * 2)
  else if (n.[0] =? 0) && (n.[1] =? n.[2]) then
    if n.[1] >? 0 then set_dist bv (D + 5) (n.[1] * d * 2)
    else set_dist bv 5 (n.[1] * d * 2)
  else if (n.[2] =? 0) && (n.[0] + n.[1] =? 0) then
    if n.[0] >? 0 then set_dist bv (D + 6) (n.[0] * d * 2)
    else set_dist bv 6 (n.[0] * d * 2)
  else if (n.[1] =? 0) && (n.[0] + n.[2] =? 0) then
    if n.[0] >? 0 then set_dist bv (D + 7) (n.[0] * d * 2)
    else set_dist bv 7 (n.[0] * d * 2)
  else if (n.[0] =? 0) && (n.[1] + n.[2] =? 0) then
    if n.[1] >? 0 then set_dist bv (D + 8) (n.[1] * d * 2)
    else set_dist bv 8 (n.[1] * d * 2)
  else bv.

Definition computeBV_KDOP24_Halfspace (s : Halfspace) (tf : Transform3d F) : KDOP :=
  let new_s := transform_Halfspace s tf in
  let n := hs_n new_s in
  let d := hs_d new_s in
  let D := 12%nat in
  let bv := KDOP_unbounded D in
  if (n.[1] =? 0) && (n.[2] =? 0) then
    if n.[0] >? 0 then set_dist bv D d else set_dist bv 0 (- d)
  else if (n.[0] =? 0) && (n.[2] =? 0) then
    if n.[1] >? 0 then set_dist bv (D + 1) d else set_dist bv 1 (- d)
  else if (n.[0] =? 0) && (n.[1] =? 0) then
    if n.[2] >? 0 then set_dist bv (D + 2) d else set_dist bv 2 (- d)
  else if (n.[2] =? 0) && (n.[0] =? n.[1]) then
    if n.[0] >? 0 then set_dist bv (D + 3) (n.[0] * d * 2)
    else set_dist bv 3 (n.[0] * d * 2)
  else if (n.[1] =? 0) && (n.[0] =? n.[2]) then
    if n.[1] >? 0 then set_dist bv (D + 4) (n.[0] * d * 2)
    else set_dist bv 4 (n.[0] * d * 2)
  else if (n.[0] =? 0) && (n.[1] =? n.[2]) then
    if n.[1] >? 0 then set_dist bv (D + 5) (n.[1] * d * 2)
    else set_dist bv 5 (n.[1] * d * 2)
  else if (n.[2] =? 0) && (n.[0] + n.[1] =? 0) then
    if n.[0] >? 0 then set_dist bv (D + 6) (n.[0] * d * 2)
    else set_dist bv 6 (n.[0] * d * 2)
  else if (n.[1] =? 0) && (n.[0] + n.[2] =? 0) then
    if n.[0] >? 0 then set_dist bv (D + 7) (n.[0] * d * 2)
    else set_dist bv 7 (n.[0] * d * 2)
  else if (n.[0] =? 0) && (n.[1] + n.[2] =? 0) then
    if n.[1] >? 0 then set_dist bv (D + 8) (n.[1] * d * 2)
    else set_dist bv 8 (n.[1] * d * 2)
  else if (n.[0] + n.[2] =? 0) && (n.[0] + n.[1] =? 0) then
    if n.[0] >? 0 then set_dist bv (D + 9) (n.[0] * d * 3)
    else set_dist bv 9 (n.[0] * d * 3)
  else if (n.[0] + n.[1] =? 0) && (n.[1] + n.[2] =? 0) then
    if n.[0] >? 0 then set_dist bv (D + 10) (n.[0] * d * 3)
    else set_dist bv 10 (n.[0] * d * 3)
  else if (n.[0] + n.[1] =? 0) && (n.[0] + n.[2] =? 0) then
    if n.[1] >? 0 then set_dist bv (D + 11) (n.[1] * d * 3)
    else set_dist bv 11 (n.[1] * d * 3)
  else bv.

(** [bv.dist(i) = bv.dist(j) = v] assigns right to left. *)
Definition set_dist2 (bv : KDOP) (i j : nat) (v : F) : KDOP :=
  set_dist (set_dist bv j v) i v.

Definition computeBV_KDOP16_Plane (s : Plane) (tf : Transform3d F) : KDOP :=
  let new_s := transform_Plane s tf in
  let n := pl_n new_s in
  let d := pl_d new_s in
  let D := 8%nat in
  let bv := KDOP_unbounded D in
  if (n.[1] =? 0) && (n.[2] =? 0) then
    if n.[0] >? 0 then set_dist2 bv 0 D d else set_dist2 bv 0 D (- d)
  else if (n.[0] =? 0) && (n.[2] =? 0) then
    if n.[1] >? 0 then set_dist2 bv 1 (D + 1) d else set_dist2 bv 1 (D + 1) (- d)
  else if (n.[0] =? 0) && (n.[1] =? 0) then
    if n.[2] >? 0 then set_dist2 bv 2 (D + 2) d else set_dist2 bv 2 (D + 2) (- d)
  else if (n.[2] =? 0) && (n.[0] =? n.[1]) then
    set_dist2 bv 3 (D + 3) (n.[0] * d * 2)
  else if (n.[1] =? 0) && (n.[0] =? n.[2]) then
    set_dist2 bv 4 (D + 4) (n.[0] * d * 2)
  else if (n.[0] =? 0) && (n.[1] =? n.[2]) then
    set_dist2 bv 6 (D + 5) (n.[1] * d * 2)
  else if (n.[2] =? 0) && (n.[0] + n.[1] =? 0) then
    set_dist2 bv 6 (D + 6) (n.[0] * d * 2)
  else if (n.[1] =? 0) && (n.[0] + n.[2] =? 0) then
    set_dist2 bv 7 (D + 7) (n.[0] * d * 2)
  else bv.

Definition computeBV_KDOP18_Plane (s : Plane) (tf : Transform3d F) : KDOP :=
  let new_s := transform_Plane s tf in
  let n := pl_n new_s in
  let d := pl_d new_s in
  let D := 9%nat in
  let bv := KDOP_unbounded D in
  if (n.[1] =? 0) && (n.[2] =? 0) then
    if n.[0] >? 0 then set_dist2 bv 0 D d else set_dist2 bv 0 D (- d)
  else if (n.[0] =? 0) && (n.[2] =? 0) then
    if n.[1] >? 0 then set_dist2 bv 1 (D + 1) d else set_dist2 bv 1 (D + 1) (- d)
  else if (n.[0] =? 0) && (n.[1] =? 0) then
    if n.[2] >? 0 then set_dist2 bv 2 (D + 2) d else set_dist2 bv 2 (D + 2) (- d)
  else if (n.[2] =? 0) && (n.[0] =? n.[1]) then
    set_dist2 bv 3 (D + 3) (n.[0] * d * 2)
  else if (n.[1] =? 0) && (n.[0] =? n.[2]) then
    set_dist2 bv 4 (D + 4) (n.[0] * d * 2)
  else if (n.[0] =? 0) && (n.[1] =? n.[2]) then
    set_dist2 bv 5 (D + 5) (n.[1] * d * 2)
  else if (n.[2] =? 0) && (n.[0] + n.[1] =? 0) then
    set_dist2 bv 6 (D + 6) (n.[0] * d * 2)
  else if (n.[1] =? 0) && (n.[0] + n.[2] =? 0) then
    set_dist2 bv 7 (D + 7) (n.[0] * d * 2)
  else if (n.[0] =? 0) && (n.[1] + n.[2] =? 0) then
    set_dist2 bv 8 (D + 8) (n.[1] * d * 2)
  else bv.

Definition computeBV_KDOP24_Plane (s : Plane) (tf : Transform3d F) : KDOP :=
  let new_s := transform_Plane s tf in
  let n := pl_n new_s in
  let d := pl_d new_s in
  let D := 12%nat in
  let bv := KDOP_unbounded D in
  if (n.[1] =? 0) && (n.[2] =? 0) then
    if n.[0] >? 0 then set_dist2 bv 0 D d else set_dist2 bv 0 D (- d)
  else if (n.[0] =? 0) && (n.[2] =? 0) then
    if n.[1] >? 0 then set_dist2 bv 1 (D + 1) d else set_dist2 bv 1 (D + 1) (- d)
  else if (n.[0] =? 0) && (n.[1] =? 0) then
    if n.[2] >? 0 then set_dist2 bv 2 (D + 2) d else set_dist2 bv 2 (D + 2) (- d)
  else if (n.[2] =? 0) && (n.[0] =? n.[1]) then
    set_dist2 bv 3 (D + 3) (n.[0] * d * 2)
  else if (n.[1] =? 0) && (n.[0] =? n.[2]) then
    set_dist2 bv 4 (D + 4) (n.[0] * d * 2)
  else if (n.[0] =? 0) && (n.[1] =? n.[2]) then
    set_dist2 bv 5 (D + 5) (n.[1] * d * 2)
  else if (n.[2] =? 0) && (n.[0] + n.[1] =? 0) then
    set_dist2 bv 6 (D + 6) (n.[0] * d * 2)
  else if (n.[1] =? 0) && (n.[0] + n.[2] =? 0) then
    set_dist2 bv 7 (D + 7) (n.[0] * d * 2)
  else if (n.[0] =? 0) && (n.[1] + n.[2] =? 0) then
    set_dist2 bv 8 (D + 8) (n.[1] * d * 2)
  else if (n.[0] + n.[2] =? 0) && (n.[0] + n.[1] =? 0) then
    set_dist2 bv 9 (D + 9) (n.[0] * d * 3)
  else if (n.[0] + n.[1] =? 0) && (n.[1] + n.[2] =? 0) then
    set_dist2 bv 10 (D + 10) (n.[0] * d * 3)
  else if (n.[0] + n.[1] =? 0) && (n.[0] + n.[2] =? 0) then
    set_dist2 bv 11 (D + 11) (n.[1] * d * 3)
  else bv.

(** *** constructBox

    Both overloads return the box and its placement through out-parameters;
    here they return the pair.  [RSS::width], [RSS::height] and [RSS::depth]
    are declared in the RSS header, not under src/, and nothing below depends
    on what they compute: they are parameters. *)
Variables RSS_width RSS_height RSS_depth : RSS -> F.

Definition constructBox_AABB (bv : AABB) : Box * Transform3d F :=
  (mkBox (vsub (max_ bv) (min_ bv)), Tf Identity (AABB_center bv)).

Definition constructBox_OBB (bv : OBB) : Box * Transform3d F :=
  (mkBox (vscale (extent bv) 2), Tf (obb_axis bv) (To bv)).

Definition constructBox_OBBRSS (bv : OBBRSS) : Box * Transform3d F :=
  (mkBox (vscale (extent (obbrss_obb bv)) 2),
   Tf (obb_axis (obbrss_obb bv)) (To (obbrss_obb bv))).

Definition constructBox_kIOS (bv : kIOS) : Box * Transform3d F :=
  (mkBox (vscale (extent (kios_obb bv)) 2),
   Tf (obb_axis (kios_obb bv)) (To (kios_obb bv))).

Definition constructBox_RSS (bv : RSS) : Box * Transform3d F :=
  (mkBox (Vec3 (RSS_width bv) (RSS_height bv) (RSS_depth bv)),
   Tf (rss_axis bv) (Tr bv)).

(** The three overloads for KDOP<16>, KDOP<18> and KDOP<24> have the same
    body; [D] is [N / 2]. *)
Definition constructBox_KDOP (D : nat) (bv : KDOP) : Box * Transform3d F :=
  (mkBox (Vec3 (KDOP_width D bv) (KDOP_height D bv) (KDOP_depth D bv)),
   Tf Identity (KDOP_center D bv)).

(** The overloads that take the transform [tf_bv] of the frame the bound
    lives in. *)
Definition constructBox_AABB_tf (bv : AABB) (tf_bv : Transform3d F)
  : Box * Transform3d F :=
  (mkBox (vsub (max_ bv) (min_ bv)), tf_mul_translation tf_bv (AABB_center bv)).

Definition constructBox_OBB_tf (bv : OBB) (tf_bv : Transform3d F)
  : Box * Transform3d F :=
  (mkBox (vscale (extent bv) 2), Tf (obb_axis bv) (To bv)).

Definition constructBox_OBBRSS_tf (bv : OBBRSS) (tf_bv : Transform3d F)
  : Box * Transform3d F :=
  let tf := Tf (obb_axis (obbrss_obb bv)) (To (obbrss_obb bv)) in
  (mkBox (vscale (extent (obbrss_obb bv)) 2), tf_mul tf_bv tf).

Definition constructBox_kIOS_tf (bv : kIOS) (tf_bv : Transform3d F)
  : Box * Transform3d F :=
  let tf := Tf (obb_axis (kios_obb bv)) (To (kios_obb bv)) in
  (mkBox (vscale (extent (kios_obb bv)) 2), tf_mul tf_bv tf).

Definition constructBox_RSS_tf (bv : RSS) (tf_bv : Transform3d F)
  : Box * Transform3d F :=
  let tf := Tf (rss_axis bv) (Tr bv) in
  (mkBox (Vec3 (RSS_width bv) (RSS_height bv) (RSS_depth bv)), tf_mul tf_bv tf).

Definition constructBox_KDOP_tf (D : nat) (bv : KDOP) (tf_bv : Transform3d F)
  : Box * Transform3d F :=
  (mkBox (Vec3 (KDOP_width D bv) (KDOP_height D bv) (KDOP_depth D bv)),
   tf_mul_translation tf_bv (KDOP_center D bv)).

End Shapes.

Arguments Box F : clear implicits.
Arguments Sphere F : clear implicits.
Arguments Ellipsoid F : clear implicits.
Arguments Capsule F : clear implicits.
Arguments Cone F : clear implicits.
Arguments Cylinder F : clear implicits.
Arguments Convex F : clear implicits.
Arguments TriangleP F : clear implicits.
Arguments Halfspace F : clear implicits.
Arguments Plane F : clear implicits.
Arguments AABB F : clear implicits.
Arguments OBB F : clear implicits.
Arguments RSS F : clear implicits.
Arguments OBBRSS F : clear implicits.
Arguments kIOS_Sphere F : clear implicits.
Arguments kIOS F : clear implicits.
Arguments KDOP F : clear implicits.

(** The shape catalogue, and [computeBV<AABB, S>] over it. *)
Inductive Shape (F : Type) : Type :=
| SBox (s : Box F)
| SSphere (s : Sphere F)
| SEllipsoid (s : Ellipsoid F)
| SCapsule (s : Capsule F)
| SCone (s : Cone F)
| SCylinder (s : Cylinder F)
| SConvex (s : Convex F)
| STriangleP (s : TriangleP F)
| SHalfspace (s : Halfspace F)
| SPlane (s : Plane F).

Definition computeBV_AABB {F : Type} `{Scalar F} (s : Shape F) (tf : Transform3d F)
  : AABB F :=
  match s with
  | SBox s => computeBV_AABB_Box s tf
  | SSphere s => computeBV_AABB_Sphere s tf
  | SEllipsoid s => computeBV_AABB_Ellipsoid s tf
  | SCapsule s => computeBV_AABB_Capsule s tf
  | SCone s => computeBV_AABB_Cone s tf
  | SCylinder s => computeBV_AABB_Cylinder s tf
  | SConvex s => computeBV_AABB_Convex s tf
  | STriangleP s => computeBV_AABB_TriangleP s tf
  | SHalfspace s => computeBV_AABB_Halfspace s tf
  | SPlane s => computeBV_AABB_Plane s tf
  end.

(** ** The vocabulary of the statements *)

Local Open Scope R_scope.

(** A transform is rigid when its linear part [R] is orthonormal,
    [R^T R = I]. *)
Definition orthonormal (m : Matrix3d R) : Prop :=
  mat_mul (transpose m) m = Identity.
Definition rigid (tf : Transform3d R) : Prop := orthonormal (linear tf).

(** Membership in the sets a half-space and a plane stand for. *)
Definition in_Halfspace (s : Halfspace R) (x : Vector3d R) : Prop :=
  dot (hs_n s) x <= hs_d s.

Definition on_Plane (s : Plane R) (x : Vector3d R) : Prop :=
  dot (pl_n s) x = pl_d s.

(** The rotation by 90 degrees about the z axis. *)
Definition rot_z_90 : Matrix3d R :=
  Mat3 (Vec3 0 (-1) 0) (Vec3 1 0 0) (Vec3 0 0 1).

(** The extent of an AABB along axis [i], and half of it. *)
Definition AABB_extent (bv : AABB R) (i : nat) : R :=
  (max_ bv).[i]%fcl - (min_ bv).[i]%fcl.
Definition AABB_half_range (bv : AABB R) (i : nat) : R := AABB_extent bv i / 2.

(** The componentwise order, and the invariant of AABB. *)
Definition vle (a b : Vector3d R) : Prop :=
  vx a <= vx b /\ vy a <= vy b /\ vz a <= vz b.
Definition AABB_ok (bv : AABB R) : Prop := vle (min_ bv) (max_ bv).

(** What the data model asks of the shapes, as far as the invariant needs
    it: radii are not negative and a convex polytope has a point. *)
Definition wellformed (s : Shape R) : Prop :=
  match s with
  | SSphere s => 0 <= sphere_radius s
  | SCapsule s => 0 <= capsule_radius s
  | SConvex s => points s <> []
  | _ => True
  end.

(** A normal along a coordinate axis: one component is not zero and the
    other two are. *)
Definition axis_aligned (n : Vector3d R) : Prop :=
  (vx n <> 0 /\ vy n = 0 /\ vz n = 0)
  \/ (vx n = 0 /\ vy n <> 0 /\ vz n = 0)
  \/ (vx n = 0 /\ vy n = 0 /\ vz n <> 0).

(** Slot [i] of a KDOP<2 D> is unbounded when it still holds what the two
    opening loops of [computeBV] wrote: [-max] below [D], [max] from [D] on
    (the spec's -infinity and +infinity). *)
Definition KDOP_slot_unbounded {F : Type} `{Scalar F} (D : nat) (bv : KDOP F) (i : nat)
  : Prop :=
  dist bv i = dist (KDOP_unbounded D) i.

(** An OBB is degenerate along [n] when one of its axes is [n] and carries
    extent zero while the other two carry the unbounded extent. *)
Definition OBB_degenerate_along {F : Type} `{Scalar F} (bv : OBB F) (n : Vector3d F)
  : Prop :=
  exists i, (i < 3)%nat
            /\ mcol (obb_axis bv) i = n
            /\ (extent bv).[i]%fcl = 0%fcl
            /\ forall j, (j < 3)%nat -> j <> i -> (extent bv).[j]%fcl = real_max.

(** A KDOP<2 D> is tightened in one direction when all its slots outside the
    pair [j], [D + j] of some direction [j] are unbounded. *)
Definition KDOP_one_direction {F : Type} `{Scalar F} (D : nat) (bv : KDOP F) : Prop :=
  exists j, (j < D)%nat
            /\ forall i, (i < 2 * D)%nat -> i <> j -> i <> (D + j)%nat ->
                         KDOP_slot_unbounded D bv i.

(** The spec's "axis-aligned min/max taken directly over [sampleVertices]'s
    output": the least box that holds the points of a list. *)
Definition AABB_of_points {F : Type} `{Scalar F} (l : list (Vector3d F)) : AABB F :=
  match l with
  | [] => AABB_default
  | p :: t => fold_left AABB_add t (mkAABB p p)
  end.

(** Two boxes agree within [tol] when their six bounds do. *)
Definition AABB_within (tol : R) (a b : AABB R) : Prop :=
  forall i, (i < 3)%nat ->
            Rabs ((min_ a).[i]%fcl - (min_ b).[i]%fcl) <= tol
            /\ Rabs ((max_ a).[i]%fcl - (max_ b).[i]%fcl) <= tol.

(** The box about [T] that reaches [k] to each side. *)
Definition AABB_about (T k : Vector3d R) : AABB R := mkAABB (vsub T k) (vadd T k).

(** Box [a] lies inside box [b]. *)
Definition AABB_inside (a b : AABB R) : Prop :=
  vle (min_ b) (min_ a) /\ vle (max_ a) (max_ b).

(** Point [p] lies in box [bv]. *)
Definition AABB_holds (bv : AABB R) (p : Vector3d R) : Prop :=
  vle (min_ bv) p /\ vle p (max_ bv).

(** The two coordinates [a] and [b] of the icosahedron that
    [getBoundVertices] puts around a sphere of radius [radius]. *)
Definition icosa_a (radius : R) : R := radius * 6 / (sqrt 27 + sqrt 15).
Definition icosa_b (radius : R) : R := (1 + sqrt 5) / 2 * icosa_a radius.

(** The vertices sampled for a sphere, before the transform is applied. *)
Definition icosa_vertices (radius : R) : list (Vector3d R) :=
  let a := icosa_a radius in
  let b := icosa_b radius in
  [ Vec3 0 a b; Vec3 0 (- a) b; Vec3 0 a (- b); Vec3 0 (- a) (- b);
    Vec3 a b 0; Vec3 (- a) b 0; Vec3 a (- b) 0; Vec3 (- a) (- b) 0;
    Vec3 b 0 a; Vec3 b 0 (- a); Vec3 (- b) 0 a; Vec3 (- b) 0 (- a) ].

(** At most one slot of the unbounded KDOP<2 D> was overwritten. *)
Definition KDOP_at_most_one_slot {F : Type} `{Scalar F} (D : nat) (bv : KDOP F) : Prop :=
  bv = KDOP_unbounded D
  \/ exists i v, (i < 2 * D)%nat /\ bv = set_dist (KDOP_unbounded D) i v.

(** The two slots [j] and [D + j] of at most one direction [j] were
    overwritten, with one value. *)
Definition KDOP_at_most_one_pair {F : Type} `{Scalar F} (D : nat) (bv : KDOP F) : Prop :=
  bv = KDOP_unbounded D
  \/ exists j v, (j < D)%nat /\ bv = set_dist2 (KDOP_unbounded D) j (D + j) v.

(** The point sets the bounded shapes stand for, in the frame of the shape,
    as the source reads their fields: the corners that [getBoundVertices]
    samples for a box are at [+- side / 2]; a sphere sits at the origin; the
    radii of an ellipsoid are its semi-axes along x, y and z; a capsule is
    the segment from [(0, 0, - lz / 2)] to [(0, 0, lz / 2)] thickened by the
    radius (its OBB reaches [lz / 2 + radius] along z); a cone has its base
    disc at [z = - lz / 2] and its apex at [(0, 0, lz / 2)], where
    [getBoundVertices] puts the hexagon and the seventh vertex; a cylinder
    runs from [z = - lz / 2] to [z = lz / 2]. *)
Definition in_Box (s : Box R) (p : Vector3d R) : Prop :=
  Rabs (vx p) <= vx (side s) / 2
  /\ Rabs (vy p) <= vy (side s) / 2
  /\ Rabs (vz p) <= vz (side s) / 2.

Definition in_Sphere (s : Sphere R) (p : Vector3d R) : Prop :=
  dot p p <= sphere_radius s * sphere_radius s.

(** The image of the unit ball under the scaling by the radii. *)
Definition in_Ellipsoid (s : Ellipsoid R) (p : Vector3d R) : Prop :=
  exists q, dot q q <= 1
            /\ p = Vec3 (vx (radii s) * vx q) (vy (radii s) * vy q)
                        (vz (radii s) * vz q).

(** A point [(0, 0, t)] of the segment plus a vector [q] of the ball. *)
Definition in_Capsule (s : Capsule R) (p : Vector3d R) : Prop :=
  exists t q, Rabs t <= capsule_lz s / 2
              /\ dot q q <= capsule_radius s * capsule_radius s
              /\ p = vadd (Vec3 0 0 t) q.

(** At the fraction [k] of the way from the apex to the base, a point
    [(x, y)] of the unit disc scaled by [k * radius]. *)
Definition in_Cone (s : Cone R) (p : Vector3d R) : Prop :=
  exists k x y, 0 <= k <= 1 /\ x * x + y * y <= 1
                /\ p = Vec3 (k * cone_radius s * x) (k * cone_radius s * y)
                            (cone_lz s / 2 - k * cone_lz s).

Definition in_Cylinder (s : Cylinder R) (p : Vector3d R) : Prop :=
  vx p * vx p + vy p * vy p <= cylinder_radius s * cylinder_radius s
  /\ Rabs (vz p) <= cylinder_lz s / 2.

(** The convex hull of a list of points: the points, and with two points of
    the hull every point between them. *)
Inductive hull (l : list (Vector3d R)) : Vector3d R -> Prop :=
| hull_point (p : Vector3d R) : In p l -> hull l p
| hull_mix (p q : Vector3d R) (t : R) :
    hull l p -> hull l q -> 0 <= t <= 1 ->
    hull l (vadd (vscale p (1 - t)) (vscale q t)).

Definition in_Convex (s : Convex R) (p : Vector3d R) : Prop := hull (points s) p.
Definition in_TriangleP (s : TriangleP R) (p : Vector3d R) : Prop :=
  hull [tri_a s; tri_b s; tri_c s] p.

(** A point whose coordinates are values of [FCL_REAL]. *)
Definition representable (x : Vector3d R) : Prop :=
  Rabs (vx x) <= Rreal_max /\ Rabs (vy x) <= Rreal_max /\ Rabs (vz x) <= Rreal_max.

(** Point [q] lies in the oriented box [bv]: its offset from the centre
    [To], taken along each axis (a column of [axis]), is within the extent
    of that axis. *)
Definition OBB_holds (bv : OBB R) (q : Vector3d R) : Prop :=
  forall i, (i < 3)%nat ->
            Rabs (dot (mcol (obb_axis bv) i) (vsub q (To bv))) <= (extent bv).[i]%fcl.

(** Along every direction [u] some vertex of [vs] reaches at least as far as
    [q]: no plane separates [q] from the vertices. *)
Definition bounded_by (vs : list (Vector3d R)) (q : Vector3d R) : Prop :=
  forall u : Vector3d R, exists v, In v vs /\ dot u q <= dot u v.

Definition Box_volume (s : Box R) : R := vx (side s) * vy (side s) * vz (side s).

(** A fit along the points: the box around (0, 1, 0) and (0, -1, 0) with its
    first axis along y. *)
Definition fit_along_y (pts : list (Vector3d R)) (bv : OBB R) : OBB R :=
  mkOBB rot_z_90 (Vec3 0 0 0) (Vec3 1 0 0).

(** For the runs on binary64: the identity transform, and [1 / sqrt 2], the
    two non-zero components of a unit normal along a diagonal. *)
Definition id64 : Transform3d PrimFloat.float := tf_identity.
Definition c64 : PrimFloat.float := (1 / ssqrt 2)%fcl.

(** ** The instance over the reals *)

Lemma Reqb_true (x y : R) : Reqb x y = true <-> x = y.
Proof. unfold Reqb; destruct (Req_dec_T x y); split; congruence. Qed.

Lemma Reqb_false (x y : R) : Reqb x y = false <-> x <> y.
Proof. unfold Reqb; destruct (Req_dec_T x y); split; congruence. Qed.

Lemma Rltb_true (x y : R) : Rltb x y = true <-> x < y.
Proof. unfold Rltb; destruct (Rlt_dec x y); split; congruence. Qed.

Lemma Rltb_false (x y : R) : Rltb x y = false <-> y <= x.
Proof. unfold Rltb; destruct (Rlt_dec x y); split; try congruence; lra. Qed.

Lemma Rleb_true (x y : R) : Rleb x y = true <-> x <= y.
Proof. unfold Rleb; destruct (Rle_dec x y); split; congruence. Qed.

Lemma Rleb_false (x y : R) : Rleb x y = false <-> y < x.
Proof. unfold Rleb; destruct (Rle_dec x y); split; try congruence; lra. Qed.

Lemma Rreal_max_large : 1000 <= Rreal_max.
Proof. unfold Rreal_max; apply IZR_le; discriminate. Qed.

Lemma Rreal_max_pos : 0 < Rreal_max.
Proof. pose proof Rreal_max_large; lra. Qed.

(** Unfolds the operations of [Scalar_R] to those of [R]. *)
Ltac scalarR :=
  cbv [lit half sadd ssub smul sdiv sopp fabs ssqrt seqb sltb sleb real_max
       Scalar_R] in *.

(** Case analysis on a comparison of reals met in the goal. *)
Ltac cmpR :=
  match goal with
  | |- context [Reqb ?x ?y] =>
      let E := fresh "E" in
      destruct (Reqb x y) eqn:E;
      [apply Reqb_true in E | apply Reqb_false in E]
  | |- context [Rltb ?x ?y] =>
      let E := fresh "E" in
      destruct (Rltb x y) eqn:E;
      [apply Rltb_true in E | apply Rltb_false in E]
  | |- context [Rleb ?x ?y] =>
      let E := fresh "E" in
      destruct (Rleb x y) eqn:E;
      [apply Rleb_true in E | apply Rleb_false in E]
  end.

Lemma smin_R (a b : R) : smin a b = Rmin a b.
Proof.
  unfold smin; scalarR; cmpR; unfold Rmin; destruct (Rle_dec a b); lra.
Qed.

Lemma smax_R (a b : R) : smax a b = Rmax a b.
Proof.
  unfold smax; scalarR; cmpR; unfold Rmax; destruct (Rle_dec a b); lra.
Qed.

Lemma orthonormal_Identity : orthonormal Identity.
Proof.
  unfold orthonormal, mat_mul, transpose, Identity, mcol, mcoeff, dot; simpl.
  scalarR. repeat f_equal; lra.
Qed.

Lemma orthonormal_rot_z_90 : orthonormal rot_z_90.
Proof.
  unfold orthonormal, mat_mul, transpose, Identity, rot_z_90, mcol, mcoeff, dot;
    simpl.
  scalarR. repeat f_equal; lra.
Qed.

(** An orthonormal matrix preserves dot products. *)
Lemma orthonormal_dot (m : Matrix3d R) (u v : Vector3d R) :
  orthonormal m -> dot (mat_vec m u) (mat_vec m v) = dot u v.
Proof.
  destruct m as [[a00 a01 a02] [a10 a11 a12] [a20 a21 a22]].
  destruct u as [u0 u1 u2], v as [w0 w1 w2].
  unfold orthonormal, mat_mul, transpose, Identity, mcol, mcoeff, mat_vec, dot;
    simpl.
  scalarR. intros Hm.
  injection Hm as H00 H01 H02 H10 H11 H12 H20 H21 H22.
  replace ((a00 * u0 + a01 * u1 + a02 * u2) * (a00 * w0 + a01 * w1 + a02 * w2)
           + (a10 * u0 + a11 * u1 + a12 * u2) * (a10 * w0 + a11 * w1 + a12 * w2)
           + (a20 * u0 + a21 * u1 + a22 * u2) * (a20 * w0 + a21 * w1 + a22 * w2))
    with (u0 * w0 * (a00 * a00 + a10 * a10 + a20 * a20)
          + u0 * w1 * (a00 * a01 + a10 * a11 + a20 * a21)
          + u0 * w2 * (a00 * a02 + a10 * a12 + a20 * a22)
          + u1 * w0 * (a01 * a00 + a11 * a10 + a21 * a20)
          + u1 * w1 * (a01 * a01 + a11 * a11 + a21 * a21)
          + u1 * w2 * (a01 * a02 + a11 * a12 + a21 * a22)
          + u2 * w0 * (a02 * a00 + a12 * a10 + a22 * a20)
          + u2 * w1 * (a02 * a01 + a12 * a11 + a22 * a21)
          + u2 * w2 * (a02 * a02 + a12 * a12 + a22 * a22)) by ring.
  rewrite H00, H01, H02, H10, H11, H12, H20, H21, H22. ring.
Qed.

Lemma dot_vadd_r (u v w : Vector3d R) : dot u (vadd v w) = dot u v + dot u w.
Proof. destruct u, v, w; unfold dot, vadd; simpl; scalarR; ring. Qed.

(** ** The implicit-surface transform *)

(** C6: [transform] returns the half-space (plane) with normal [n' = R n] and
    offset [d' = d + n' . T], and under a rigid transform a point [x] lies in
    the half-space (on the plane) exactly when its image [R x + T] lies in the
    transformed one. *)
Theorem transform_preserves_membership
  (tf : Transform3d R) (Hrigid : rigid tf) :
  (forall a : Halfspace R,
      let n' := mat_vec (linear tf) (hs_n a) in
      transform_Halfspace a tf = mkHalfspace n' (hs_d a + dot n' (translation tf))
      /\ forall x, in_Halfspace a x
                   <-> in_Halfspace (transform_Halfspace a tf) (tf_apply tf x))
  /\ (forall a : Plane R,
      let n' := mat_vec (linear tf) (pl_n a) in
      transform_Plane a tf = mkPlane n' (pl_d a + dot n' (translation tf))
      /\ forall x, on_Plane a x
                   <-> on_Plane (transform_Plane a tf) (tf_apply tf x)).
Proof.
  split; intros a n'; (split; [reflexivity | intros x]).
  - unfold in_Halfspace, transform_Halfspace, tf_apply; cbn [hs_n hs_d].
    rewrite dot_vadd_r, (orthonormal_dot _ _ Hrigid). scalarR. lra.
  - unfold on_Plane, transform_Plane, tf_apply; cbn [pl_n pl_d].
    rewrite dot_vadd_r, (orthonormal_dot _ _ Hrigid). scalarR. lra.
Qed.

Lemma transform_preserves_membership_witness :
  let tf := Tf rot_z_90 (Vec3 1 2 3) in
  let a := mkHalfspace (Vec3 1 0 0) 5 in
  rigid tf
  /\ (in_Halfspace a (Vec3 4 7 9)
      <-> in_Halfspace (transform_Halfspace a tf) (tf_apply tf (Vec3 4 7 9))).
Proof.
  split.
  - exact orthonormal_rot_z_90.
  - exact (proj2 (proj1 (transform_preserves_membership
                           (tf := Tf rot_z_90 (Vec3 1 2 3)) orthonormal_rot_z_90)
                        (mkHalfspace (Vec3 1 0 0) 5)) (Vec3 4 7 9)).
Defined.

(** ** Axis-aligned boxes of the bounded shapes *)

Lemma Rabs_mult_nonneg (a s : R) : 0 <= s -> Rabs (a * s) = Rabs a * s.
Proof. intros Hs; rewrite Rabs_mult, (Rabs_pos_eq s Hs); reflexivity. Qed.

(** C7: the AABB of a box is centred at the translation [T], and its
    half-range along world axis [i] is the sum over the local axes [j] of
    [|R(i, j)|] times the half-extent [s_j / 2]. *)
Theorem computeBV_AABB_Box_half_range
  (s : Box R) (tf : Transform3d R)
  (Hside : 0 <= (side s).[0]%fcl /\ 0 <= (side s).[1]%fcl /\ 0 <= (side s).[2]%fcl) :
  let bv := computeBV_AABB_Box s tf in
  let Rm := linear tf in
  AABB_center bv = translation tf
  /\ forall i, (i < 3)%nat ->
       AABB_half_range bv i
       = Rabs (Rm.[i, 0]%fcl) * ((side s).[0]%fcl / 2)
         + Rabs (Rm.[i, 1]%fcl) * ((side s).[1]%fcl / 2)
         + Rabs (Rm.[i, 2]%fcl) * ((side s).[2]%fcl / 2).
Proof.
  destruct Hside as (H0 & H1 & H2).
  destruct s as [[s0 s1 s2]].
  destruct tf as [[[a00 a01 a02] [a10 a11 a12] [a20 a21 a22]] [t0 t1 t2]].
  cbn in H0, H1, H2 |- *. scalarR. split.
  - unfold AABB_center, computeBV_AABB_Box, vscale, vadd, vsub; cbn. scalarR.
    f_equal; lra.
  - intros i Hi.
    unfold AABB_half_range, AABB_extent, computeBV_AABB_Box, vadd, vsub.
    destruct i as [|[|[|i]]]; [| | | lia]; cbn; scalarR;
      rewrite !Rabs_mult_nonneg by assumption; lra.
Qed.

Lemma computeBV_AABB_Box_half_range_witness :
  let s := mkBox (Vec3 2 4 6) in
  let tf := Tf rot_z_90 (Vec3 1 2 3) in
  AABB_center (computeBV_AABB_Box s tf) = Vec3 1 2 3
  /\ AABB_half_range (computeBV_AABB_Box s tf) 0
     = Rabs 0 * (2 / 2) + Rabs (-1) * (4 / 2) + Rabs 0 * (6 / 2).
Proof.
  assert (Hside : 0 <= 2 /\ 0 <= 4 /\ 0 <= 6) by lra.
  split.
  - exact (proj1 (computeBV_AABB_Box_half_range (mkBox (Vec3 2 4 6))
                    (Tf rot_z_90 (Vec3 1 2 3)) Hside)).
  - exact (proj2 (computeBV_AABB_Box_half_range (mkBox (Vec3 2 4 6))
                    (Tf rot_z_90 (Vec3 1 2 3)) Hside) 0%nat (Nat.lt_0_succ 2)).
Defined.

(** C8: turning a box by 90 degrees about the world z axis swaps the x and y
    extents of its AABB and keeps the z extent, whatever its placement [tf]
    was (in particular from the axis-aligned placement); and the OBB of a box
    has the half side lengths as extents under every transform, which only
    sets its axes and centre. *)
Theorem computeBV_Box_rotation (s : Box R) (tf : Transform3d R) :
  (let tf' := tf_mul (Tf rot_z_90 (Constant 0)) tf in
   AABB_extent (computeBV_AABB_Box s tf') 0 = AABB_extent (computeBV_AABB_Box s tf) 1
   /\ AABB_extent (computeBV_AABB_Box s tf') 1 = AABB_extent (computeBV_AABB_Box s tf) 0
   /\ AABB_extent (computeBV_AABB_Box s tf') 2 = AABB_extent (computeBV_AABB_Box s tf) 2)
  /\ (let T := translation tf in
      AABB_extent (computeBV_AABB_Box s (Tf rot_z_90 T)) 0
      = AABB_extent (computeBV_AABB_Box s (Tf Identity T)) 1
      /\ AABB_extent (computeBV_AABB_Box s (Tf rot_z_90 T)) 1
         = AABB_extent (computeBV_AABB_Box s (Tf Identity T)) 0
      /\ AABB_extent (computeBV_AABB_Box s (Tf rot_z_90 T)) 2
         = AABB_extent (computeBV_AABB_Box s (Tf Identity T)) 2)
  /\ extent (computeBV_OBB_Box s tf) = vscale (side s) half
  /\ extent (computeBV_OBB_Box s tf) = extent (computeBV_OBB_Box s tf_identity)
  /\ obb_axis (computeBV_OBB_Box s tf) = linear tf
  /\ To (computeBV_OBB_Box s tf) = translation tf.
Proof.
  destruct s as [[s0 s1 s2]].
  destruct tf as [[[a00 a01 a02] [a10 a11 a12] [a20 a21 a22]] [t0 t1 t2]].
  split; [| split; [| repeat split]].
  - unfold AABB_extent, computeBV_AABB_Box, tf_mul, mat_mul, mat_vec, rot_z_90,
      dot, mcol, mcoeff, vadd, vsub, Constant; cbn; scalarR.
    replace (0 * a00 + -1 * a10 + 0 * a20) with (- a10) by ring.
    replace (0 * a01 + -1 * a11 + 0 * a21) with (- a11) by ring.
    replace (0 * a02 + -1 * a12 + 0 * a22) with (- a12) by ring.
    replace (1 * a00 + 0 * a10 + 0 * a20) with a00 by ring.
    replace (1 * a01 + 0 * a11 + 0 * a21) with a01 by ring.
    replace (1 * a02 + 0 * a12 + 0 * a22) with a02 by ring.
    replace (0 * a00 + 0 * a10 + 1 * a20) with a20 by ring.
    replace (0 * a01 + 0 * a11 + 1 * a21) with a21 by ring.
    replace (0 * a02 + 0 * a12 + 1 * a22) with a22 by ring.
    rewrite !Ropp_mult_distr_l_reverse, !Rabs_Ropp. repeat split; lra.
  - unfold AABB_extent, computeBV_AABB_Box, rot_z_90, Identity, mcoeff, vadd,
      vsub; cbn; scalarR.
    replace (-1 * s1) with (- s1) by ring.
    rewrite !Rmult_1_l, !Rabs_Ropp.
    repeat split; lra.
Qed.

(** ** The invariant of AABB: [min_ <= max_] componentwise *)

Lemma AABB_ok_centered (T delta : Vector3d R) :
  vle (Constant 0%fcl) delta -> AABB_ok (mkAABB (vsub T delta) (vadd T delta)).
Proof.
  destruct T, delta; unfold AABB_ok, vle, vsub, vadd, Constant; cbn; scalarR.
  lra.
Qed.

Lemma AABB_add_ok (bv : AABB R) (p : Vector3d R) : AABB_ok (AABB_add bv p).
Proof.
  destruct bv as [[] []], p; unfold AABB_ok, vle, AABB_add, vmin, vmax; cbn.
  rewrite !smin_R, !smax_R.
  repeat split; (eapply Rle_trans; [apply Rmin_r | apply Rmax_r]).
Qed.

Lemma fold_AABB_add_ok (f : Vector3d R -> Vector3d R) (l : list (Vector3d R)) :
  forall bv, AABB_ok bv ->
             AABB_ok (fold_left (fun b p => AABB_add b (f p)) l bv).
Proof.
  induction l as [|p l IH]; intros bv Hbv; cbn; [assumption |].
  apply IH, AABB_add_ok.
Qed.

Lemma AABB_of3_ok (a b c : Vector3d R) : AABB_ok (AABB_of3 a b c).
Proof.
  destruct a, b, c; unfold AABB_ok, vle, AABB_of3, vmin, vmax; cbn.
  rewrite !smin_R, !smax_R.
  repeat split; (eapply Rle_trans; [apply Rmin_r | apply Rmax_r]).
Qed.

(** The AABB of a half-space has [min_ <= max_] exactly when the
    transformed offset is not below [-max], or the transformed normal is not
    along an axis (then no bound is tightened). *)
Lemma computeBV_AABB_Halfspace_ok (s : Halfspace R) (tf : Transform3d R) :
  AABB_ok (computeBV_AABB_Halfspace s tf)
  <-> (axis_aligned (hs_n (transform_Halfspace s tf))
       -> - Rreal_max <= hs_d (transform_Halfspace s tf)).
Proof.
  pose proof Rreal_max_pos as Hmax.
  unfold computeBV_AABB_Halfspace. cbv zeta.
  destruct (transform_Halfspace s tf) as [[n0 n1 n2] d].
  unfold axis_aligned. cbn [hs_n hs_d coeff vx vy vz]. scalarR.
  repeat (cmpR; cbn [andb]);
    unfold AABB_ok, vle, set_min, set_max, set_coeff, Constant;
    cbn [min_ max_ vx vy vz]; scalarR;
    (split; [intros (H0 & H1 & H2) Ha | intros Ha]);
    try lra;
    try (repeat split; try lra;
         assert (- Rreal_max <= d) by (apply Ha; lra); lra).
Qed.

(** C9, as the code has it: for every shape of the catalogue but the
    half-space (radii at least 0, a convex polytope with a point) and every
    transform, the AABB that [computeBV] returns has [min_ <= max_] in each
    coordinate; for a half-space it has exactly when the transformed offset
    [d'] is at least [-max] or the transformed normal is not along an
    axis. *)
Theorem computeBV_AABB_min_le_max
  (s : Shape R) (tf : Transform3d R) (Hwf : wellformed s) :
  match s with
  | SHalfspace h =>
      AABB_ok (computeBV_AABB s tf)
      <-> (axis_aligned (hs_n (transform_Halfspace h tf))
           -> - Rreal_max <= hs_d (transform_Halfspace h tf))
  | _ => AABB_ok (computeBV_AABB s tf)
  end.
Proof.
  pose proof Rreal_max_pos as Hmax.
  destruct s as [s|s|s|s|s|s|s|s|s|s]; cbn [computeBV_AABB wellformed] in *.
  - (* Box *)
    apply AABB_ok_centered. unfold vle, Constant; cbn; scalarR.
    repeat split;
      repeat (apply Rmult_le_pos || apply Rplus_le_le_0_compat
              || apply Rabs_pos); lra.
  - (* Sphere *)
    apply AABB_ok_centered. unfold vle, Constant; cbn; scalarR. lra.
  - (* Ellipsoid *)
    apply AABB_ok_centered. unfold vle, Constant; cbn; scalarR.
    repeat split; repeat (apply Rplus_le_le_0_compat || apply Rabs_pos).
  - (* Capsule *)
    apply AABB_ok_centered. unfold vle, Constant; cbn; scalarR.
    repeat split; apply Rplus_le_le_0_compat; try assumption;
      (apply Rmult_le_pos; [lra | apply Rabs_pos]).
  - (* Cone *)
    apply AABB_ok_centered. unfold vle, Constant; cbn; scalarR.
    repeat split;
      repeat (apply Rplus_le_le_0_compat || apply Rabs_pos);
      (apply Rmult_le_pos; [lra | apply Rabs_pos]).
  - (* Cylinder *)
    apply AABB_ok_centered. unfold vle, Constant; cbn; scalarR.
    repeat split;
      repeat (apply Rplus_le_le_0_compat || apply Rabs_pos);
      (apply Rmult_le_pos; [lra | apply Rabs_pos]).
  - (* Convex *)
    unfold computeBV_AABB_Convex. destruct s as [[|p l]]; cbn in *.
    + congruence.
    + apply (fold_AABB_add_ok
               (fun p => vadd (mat_vec (linear tf) p) (translation tf))).
      apply AABB_add_ok.
  - (* TriangleP *)
    apply AABB_of3_ok.
  - (* Halfspace *)
    apply computeBV_AABB_Halfspace_ok.
  - (* Plane *)
    unfold computeBV_AABB_Plane.
    set (n := pl_n (transform_Plane s tf)).
    set (d := pl_d (transform_Plane s tf)) in *. clearbody n d.
    destruct n as [n0 n1 n2]; cbn [coeff vx vy vz]; scalarR.
    repeat (cmpR; cbn [andb]);
      unfold AABB_ok, vle, set_min, set_max, set_coeff, Constant; cbn;
      scalarR; lra.
Qed.

Lemma computeBV_AABB_min_le_max_witness :
  let s := SCapsule (mkCapsule 1 4) in
  let tf := Tf rot_z_90 (Vec3 1 2 3) in
  wellformed s /\ AABB_ok (computeBV_AABB s tf).
Proof.
  assert (Hwf : wellformed (SCapsule (mkCapsule 1 4))) by (cbn; lra).
  split; [exact Hwf |].
  exact (computeBV_AABB_min_le_max (SCapsule (mkCapsule 1 4))
           (Tf rot_z_90 (Vec3 1 2 3)) Hwf).
Defined.

(** The invariant fails for a half-space all of whose inputs are values of
    [FCL_REAL]: with the normal (1, 0, 0), the offset [-0.9 max] and the
    translation [(-0.9 max, 0, 0)] the transformed offset is [-1.8 max],
    below the sentinel [-max] that [min_.x] keeps. *)
Lemma computeBV_AABB_Halfspace_min_above_max :
  let d := - (9 / 10 * Rreal_max) in
  let h := mkHalfspace (Vec3 1 0 0) d in
  let tf := Tf Identity (Vec3 d 0 0) in
  rigid tf /\ dot (hs_n h) (hs_n h) = 1
  /\ Rabs (hs_d h) <= Rreal_max /\ representable (translation tf)
  /\ wellformed (SHalfspace h)
  /\ ~ AABB_ok (computeBV_AABB (SHalfspace h) tf).
Proof.
  cbv zeta. pose proof Rreal_max_pos as Hmax.
  split; [exact orthonormal_Identity |].
  split; [unfold dot; cbn; scalarR; lra |].
  split; [cbn [hs_d]; unfold Rabs; destruct (Rcase_abs _); lra |].
  split; [unfold representable; cbn; repeat split;
          unfold Rabs; destruct (Rcase_abs _); lra |].
  split; [exact I |].
  cbn [computeBV_AABB]. rewrite computeBV_AABB_Halfspace_ok.
  intros H.
  assert (Ha : axis_aligned
                 (hs_n (transform_Halfspace
                          (mkHalfspace (Vec3 1 0 0) (- (9 / 10 * Rreal_max)))
                          (Tf Identity (Vec3 (- (9 / 10 * Rreal_max)) 0 0))))).
  { left. unfold transform_Halfspace, Identity, mat_vec, dot; cbn; scalarR.
    repeat split; lra. }
  specialize (H Ha). revert H.
  unfold transform_Halfspace, Identity, mat_vec, dot; cbn; scalarR. lra.
Qed.

(** ** Half-spaces and planes: the unbounded bounds *)

Lemma Reqb_refl (x : R) : Reqb x x = true.
Proof. apply Reqb_true; reflexivity. Qed.

Lemma transform_Halfspace_identity (n : Vector3d R) (d : R) :
  transform_Halfspace (mkHalfspace n d) tf_identity = mkHalfspace n d.
Proof.
  destruct n as [n0 n1 n2].
  unfold transform_Halfspace, tf_identity, Identity, Constant, mat_vec, dot;
    cbn; scalarR.
  f_equal; [f_equal |]; ring.
Qed.

Lemma transform_Plane_identity (n : Vector3d R) (d : R) :
  transform_Plane (mkPlane n d) tf_identity = mkPlane n d.
Proof.
  destruct n as [n0 n1 n2].
  unfold transform_Plane, tf_identity, Identity, Constant, mat_vec, dot;
    cbn; scalarR.
  f_equal; [f_equal |]; ring.
Qed.

(** C5, as the code has it: for the half-space with normal (1, 0, 0) and
    offset [d] under the identity transform, the AABB has [max.x = d] and
    its five other bounds at the sentinel, [-max] for the lower and [max]
    for the upper ones, and the KDOP<16> has [d] in slot 8, the upper slot
    of the x direction, and the sentinel in its fifteen other slots.  The
    sentinel is the largest finite value of [FCL_REAL], not an infinity. *)
Theorem computeBV_Halfspace_x_axis (d : R) :
  let s := mkHalfspace (Vec3 1 0 0) d in
  computeBV_AABB_Halfspace s tf_identity
  = mkAABB (Vec3 (- Rreal_max) (- Rreal_max) (- Rreal_max))
           (Vec3 d Rreal_max Rreal_max)
  /\ let bv := computeBV_KDOP16_Halfspace s tf_identity in
     length bv = 16%nat
     /\ dist bv 8 = d
     /\ forall i, (i < 16)%nat -> i <> 8%nat -> KDOP_slot_unbounded 8 bv i.
Proof.
  intros s. unfold s.
  unfold computeBV_AABB_Halfspace, computeBV_KDOP16_Halfspace.
  rewrite transform_Halfspace_identity. cbn [hs_n hs_d coeff vx vy vz].
  scalarR. rewrite Reqb_refl. cbn [andb].
  assert (Hlt : Rltb 1 0 = false) by (apply Rltb_false; lra).
  assert (Hgt : Rltb 0 1 = true) by (apply Rltb_true; lra).
  rewrite Hlt, Hgt. split; [reflexivity |].
  split; [reflexivity |]. split; [reflexivity |].
  intros i Hi Hne. unfold KDOP_slot_unbounded.
  do 16 (destruct i as [|i]; [first [reflexivity | congruence] |]). lia.
Qed.

Lemma generateCoordinateSystem_col0 {F : Type} `{Scalar F} (axis : Matrix3d F) :
  mcol (generateCoordinateSystem axis) 0 = mcol axis 0.
Proof.
  unfold generateCoordinateSystem.
  destruct (sleb _ _); reflexivity.
Qed.

Lemma mcol_set_col_0 {F : Type} `{Scalar F} (m : Matrix3d F) (v : Vector3d F) :
  mcol (set_col m 0 v) 0 = v.
Proof. destruct v; reflexivity. Qed.

(** C3, as the code has it: the OBB of a plane is degenerate along the
    rotated normal [R n], which is its axis 0; the OBB of a half-space is the
    unbounded box about the origin, with the identity for axes and all three
    extents unbounded. *)
Theorem computeBV_OBB_unbounded_shapes {F : Type} `{Scalar F} (tf : Transform3d F) :
  (forall (s : Plane F) (bv : OBB F),
      let n' := mat_vec (linear tf) (pl_n s) in
      mcol (obb_axis (computeBV_OBB_Plane s tf bv)) 0 = n'
      /\ extent (computeBV_OBB_Plane s tf bv) = Vec3 0%fcl real_max real_max
      /\ OBB_degenerate_along (computeBV_OBB_Plane s tf bv) n')
  /\ (forall s : Halfspace F,
      computeBV_OBB_Halfspace s tf
      = mkOBB Identity (Constant 0%fcl) (Constant real_max)).
Proof.
  split; [| reflexivity].
  intros s bv n'.
  assert (Hcol : mcol (obb_axis (computeBV_OBB_Plane s tf bv)) 0 = n').
  { unfold computeBV_OBB_Plane; cbn [obb_axis].
    rewrite generateCoordinateSystem_col0. apply mcol_set_col_0. }
  split; [exact Hcol |]. split; [reflexivity |].
  exists 0%nat. split; [lia |]. split; [exact Hcol |]. split; [reflexivity |].
  intros j Hj Hne. destruct j as [|[|[|j]]]; [congruence | | | lia]; reflexivity.
Qed.

(** The half-space part of C3 fails: no extent of a half-space's OBB is
    zero. *)
Lemma computeBV_OBB_Halfspace_not_degenerate :
  let s := mkHalfspace (Vec3 1 0 0) 0 in
  ~ OBB_degenerate_along (computeBV_OBB_Halfspace s tf_identity)
                         (hs_n (transform_Halfspace s tf_identity)).
Proof.
  intros s (i & Hi & _ & Hzero & _).
  pose proof Rreal_max_pos as Hmax.
  destruct i as [|[|[|i]]]; [| | | lia]; cbn in Hzero; scalarR; lra.
Qed.

(** The completion of a unit vector by the modelled
    [generateCoordinateSystem] is an orthonormal basis, so the axes of a
    plane's OBB are orthonormal when the normal is a unit vector and the
    transform is rigid. *)
Lemma generateCoordinateSystem_orthonormal (axis : Matrix3d R) :
  dot (mcol axis 0) (mcol axis 0) = 1 ->
  orthonormal (generateCoordinateSystem axis).
Proof.
  destruct axis as [[x a01 a02] [y a11 a12] [z a21 a22]].
  intros Hu. cbv [dot mcol mcoeff mrow coeff row0 row1 row2 vx vy vz] in Hu.
  unfold generateCoordinateSystem, orthonormal.
  cbv [mcol mcoeff mrow coeff row0 row1 row2 vx vy vz]. scalarR.
  cmpR.
  - assert (HL : 0 < x * x + z * z).
    { destruct (Rle_lt_dec (x * x + z * z) 0) as [Hle | ]; [exfalso | assumption].
      assert (Hx : x = 0) by nra. assert (Hz : z = 0) by nra.
      rewrite Hx, Hz in *. rewrite Rabs_R0 in E.
      revert E. unfold Rabs. destruct (Rcase_abs y); intros; nra. }
    pose proof (sqrt_sqrt _ (Rlt_le _ _ HL)) as Hs.
    pose proof (sqrt_lt_R0 _ HL) as Hs0.
    set (q := sqrt (x * x + z * z)) in *. clearbody q.
    unfold mat_mul, transpose, Identity, mcol, mcoeff, set_col, dot.
    cbn [mrow coeff row0 row1 row2 vx vy vz]. scalarR.
    assert (Hq : 1 / q * (1 / q) * (x * x + z * z) = 1).
    { rewrite <- Hs. field. lra. }
    set (k := 1 / q) in *. clearbody k.
    f_equal; f_equal; nsatz.
  - assert (HL : 0 < y * y + z * z).
    { assert (Hy : 0 < Rabs y) by (pose proof (Rabs_pos x); lra).
      revert Hy. unfold Rabs. destruct (Rcase_abs y); intros; nra. }
    pose proof (sqrt_sqrt _ (Rlt_le _ _ HL)) as Hs.
    pose proof (sqrt_lt_R0 _ HL) as Hs0.
    set (q := sqrt (y * y + z * z)) in *. clearbody q.
    unfold mat_mul, transpose, Identity, mcol, mcoeff, set_col, dot.
    cbn [mrow coeff row0 row1 row2 vx vy vz]. scalarR.
    assert (Hq : 1 / q * (1 / q) * (y * y + z * z) = 1).
    { rewrite <- Hs. field. lra. }
    set (k := 1 / q) in *. clearbody k.
    f_equal; f_equal; nsatz.
Qed.

Lemma computeBV_OBB_Plane_axes_orthonormal
  (s : Plane R) (tf : Transform3d R) (bv : OBB R) :
  dot (pl_n s) (pl_n s) = 1 -> rigid tf ->
  orthonormal (obb_axis (computeBV_OBB_Plane s tf bv)).
Proof.
  intros Hn Hrigid. unfold computeBV_OBB_Plane; cbn [obb_axis].
  apply generateCoordinateSystem_orthonormal.
  rewrite mcol_set_col_0, (orthonormal_dot _ _ Hrigid). exact Hn.
Qed.

(** ** constructBox *)

(** C10: for an OBBRSS and for a kIOS, [constructBox] returns what it returns
    for the OBB they hold; the RSS of the one and the spheres of the other
    do not enter the result. *)
Theorem constructBox_of_contained_OBB {F : Type} `{Scalar F} :
  (forall bv : OBBRSS F, constructBox_OBBRSS bv = constructBox_OBB (obbrss_obb bv))
  /\ (forall bv : kIOS F, constructBox_kIOS bv = constructBox_OBB (kios_obb bv))
  /\ (forall (obb : OBB F) (rss rss' : RSS F),
         constructBox_OBBRSS (mkOBBRSS obb rss)
         = constructBox_OBBRSS (mkOBBRSS obb rss'))
  /\ (forall (obb : OBB F) (sp sp' : list (kIOS_Sphere F)) (k k' : nat),
         constructBox_kIOS (mkkIOS sp k obb) = constructBox_kIOS (mkkIOS sp' k' obb)).
Proof. repeat split. Qed.

Lemma mat_mul_Identity_r (m : Matrix3d R) : mat_mul m Identity = m.
Proof.
  destruct m as [[a00 a01 a02] [a10 a11 a12] [a20 a21 a22]].
  unfold mat_mul, Identity, mcol, mcoeff, dot; cbn; scalarR.
  repeat f_equal; ring.
Qed.

Lemma tf_mul_translation_spec (a : Transform3d R) (c : Vector3d R) :
  tf_mul_translation a c = tf_mul a (Tf Identity c).
Proof.
  unfold tf_mul_translation, tf_mul; cbn [linear translation].
  rewrite mat_mul_Identity_r; reflexivity.
Qed.

(** C2, as the code has it: with a parent transform [tf_bv], [constructBox]
    returns the box of the one-argument overload and the composition
    [tf_bv * tf] of the parent with the one-argument placement [tf] for AABB,
    KDOP, RSS, OBBRSS and kIOS; for OBB alone it returns the one-argument
    placement, the bound's own axes and centre, and ignores [tf_bv]. *)
Theorem constructBox_parent_transform
  (RSS_width RSS_height RSS_depth : RSS R -> R) (tf_bv : Transform3d R) :
  (forall bv : AABB R,
      constructBox_AABB_tf bv tf_bv
      = (fst (constructBox_AABB bv), tf_mul tf_bv (snd (constructBox_AABB bv))))
  /\ (forall (D : nat) (bv : KDOP R),
      constructBox_KDOP_tf D bv tf_bv
      = (fst (constructBox_KDOP D bv), tf_mul tf_bv (snd (constructBox_KDOP D bv))))
  /\ (forall bv : RSS R,
      constructBox_RSS_tf RSS_width RSS_height RSS_depth bv tf_bv
      = (fst (constructBox_RSS RSS_width RSS_height RSS_depth bv),
         tf_mul tf_bv (snd (constructBox_RSS RSS_width RSS_height RSS_depth bv))))
  /\ (forall bv : OBBRSS R,
      constructBox_OBBRSS_tf bv tf_bv
      = (fst (constructBox_OBBRSS bv), tf_mul tf_bv (snd (constructBox_OBBRSS bv))))
  /\ (forall bv : kIOS R,
      constructBox_kIOS_tf bv tf_bv
      = (fst (constructBox_kIOS bv), tf_mul tf_bv (snd (constructBox_kIOS bv))))
  /\ (forall bv : OBB R,
      constructBox_OBB_tf bv tf_bv = constructBox_OBB bv
      /\ snd (constructBox_OBB_tf bv tf_bv) = Tf (obb_axis bv) (To bv)).
Proof.
  split; [| split; [| split; [| split; [| split]]]].
  - intros bv. unfold constructBox_AABB_tf, constructBox_AABB; cbn [fst snd].
    rewrite tf_mul_translation_spec; reflexivity.
  - intros D bv. unfold constructBox_KDOP_tf, constructBox_KDOP; cbn [fst snd].
    rewrite tf_mul_translation_spec; reflexivity.
  - reflexivity.
  - reflexivity.
  - reflexivity.
  - intros bv; split; reflexivity.
Qed.

(** The transform of an OBBRSS-derived box is not the bound's own centre and
    axes: the parent transform is composed. *)
Lemma constructBox_OBBRSS_tf_composes :
  let obb := mkOBB Identity (Vec3 0 0 0) (Vec3 1 1 1) in
  let rss := mkRSS Identity (Vec3 0 0 0) 1 1 1 in
  let tf_bv := Tf Identity (Vec3 1 0 0) in
  snd (constructBox_OBBRSS_tf (mkOBBRSS obb rss) tf_bv)
  <> Tf (obb_axis obb) (To obb).
Proof.
  cbn. unfold tf_mul, mat_vec, dot, vadd; cbn; scalarR.
  intros Heq. injection Heq as _ Hx _ _. lra.
Qed.

(** ** KDOP bounds of a plane *)

Lemma inv_sqrt2_bounds : 0 < / sqrt 2 < 1.
Proof.
  assert (H1 : 1 < sqrt 2).
  { rewrite <- sqrt_1 at 1. apply sqrt_lt_1; lra. }
  split.
  - apply Rinv_0_lt_compat; lra.
  - rewrite <- Rinv_1. apply Rinv_lt_contravar; lra.
Qed.

(** C1 at the plane [y + z = sqrt 2] (unit normal along the direction
    (0, 1, 1), number 5): computeBV<KDOP<16>, Plane> writes the slots 6 and
    13, the lower slot of direction 6 and the upper slot of direction 5, so
    no single direction holds the change; computeBV<KDOP<18>, Plane> writes
    the slots 5 and 14 of direction 5. *)
Theorem computeBV_KDOP16_Plane_two_directions :
  let s := mkPlane (Vec3 0 (/ sqrt 2) (/ sqrt 2)) 1 in
  let v := / sqrt 2 * 1 * 2 in
  computeBV_KDOP16_Plane s tf_identity
  = set_dist (set_dist (KDOP_unbounded 8) 13 v) 6 v
  /\ ~ KDOP_one_direction 8 (computeBV_KDOP16_Plane s tf_identity)
  /\ computeBV_KDOP18_Plane s tf_identity
     = set_dist (set_dist (KDOP_unbounded 9) 14 v) 5 v
  /\ KDOP_one_direction 9 (computeBV_KDOP18_Plane s tf_identity).
Proof.
  intros s v. unfold s, v. clear s v.
  pose proof inv_sqrt2_bounds as Hc. pose proof Rreal_max_large as Hmax.
  set (c := / sqrt 2) in *. clearbody c.
  assert (E16 : computeBV_KDOP16_Plane (mkPlane (Vec3 0 c c) 1) tf_identity
                = set_dist (set_dist (KDOP_unbounded 8) 13 (c * 1 * 2)) 6 (c * 1 * 2)).
  { unfold computeBV_KDOP16_Plane. rewrite transform_Plane_identity.
    cbn [pl_n pl_d coeff vx vy vz]. scalarR.
    repeat (cmpR; cbn [andb]); try lra. reflexivity. }
  assert (E18 : computeBV_KDOP18_Plane (mkPlane (Vec3 0 c c) 1) tf_identity
                = set_dist (set_dist (KDOP_unbounded 9) 14 (c * 1 * 2)) 5 (c * 1 * 2)).
  { unfold computeBV_KDOP18_Plane. rewrite transform_Plane_identity.
    cbn [pl_n pl_d coeff vx vy vz]. scalarR.
    repeat (cmpR; cbn [andb]); try lra. reflexivity. }
  rewrite E16, E18. split; [reflexivity |]. split; [| split; [reflexivity |]].
  - intros (j & Hj & Hslots).
    assert (H6 : j = 6%nat).
    { destruct (Nat.eq_dec j 6) as [|Hne]; [assumption | exfalso].
      assert (Hu := Hslots 6%nat ltac:(lia) ltac:(lia) ltac:(lia)).
      unfold KDOP_slot_unbounded in Hu; cbn in Hu; scalarR. lra. }
    subst j.
    assert (Hu := Hslots 13%nat ltac:(lia) ltac:(lia) ltac:(lia)).
    unfold KDOP_slot_unbounded in Hu; cbn in Hu; scalarR. lra.
  - exists 5%nat. split; [lia |]. intros i Hi H5 H14.
    unfold KDOP_slot_unbounded.
    do 18 (destruct i as [|i]; [first [reflexivity | lia] |]). lia.
Qed.

(** ** The sampled vertices against the dedicated AABB *)

Lemma AABB_add_holds_new (bv : AABB R) (p : Vector3d R) :
  AABB_holds (AABB_add bv p) p.
Proof.
  destruct bv as [[] []], p; unfold AABB_holds, vle, AABB_add, vmin, vmax; cbn.
  rewrite !smin_R, !smax_R.
  repeat split; first [apply Rmin_r | apply Rmax_r].
Qed.

Lemma AABB_add_holds_old (bv : AABB R) (p q : Vector3d R) :
  AABB_holds bv q -> AABB_holds (AABB_add bv p) q.
Proof.
  destruct bv as [[] []], p, q; unfold AABB_holds, vle, AABB_add, vmin, vmax; cbn.
  rewrite !smin_R, !smax_R. intros [(? & ? & ?) (? & ? & ?)].
  repeat split;
    first [eapply Rle_trans; [apply Rmin_l | eassumption]
          | eapply Rle_trans; [eassumption | apply Rmax_l]].
Qed.

Lemma fold_AABB_add_holds (l : list (Vector3d R)) (q : Vector3d R) :
  forall bv, AABB_holds bv q \/ In q l -> AABB_holds (fold_left AABB_add l bv) q.
Proof.
  induction l as [|p l IH]; intros bv [Hq | Hin]; cbn.
  - assumption.
  - destruct Hin.
  - apply IH; left; apply AABB_add_holds_old; assumption.
  - destruct Hin as [-> | Hin].
    + apply IH; left; apply AABB_add_holds_new.
    + apply IH; right; assumption.
Qed.

Lemma AABB_of_points_holds (l : list (Vector3d R)) (q : Vector3d R) :
  In q l -> AABB_holds (AABB_of_points l) q.
Proof.
  destruct l as [|p l]; [intros [] |]. intros [-> | Hin]; cbn.
  - apply fold_AABB_add_holds; left.
    destruct q; unfold AABB_holds, vle; cbn; lra.
  - apply fold_AABB_add_holds; right; assumption.
Qed.

Lemma sqrt_lower (a x : R) : 0 <= a -> a * a <= x -> a <= sqrt x.
Proof.
  intros Ha Hx. rewrite <- (sqrt_square a Ha). apply sqrt_le_1_alt; assumption.
Qed.

Lemma sqrt_upper (a x : R) : 0 <= a -> x <= a * a -> sqrt x <= a.
Proof.
  intros Ha Hx. rewrite <- (sqrt_square a Ha). apply sqrt_le_1_alt; assumption.
Qed.

Lemma icosa_b_unit_lower : 107 / 100 < icosa_b 1.
Proof.
  unfold icosa_b, icosa_a.
  assert (H5 : 2236 / 1000 <= sqrt 5) by (apply sqrt_lower; lra).
  assert (H27 : sqrt 27 <= 51962 / 10000) by (apply sqrt_upper; lra).
  assert (H15 : sqrt 15 <= 3873 / 1000) by (apply sqrt_upper; lra).
  assert (H27p : 0 < sqrt 27) by (apply sqrt_lt_R0; lra).
  assert (H15p : 0 < sqrt 15) by (apply sqrt_lt_R0; lra).
  set (q := sqrt 27 + sqrt 15) in *.
  assert (Hq : 0 < q <= 90692 / 10000) by (unfold q; lra).
  assert (Hinv : 10000 / 90692 <= / q).
  { replace (10000 / 90692) with (/ (90692 / 10000)) by lra.
    apply Rinv_le_contravar; lra. }
  unfold Rdiv. rewrite Rmult_1_l.
  assert (He : 6 * (10000 / 90692) <= 6 * / q) by lra.
  nra.
Qed.

Lemma getBoundVertices_Sphere_icosa (s : Sphere R) (tf : Transform3d R) :
  getBoundVertices_Sphere s tf
  = map (tf_apply tf) (icosa_vertices (sphere_radius s)).
Proof. reflexivity. Qed.

(** The sphere part of C4 fails: for the unit sphere under the identity
    transform the two boxes differ by more than 7/100 along x. *)
Lemma AABB_Sphere_not_within_tolerance :
  ~ AABB_within (7 / 100)
      (computeBV_AABB_Sphere (mkSphere 1) tf_identity)
      (AABB_of_points (getBoundVertices_Sphere (mkSphere 1) tf_identity)).
Proof.
  intros Hw. destruct (Hw 0%nat (Nat.lt_0_succ 2)) as [_ Hmax].
  pose proof icosa_b_unit_lower as Hb.
  assert (Hin : In (tf_apply tf_identity (Vec3 (icosa_b 1) 0 (icosa_a 1)))
                   (getBoundVertices_Sphere (mkSphere 1) tf_identity)).
  { rewrite getBoundVertices_Sphere_icosa. apply in_map. cbn. tauto. }
  apply AABB_of_points_holds in Hin. destruct Hin as [_ (Hx & _)].
  set (bv := AABB_of_points _) in *. clearbody bv.
  unfold computeBV_AABB_Sphere, tf_identity, tf_apply, Identity, Constant,
    mat_vec, dot, vadd in Hmax, Hx.
  cbn in Hmax, Hx. scalarR.
  revert Hmax. unfold Rabs. destruct (Rcase_abs _); intros; lra.
Qed.

(** *** The box: the eight corners give the dedicated AABB *)

Lemma Rmax_corners (r0 r1 r2 a b c t : R) :
  Rmax (Rmax (Rmax (Rmax (Rmax (Rmax (Rmax
    (r0 * a + r1 * b + r2 * c + t)
    (r0 * a + r1 * b + r2 * - c + t))
    (r0 * a + r1 * - b + r2 * c + t))
    (r0 * a + r1 * - b + r2 * - c + t))
    (r0 * - a + r1 * b + r2 * c + t))
    (r0 * - a + r1 * b + r2 * - c + t))
    (r0 * - a + r1 * - b + r2 * c + t))
    (r0 * - a + r1 * - b + r2 * - c + t)
  = t + (Rabs (r0 * a) + Rabs (r1 * b) + Rabs (r2 * c)).
Proof.
  unfold Rabs.
  destruct (Rcase_abs (r0 * a)), (Rcase_abs (r1 * b)), (Rcase_abs (r2 * c));
    repeat match goal with
           | |- context [Rmax ?x ?y] =>
               lazymatch x with context [Rmax _ _] => fail | _ => idtac end;
               let H := fresh in
               destruct (Rle_dec x y) as [H | H];
               [rewrite (Rmax_right x y H) | rewrite (Rmax_left x y) by lra]
           end; lra.
Qed.

Lemma Rmin_corners (r0 r1 r2 a b c t : R) :
  Rmin (Rmin (Rmin (Rmin (Rmin (Rmin (Rmin
    (r0 * a + r1 * b + r2 * c + t)
    (r0 * a + r1 * b + r2 * - c + t))
    (r0 * a + r1 * - b + r2 * c + t))
    (r0 * a + r1 * - b + r2 * - c + t))
    (r0 * - a + r1 * b + r2 * c + t))
    (r0 * - a + r1 * b + r2 * - c + t))
    (r0 * - a + r1 * - b + r2 * c + t))
    (r0 * - a + r1 * - b + r2 * - c + t)
  = t - (Rabs (r0 * a) + Rabs (r1 * b) + Rabs (r2 * c)).
Proof.
  unfold Rabs.
  destruct (Rcase_abs (r0 * a)), (Rcase_abs (r1 * b)), (Rcase_abs (r2 * c));
    repeat match goal with
           | |- context [Rmin ?x ?y] =>
               lazymatch x with context [Rmin _ _] => fail | _ => idtac end;
               let H := fresh in
               destruct (Rle_dec x y) as [H | H];
               [rewrite (Rmin_left x y H) | rewrite (Rmin_right x y) by lra]
           end; lra.
Qed.

Lemma Rabs_half (x s : R) : Rabs (x * (s / 2)) = / 2 * Rabs (x * s).
Proof.
  replace (x * (s / 2)) with (/ 2 * (x * s)) by lra.
  rewrite Rabs_mult, (Rabs_pos_eq (/ 2)) by lra. reflexivity.
Qed.

Lemma AABB_of_points_Box (s : Box R) (tf : Transform3d R) :
  AABB_of_points (getBoundVertices_Box s tf) = computeBV_AABB_Box s tf.
Proof.
  destruct s as [[s0 s1 s2]].
  destruct tf as [[[a00 a01 a02] [a10 a11 a12] [a20 a21 a22]] [t0 t1 t2]].
  unfold AABB_of_points, getBoundVertices_Box, computeBV_AABB_Box.
  cbv [fold_left AABB_add tf_apply mat_vec dot vadd vsub vmin vmax mcoeff
       mrow coeff min_ max_ side vx vy vz linear translation row0 row1 row2].
  rewrite !smin_R, !smax_R. scalarR.
  rewrite !Rmax_corners, !Rmin_corners, !Rabs_half.
  f_equal; f_equal; lra.
Qed.

(** *** The sphere: the icosahedron of [getBoundVertices] is circumscribed

    In units of [icosa_a], its vertices are the cyclic permutations of
    (0, +-1, +-phi), with [phi] the golden ratio, and its inscribed sphere
    has radius [phi^2 / sqrt 3].  For a direction (X, Y, Z) of the positive
    octant the support of the icosahedron is the largest of the products with
    v1 = (0, 1, phi), v2 = (1, phi, 0) and v3 = (phi, 0, 1). *)

Lemma le_of_sqr_le (a b : R) : 0 < b -> a * a <= b * b -> a <= b.
Proof.
  intros Hb Hab. destruct (Rle_dec a b) as [|Hn]; [assumption | exfalso].
  apply Rnot_le_lt in Hn. nra.
Qed.

(** Cauchy-Schwarz in the plane, for a vector of the unit ball. *)
Lemma cauchy_schwarz_2 (p q x y n2 : R) :
  x * x + y * y <= 1 -> p * p + q * q = n2 ->
  (p * x + q * y) * (p * x + q * y) <= n2.
Proof.
  intros Hxy Hpq.
  pose proof (Rle_0_sqr (p * y - q * x)) as Hsq. unfold Rsqr in Hsq.
  assert (0 <= p * p + q * q) by nra.
  nra.
Qed.

Lemma icosa_core (X Y Z phi s3 : R) :
  0 <= X -> 0 <= Y -> 0 <= Z -> X * X + Y * Y + Z * Z = 1 ->
  0 < phi -> phi * phi = phi + 1 -> 0 < s3 -> s3 * s3 = 3 ->
  phi * phi <= s3 * (Y + phi * Z)
  \/ phi * phi <= s3 * (X + phi * Y)
  \/ phi * phi <= s3 * (phi * X + Z).
Proof.
  intros HX HY HZ Hn Hphi Hphi2 Hs3 Hs32.
  destruct (Rle_dec (phi * phi) (s3 * (Y + phi * Z))) as [|H1]; [tauto |].
  destruct (Rle_dec (phi * phi) (s3 * (X + phi * Y))) as [|H2]; [tauto |].
  destruct (Rle_dec (phi * phi) (s3 * (phi * X + Z))) as [|H3]; [tauto |].
  exfalso.
  apply Rnot_le_lt in H1, H2, H3.
  assert (Hphi1 : 1 < phi) by nra.
  assert (Hq : phi * phi + (phi - 1) * (phi - 1) = 3) by nra.
  (* Cauchy-Schwarz along the four face normals *)
  assert (C0 : X + Y + Z <= s3).
  { apply le_of_sqr_le; [assumption |]. rewrite Hs32.
    pose proof (Rle_0_sqr (X - Y)). pose proof (Rle_0_sqr (Y - Z)).
    pose proof (Rle_0_sqr (X - Z)). unfold Rsqr in *. nra. }
  assert (C1 : phi * X + (phi - 1) * Y <= s3).
  { apply le_of_sqr_le; [assumption |]. rewrite Hs32.
    apply cauchy_schwarz_2; [nra | assumption]. }
  assert (C2 : phi * Z + (phi - 1) * X <= s3).
  { apply le_of_sqr_le; [assumption |]. rewrite Hs32.
    apply cauchy_schwarz_2; [nra | assumption]. }
  assert (C3 : phi * Y + (phi - 1) * Z <= s3).
  { apply le_of_sqr_le; [assumption |]. rewrite Hs32.
    apply cauchy_schwarz_2; [nra | assumption]. }
  set (g1 := phi * phi - s3 * (Y + phi * Z)).
  set (g2 := phi * phi - s3 * (X + phi * Y)).
  set (g3 := phi * phi - s3 * (phi * X + Z)).
  assert (Hg1 : 0 < g1) by (unfold g1; lra).
  assert (Hg2 : 0 < g2) by (unfold g2; lra).
  assert (Hg3 : 0 < g3) by (unfold g3; lra).
  set (m1 := Y - phi * X + phi * phi * Z).
  set (m2 := X - phi * Z + phi * phi * Y).
  set (m3 := Z - phi * Y + phi * phi * X).
  destruct (Rlt_dec m1 0) as [M1 | M1].
  { (* beyond the edge v2 v3: the face v2, v3, (phi, 0, -1) *)
    assert (E : 2 * phi * Y * g2 + (phi * X - Y + phi * phi * Z) * g3
                + (- m1) * (phi * phi - s3 * (phi * X - Z))
                = 2 * (phi * phi) * (phi * X + (phi - 1) * Y)
                  - s3 * (2 * (phi * phi)) * (X * X + Y * Y + Z * Z)).
    { unfold g2, g3, m1. ring. }
    rewrite Hn in E.
    assert (0 <= 2 * phi * Y * g2) by (apply Rmult_le_pos; nra).
    assert (0 <= (phi * X - Y + phi * phi * Z) * g3).
    { apply Rmult_le_pos; [unfold m1 in M1; nra | lra]. }
    assert (0 < (- m1) * (phi * phi - s3 * (phi * X - Z))).
    { apply Rmult_lt_0_compat; [lra | unfold g3 in Hg3; nra]. }
    nra. }
  destruct (Rlt_dec m2 0) as [M2 | M2].
  { (* beyond the edge v3 v1: the face v3, v1, (0, -1, phi) *)
    assert (E : 2 * phi * X * g3 + (phi * Z - X + phi * phi * Y) * g1
                + (- m2) * (phi * phi - s3 * (phi * Z - Y))
                = 2 * (phi * phi) * (phi * Z + (phi - 1) * X)
                  - s3 * (2 * (phi * phi)) * (X * X + Y * Y + Z * Z)).
    { unfold g3, g1, m2. ring. }
    rewrite Hn in E.
    assert (0 <= 2 * phi * X * g3) by (apply Rmult_le_pos; nra).
    assert (0 <= (phi * Z - X + phi * phi * Y) * g1).
    { apply Rmult_le_pos; [unfold m2 in M2; nra | lra]. }
    assert (0 < (- m2) * (phi * phi - s3 * (phi * Z - Y))).
    { apply Rmult_lt_0_compat; [lra | unfold g1 in Hg1; nra]. }
    nra. }
  destruct (Rlt_dec m3 0) as [M3 | M3].
  { (* beyond the edge v1 v2: the face v1, v2, (-1, phi, 0) *)
    assert (E : 2 * phi * Z * g1 + (phi * Y - Z + phi * phi * X) * g2
                + (- m3) * (phi * phi - s3 * (phi * Y - X))
                = 2 * (phi * phi) * (phi * Y + (phi - 1) * Z)
                  - s3 * (2 * (phi * phi)) * (X * X + Y * Y + Z * Z)).
    { unfold g1, g2, m3. ring. }
    rewrite Hn in E.
    assert (0 <= 2 * phi * Z * g1) by (apply Rmult_le_pos; nra).
    assert (0 <= (phi * Y - Z + phi * phi * X) * g2).
    { apply Rmult_le_pos; [unfold m3 in M3; nra | lra]. }
    assert (0 < (- m3) * (phi * phi - s3 * (phi * Y - X))).
    { apply Rmult_lt_0_compat; [lra | unfold g2 in Hg2; nra]. }
    nra. }
  (* inside the cone of the face v1, v2, v3 *)
  apply Rnot_lt_le in M1, M2, M3.
  assert (E : m1 * g1 + m2 * g2 + m3 * g3
              = phi * phi * (1 - phi + phi * phi) * (X + Y + Z)
                - s3 * (1 + phi * phi * phi) * (X * X + Y * Y + Z * Z)).
  { unfold g1, g2, g3, m1, m2, m3. ring. }
  rewrite Hn in E.
  assert (K1 : 1 - phi + phi * phi = 2) by lra.
  assert (K2 : 1 + phi * phi * phi = 2 * (phi * phi)) by nra.
  rewrite K1, K2 in E.
  assert (P1 : 0 <= m1 * g1) by (apply Rmult_le_pos; lra).
  assert (P2 : 0 <= m2 * g2) by (apply Rmult_le_pos; lra).
  assert (P3 : 0 <= m3 * g3) by (apply Rmult_le_pos; lra).
  assert (Hle : phi * phi * 2 * (X + Y + Z) - s3 * (2 * (phi * phi)) * 1 <= 0)
    by nra.
  assert (Z1 : m1 * g1 = 0) by lra.
  assert (Z2 : m2 * g2 = 0) by lra.
  assert (Z3 : m3 * g3 = 0) by lra.
  assert (m1 = 0) by (destruct (Rmult_integral _ _ Z1); lra).
  assert (m2 = 0) by (destruct (Rmult_integral _ _ Z2); lra).
  assert (m3 = 0) by (destruct (Rmult_integral _ _ Z3); lra).
  assert (S : m1 + m2 + m3 = 2 * (X + Y + Z)) by (unfold m1, m2, m3; nra).
  assert (X = 0 /\ Y = 0 /\ Z = 0) as (-> & -> & ->) by lra.
  lra.
Qed.

(** The inscribed sphere: along every unit direction one of the three
    vertex families of the icosahedron reaches at least the radius. *)
Lemma icosa_support (x y z radius : R) :
  x * x + y * y + z * z = 1 -> 0 <= radius ->
  let a := icosa_a radius in
  let b := icosa_b radius in
  radius <= a * Rabs y + b * Rabs z
  \/ radius <= a * Rabs x + b * Rabs y
  \/ radius <= b * Rabs x + a * Rabs z.
Proof.
  intros Hn Hr a b.
  assert (H3 : 0 < sqrt 3) by (apply sqrt_lt_R0; lra).
  assert (H5 : 0 < sqrt 5) by (apply sqrt_lt_R0; lra).
  assert (H33 : sqrt 3 * sqrt 3 = 3) by (apply sqrt_sqrt; lra).
  assert (H55 : sqrt 5 * sqrt 5 = 5) by (apply sqrt_sqrt; lra).
  assert (H27 : sqrt 27 = 3 * sqrt 3) by (apply sqrt_lem_1; nra).
  assert (H15 : sqrt 15 = sqrt 3 * sqrt 5) by (apply sqrt_lem_1; nra).
  set (phi := (1 + sqrt 5) / 2).
  assert (Hphi : 0 < phi) by (unfold phi; lra).
  assert (Hphi2 : phi * phi = phi + 1) by (unfold phi; nra).
  assert (Ha : 0 <= a).
  { unfold a, icosa_a. apply Rmult_le_pos; [lra |].
    apply Rlt_le, Rinv_0_lt_compat. rewrite H27, H15. nra. }
  assert (Hrad : 3 * radius = a * (sqrt 3 * (phi * phi))).
  { unfold a, icosa_a. rewrite H27, H15, Hphi2. unfold phi. field. nra. }
  assert (Hb : b = phi * a) by reflexivity.
  rewrite Hb. clearbody a. clear Hb b.
  pose proof (Rabs_pos x) as HX. pose proof (Rabs_pos y) as HY.
  pose proof (Rabs_pos z) as HZ.
  assert (Hn' : Rabs x * Rabs x + Rabs y * Rabs y + Rabs z * Rabs z = 1).
  { rewrite <- !Rabs_mult, !Rabs_pos_eq by nra. assumption. }
  set (X := Rabs x) in *. set (Y := Rabs y) in *. set (Z := Rabs z) in *.
  clearbody X Y Z.
  destruct (icosa_core HX HY HZ Hn' Hphi Hphi2 H3 H33)
    as [H | [H | H]]; [left | right; left | right; right];
    apply (Rmult_le_compat_l (a * sqrt 3)) in H; try nra;
    match type of H with
    | _ <= a * sqrt 3 * (sqrt 3 * ?L) =>
        replace (a * sqrt 3 * (sqrt 3 * L)) with (a * (sqrt 3 * sqrt 3) * L)
          in H by ring
    end;
    rewrite H33 in H; lra.
Qed.

Lemma orthonormal_unit_rows (m : Matrix3d R) :
  orthonormal m ->
  dot (row0 m) (row0 m) = 1 /\ dot (row1 m) (row1 m) = 1
  /\ dot (row2 m) (row2 m) = 1.
Proof.
  destruct m as [[a00 a01 a02] [a10 a11 a12] [a20 a21 a22]].
  unfold orthonormal, mat_mul, transpose, Identity, mcol, mcoeff, dot; cbn.
  scalarR. intros Hm.
  injection Hm as H00 H01 H02 _ H11 H12 _ _ H22.
  repeat split; nsatz.
Qed.

Ltac pick_vertex v v' :=
  exists v, v';
  split; [cbn; tauto |
  split; [cbn; tauto | unfold dot; cbn [vx vy vz]; scalarR; split; lra]].

(** Along every unit direction [u] some sampled vertex [v] reaches the
    radius, and its opposite [v'] is sampled too. *)
Lemma icosa_vertex_support (u : Vector3d R) (radius : R) :
  dot u u = 1 -> 0 <= radius ->
  exists v v', In v (icosa_vertices radius) /\ In v' (icosa_vertices radius)
               /\ radius <= dot u v /\ dot u v' = - dot u v.
Proof.
  destruct u as [x y z]. unfold dot at 1; cbn [vx vy vz]; scalarR.
  intros Hu Hr.
  pose proof (icosa_support Hu Hr) as Hs. cbv zeta in Hs.
  unfold icosa_vertices.
  set (a := icosa_a radius) in *. set (b := icosa_b radius) in *.
  clearbody a b.
  unfold Rabs in Hs.
  destruct (Rcase_abs x), (Rcase_abs y), (Rcase_abs z);
    destruct Hs as [Hs | [Hs | Hs]];
    first [ pick_vertex (Vec3 0 a b) (Vec3 0 (- a) (- b))
          | pick_vertex (Vec3 0 (- a) b) (Vec3 0 a (- b))
          | pick_vertex (Vec3 0 a (- b)) (Vec3 0 (- a) b)
          | pick_vertex (Vec3 0 (- a) (- b)) (Vec3 0 a b)
          | pick_vertex (Vec3 a b 0) (Vec3 (- a) (- b) 0)
          | pick_vertex (Vec3 (- a) b 0) (Vec3 a (- b) 0)
          | pick_vertex (Vec3 a (- b) 0) (Vec3 (- a) b 0)
          | pick_vertex (Vec3 (- a) (- b) 0) (Vec3 a b 0)
          | pick_vertex (Vec3 b 0 a) (Vec3 (- b) 0 (- a))
          | pick_vertex (Vec3 b 0 (- a)) (Vec3 (- b) 0 a)
          | pick_vertex (Vec3 (- b) 0 a) (Vec3 b 0 (- a))
          | pick_vertex (Vec3 (- b) 0 (- a)) (Vec3 b 0 a) ].
Qed.

Lemma icosa_b_linear (radius : R) : icosa_b radius = radius * icosa_b 1.
Proof.
  unfold icosa_b, icosa_a.
  assert (0 < sqrt 27) by (apply sqrt_lt_R0; lra).
  assert (0 < sqrt 15) by (apply sqrt_lt_R0; lra).
  field. lra.
Qed.

(** ** The shape of the KDOP bounds, for every scalar type *)

Ltac split_branches :=
  repeat match goal with
         | |- context [if ?b then _ else _] => destruct b
         end.

Ltac one_slot :=
  first [ left; reflexivity
        | right; eexists _, _; split; [| reflexivity]; cbn; lia ].

(** X1: the KDOP of a half-space, for KDOP<16>, KDOP<18> and KDOP<24> and
    over every scalar type, is the unbounded one with at most one slot
    overwritten. *)
Theorem computeBV_KDOP_Halfspace_one_slot {F : Type} `{Scalar F}
  (s : Halfspace F) (tf : Transform3d F) :
  KDOP_at_most_one_slot 8 (computeBV_KDOP16_Halfspace s tf)
  /\ KDOP_at_most_one_slot 9 (computeBV_KDOP18_Halfspace s tf)
  /\ KDOP_at_most_one_slot 12 (computeBV_KDOP24_Halfspace s tf).
Proof.
  unfold KDOP_at_most_one_slot, computeBV_KDOP16_Halfspace,
    computeBV_KDOP18_Halfspace, computeBV_KDOP24_Halfspace.
  cbv zeta. repeat split; split_branches; one_slot.
Qed.

(** X2: the KDOP of a plane, for KDOP<18> and KDOP<24> and over every
    scalar type, is the unbounded one with the two slots of at most one
    direction overwritten by one value. *)
Theorem computeBV_KDOP_Plane_one_pair {F : Type} `{Scalar F}
  (s : Plane F) (tf : Transform3d F) :
  KDOP_at_most_one_pair 9 (computeBV_KDOP18_Plane s tf)
  /\ KDOP_at_most_one_pair 12 (computeBV_KDOP24_Plane s tf).
Proof.
  unfold KDOP_at_most_one_pair, computeBV_KDOP18_Plane, computeBV_KDOP24_Plane.
  cbv zeta. repeat split; split_branches; one_slot.
Qed.

(** X3: a write that never happens.  In computeBV<KDOP<N>, Halfspace> the
    branch of direction 4 tests [n[1] > 0] where [n[1] == 0] holds, so the
    upper slot [D + 4] keeps its sentinel whatever the half-space and the
    transform. *)
Lemma computeBV_KDOP_Halfspace_upper_slot_4 (s : Halfspace R) (tf : Transform3d R) :
  KDOP_slot_unbounded 8 (computeBV_KDOP16_Halfspace s tf) 12
  /\ KDOP_slot_unbounded 9 (computeBV_KDOP18_Halfspace s tf) 13
  /\ KDOP_slot_unbounded 12 (computeBV_KDOP24_Halfspace s tf) 16.
Proof.
  unfold KDOP_slot_unbounded, computeBV_KDOP16_Halfspace,
    computeBV_KDOP18_Halfspace, computeBV_KDOP24_Halfspace.
  set (n := hs_n (transform_Halfspace s tf)).
  set (d := hs_d (transform_Halfspace s tf)). clearbody n d.
  destruct n as [n0 n1 n2]. cbv zeta. cbn [coeff vx vy vz]. scalarR.
  repeat split; repeat (cmpR; cbn [andb]); first [reflexivity | exfalso; lra].
Qed.

Ltac split_atoms :=
  repeat match goal with
         | |- context [if ?a && ?b then _ else _] => destruct a; cbn [andb]
         | |- context [if ?b then _ else _] => destruct b
         end.

(** X4: in computeBV<KDOP<24>, S>, for a half-space and for a plane, the
    last branch repeats the test of the branch of direction 9, so it is
    never taken: the two slots of direction 11 keep their sentinels, over
    every scalar type. *)
Lemma computeBV_KDOP24_direction_11 {F : Type} `{Scalar F} (tf : Transform3d F) :
  (forall s : Halfspace F,
      KDOP_slot_unbounded 12 (computeBV_KDOP24_Halfspace s tf) 11
      /\ KDOP_slot_unbounded 12 (computeBV_KDOP24_Halfspace s tf) 23)
  /\ (forall s : Plane F,
      KDOP_slot_unbounded 12 (computeBV_KDOP24_Plane s tf) 11
      /\ KDOP_slot_unbounded 12 (computeBV_KDOP24_Plane s tf) 23).
Proof.
  unfold KDOP_slot_unbounded, computeBV_KDOP24_Halfspace, computeBV_KDOP24_Plane.
  cbv zeta. split; intros s; split; split_atoms; reflexivity.
Qed.

(** ** The bounds hold the shapes

    Every point of a shape, placed by [tf], lies in the bound that
    [computeBV] returns for the shape and [tf]. *)

Lemma Rabs_le_sqr (x r : R) : 0 <= r -> x * x <= r * r -> Rabs x <= r.
Proof.
  intros Hr H. unfold Rabs. destruct (Rcase_abs x); nra.
Qed.

Lemma Rabs_le_bounds (x r : R) : Rabs x <= r -> - r <= x <= r.
Proof. unfold Rabs. destruct (Rcase_abs x); lra. Qed.

Lemma Rabs_lin3 (a b c x y z A B C : R) :
  Rabs x <= A -> Rabs y <= B -> Rabs z <= C ->
  Rabs (a * x + b * y + c * z) <= Rabs (a * A) + Rabs (b * B) + Rabs (c * C).
Proof.
  intros Hx Hy Hz.
  pose proof (Rabs_pos x). pose proof (Rabs_pos y). pose proof (Rabs_pos z).
  rewrite !Rabs_mult, (Rabs_pos_eq A), (Rabs_pos_eq B), (Rabs_pos_eq C) by lra.
  eapply Rle_trans; [apply Rabs_triang |].
  eapply Rle_trans; [apply Rplus_le_compat_r, Rabs_triang |].
  rewrite !Rabs_mult.
  pose proof (Rabs_pos a). pose proof (Rabs_pos b). pose proof (Rabs_pos c).
  nra.
Qed.

Lemma Rabs_lin3' (a b c x y z A B C : R) :
  Rabs x <= Rabs A -> Rabs y <= Rabs B -> Rabs z <= Rabs C ->
  Rabs (a * x + b * y + c * z) <= Rabs (a * A) + Rabs (b * B) + Rabs (c * C).
Proof.
  intros Hx Hy Hz.
  eapply Rle_trans; [apply Rabs_triang |].
  eapply Rle_trans; [apply Rplus_le_compat_r, Rabs_triang |].
  rewrite !Rabs_mult.
  pose proof (Rabs_pos a). pose proof (Rabs_pos b). pose proof (Rabs_pos c).
  nra.
Qed.

Lemma disc_coords (x y r : R) :
  x * x + y * y <= r * r -> Rabs x <= Rabs r /\ Rabs y <= Rabs r.
Proof.
  intros H.
  assert (Hr : r * r = Rabs r * Rabs r).
  { rewrite <- Rabs_mult. symmetry. apply Rabs_pos_eq. nra. }
  rewrite Hr in H. pose proof (Rabs_pos r).
  split; apply Rabs_le_sqr; nra.
Qed.

Lemma AABB_holds_centered (T d q : Vector3d R) :
  Rabs (vx q) <= vx d -> Rabs (vy q) <= vy d -> Rabs (vz q) <= vz d ->
  AABB_holds (mkAABB (vsub T d) (vadd T d)) (vadd q T).
Proof.
  destruct T as [t0 t1 t2], d as [d0 d1 d2], q as [x y z].
  unfold AABB_holds, vle, vsub, vadd; cbn. scalarR.
  unfold Rabs. intros.
  destruct (Rcase_abs x), (Rcase_abs y), (Rcase_abs z); repeat split; lra.
Qed.

Lemma computeBV_AABB_holds_Box (s : Box R) (tf : Transform3d R) (p : Vector3d R) :
  in_Box s p -> AABB_holds (computeBV_AABB_Box s tf) (tf_apply tf p).
Proof.
  intros (Hx & Hy & Hz).
  unfold computeBV_AABB_Box, tf_apply. cbv zeta.
  apply AABB_holds_centered; cbn [vx vy vz];
    unfold mat_vec, dot, mcoeff, mrow, coeff; cbn [vx vy vz]; scalarR.
  all: match goal with
       | |- Rabs (?a * _ + ?b * _ + ?c * _) <= _ =>
           pose proof (@Rabs_lin3 a b c _ _ _ _ _ _ Hx Hy Hz) as H
       end;
       rewrite !Rabs_half in H; lra.
Qed.

Lemma computeBV_AABB_holds_Ellipsoid
  (s : Ellipsoid R) (tf : Transform3d R) (p : Vector3d R) :
  in_Ellipsoid s p -> AABB_holds (computeBV_AABB_Ellipsoid s tf) (tf_apply tf p).
Proof.
  intros ([x y z] & Hq & ->). unfold dot in Hq; cbn [vx vy vz] in Hq; scalarR.
  unfold computeBV_AABB_Ellipsoid, tf_apply. cbv zeta.
  assert (Hx : Rabs x <= 1) by (apply Rabs_le_sqr; nra).
  assert (Hy : Rabs y <= 1) by (apply Rabs_le_sqr; nra).
  assert (Hz : Rabs z <= 1) by (apply Rabs_le_sqr; nra).
  destruct s as [[A B C]].
  apply AABB_holds_centered; cbn [vx vy vz];
    unfold mat_vec, dot, mcoeff, mrow, coeff; cbn [vx vy vz radii]; scalarR.
  all: match goal with
       | |- Rabs (?a * _ + ?b * _ + ?c * _) <= _ =>
           pose proof (@Rabs_lin3 (a * A) (b * B) (c * C) _ _ _ _ _ _ Hx Hy Hz) as H
       end;
       rewrite !Rmult_1_r in H;
       match type of H with
       | Rabs ?l <= _ =>
           match goal with
           | |- Rabs ?l' <= _ => replace l' with l by ring
           end
       end; exact H.
Qed.

Lemma computeBV_AABB_holds_Cylinder
  (s : Cylinder R) (tf : Transform3d R) (p : Vector3d R) :
  in_Cylinder s p -> AABB_holds (computeBV_AABB_Cylinder s tf) (tf_apply tf p).
Proof.
  destruct s as [r lz], p as [x y z]. unfold in_Cylinder; cbn.
  intros (Hd & Hz). apply disc_coords in Hd. destruct Hd as [Hx Hy].
  assert (Hz' : Rabs z <= Rabs (lz / 2)).
  { rewrite (Rabs_pos_eq (lz / 2)); [exact Hz |]. pose proof (Rabs_pos z). lra. }
  unfold computeBV_AABB_Cylinder, tf_apply. cbv zeta.
  apply AABB_holds_centered; cbn [vx vy vz];
    unfold mat_vec, dot, mcoeff, mrow, coeff;
    cbn [vx vy vz cylinder_radius cylinder_lz]; scalarR.
  all: match goal with
       | |- Rabs (?a * _ + ?b * _ + ?c * _) <= _ =>
           pose proof (@Rabs_lin3' a b c _ _ _ _ _ _ Hx Hy Hz') as H
       end;
       rewrite !Rabs_half in H; lra.
Qed.

Lemma computeBV_AABB_holds_Cone (s : Cone R) (tf : Transform3d R) (p : Vector3d R) :
  in_Cone s p -> AABB_holds (computeBV_AABB_Cone s tf) (tf_apply tf p).
Proof.
  destruct s as [r lz]. unfold in_Cone; cbn.
  intros (k & x & y & Hk & Hd & ->).
  assert (Hx : Rabs (k * r * x) <= Rabs r).
  { replace (k * r * x) with (r * (k * x)) by ring. rewrite Rabs_mult.
    assert (Rabs (k * x) <= 1) by (apply Rabs_le_sqr; nra).
    pose proof (Rabs_pos r). nra. }
  assert (Hy : Rabs (k * r * y) <= Rabs r).
  { replace (k * r * y) with (r * (k * y)) by ring. rewrite Rabs_mult.
    assert (Rabs (k * y) <= 1) by (apply Rabs_le_sqr; nra).
    pose proof (Rabs_pos r). nra. }
  assert (Hz : Rabs (lz / 2 - k * lz) <= Rabs (lz / 2)).
  { replace (lz / 2 - k * lz) with (lz / 2 * (1 - 2 * k)) by field.
    rewrite Rabs_mult.
    assert (Rabs (1 - 2 * k) <= 1) by (apply Rabs_le_sqr; nra).
    pose proof (Rabs_pos (lz / 2)). nra. }
  unfold computeBV_AABB_Cone, tf_apply. cbv zeta.
  apply AABB_holds_centered; cbn [vx vy vz];
    unfold mat_vec, dot, mcoeff, mrow, coeff; cbn [vx vy vz cone_radius cone_lz]; scalarR.
  all: match goal with
       | |- Rabs (?a * _ + ?b * _ + ?c * _) <= _ =>
           pose proof (@Rabs_lin3' a b c _ _ _ _ _ _ Hx Hy Hz) as H
       end;
       rewrite !Rabs_half in H; lra.
Qed.

(** Concrete comparisons of absolute values. *)
Ltac rabs := unfold Rabs; repeat destruct (Rcase_abs _); lra.

(** X5: for a box, an ellipsoid, a cone and a cylinder, under every transform
    (rigid or not), the AABB of [computeBV] holds the image of every point of
    the shape. *)
Theorem computeBV_AABB_holds_any_transform (tf : Transform3d R) (p : Vector3d R) :
  (forall s : Box R,
      in_Box s p -> AABB_holds (computeBV_AABB_Box s tf) (tf_apply tf p))
  /\ (forall s : Ellipsoid R,
      in_Ellipsoid s p -> AABB_holds (computeBV_AABB_Ellipsoid s tf) (tf_apply tf p))
  /\ (forall s : Cone R,
      in_Cone s p -> AABB_holds (computeBV_AABB_Cone s tf) (tf_apply tf p))
  /\ (forall s : Cylinder R,
      in_Cylinder s p -> AABB_holds (computeBV_AABB_Cylinder s tf) (tf_apply tf p)).
Proof.
  split; [| split; [| split]]; intros s.
  - apply computeBV_AABB_holds_Box.
  - apply computeBV_AABB_holds_Ellipsoid.
  - apply computeBV_AABB_holds_Cone.
  - apply computeBV_AABB_holds_Cylinder.
Qed.

Lemma computeBV_AABB_holds_any_transform_witness :
  in_Cone (mkCone 2 4) (Vec3 (/ 2 * 2 * 1) (/ 2 * 2 * 0) (4 / 2 - / 2 * 4))
  /\ AABB_holds (computeBV_AABB_Cone (mkCone 2 4) (Tf rot_z_90 (Vec3 1 2 3)))
                (tf_apply (Tf rot_z_90 (Vec3 1 2 3))
                          (Vec3 (/ 2 * 2 * 1) (/ 2 * 2 * 0) (4 / 2 - / 2 * 4))).
Proof.
  assert (Hin : in_Cone (mkCone 2 4)
                        (Vec3 (/ 2 * 2 * 1) (/ 2 * 2 * 0) (4 / 2 - / 2 * 4))).
  { exists (/ 2), 1, 0. cbn [cone_radius cone_lz].
    split; [lra | split; [lra | reflexivity]]. }
  split; [exact Hin |].
  exact (proj1 (proj2 (proj2 (computeBV_AABB_holds_any_transform
                                (Tf rot_z_90 (Vec3 1 2 3)) _))) (mkCone 2 4) Hin).
Defined.

(** Cauchy-Schwarz for a unit vector. *)
Lemma unit_dot_le (u p : Vector3d R) (r : R) :
  dot u u = 1 -> 0 <= r -> dot p p <= r * r -> Rabs (dot u p) <= r.
Proof.
  destruct u as [a b c], p as [x y z]. unfold dot; cbn [vx vy vz]; scalarR.
  intros Hu Hr Hp. apply Rabs_le_sqr; [assumption |].
  pose proof (Rle_0_sqr (a * y - b * x)) as H1.
  pose proof (Rle_0_sqr (a * z - c * x)) as H2.
  pose proof (Rle_0_sqr (b * z - c * y)) as H3. unfold Rsqr in *.
  assert (E : (a * x + b * y + c * z) * (a * x + b * y + c * z)
              + (a * y - b * x) * (a * y - b * x)
              + (a * z - c * x) * (a * z - c * x)
              + (b * z - c * y) * (b * z - c * y)
              = (a * a + b * b + c * c) * (x * x + y * y + z * z)) by ring.
  rewrite Hu in E. lra.
Qed.

Lemma computeBV_AABB_holds_Sphere (s : Sphere R) (tf : Transform3d R) (p : Vector3d R) :
  rigid tf -> 0 <= sphere_radius s -> in_Sphere s p ->
  AABB_holds (computeBV_AABB_Sphere s tf) (tf_apply tf p).
Proof.
  intros Hrigid Hr Hp. destruct (orthonormal_unit_rows Hrigid) as (U0 & U1 & U2).
  unfold computeBV_AABB_Sphere, tf_apply. cbv zeta.
  apply AABB_holds_centered; cbn [vx vy vz Constant mat_vec];
    apply unit_dot_le; assumption.
Qed.

Lemma computeBV_AABB_holds_Capsule
  (s : Capsule R) (tf : Transform3d R) (p : Vector3d R) :
  rigid tf -> 0 <= capsule_radius s -> in_Capsule s p ->
  AABB_holds (computeBV_AABB_Capsule s tf) (tf_apply tf p).
Proof.
  intros Hrigid Hr (t & q & Ht & Hq & ->).
  destruct (orthonormal_unit_rows Hrigid) as (U0 & U1 & U2).
  pose proof (unit_dot_le U0 Hr Hq) as Q0.
  pose proof (unit_dot_le U1 Hr Hq) as Q1.
  pose proof (unit_dot_le U2 Hr Hq) as Q2.
  assert (Hlz : 0 <= capsule_lz s) by (pose proof (Rabs_pos t); lra).
  unfold computeBV_AABB_Capsule, tf_apply. cbv zeta.
  destruct s as [r lz], q as [x y z],
    tf as [[[a00 a01 a02] [a10 a11 a12] [a20 a21 a22]] T].
  apply AABB_holds_centered; cbn [vx vy vz];
    unfold mat_vec, dot, vadd, mcoeff, mrow, coeff in *;
    cbn [vx vy vz capsule_radius capsule_lz linear row0 row1 row2] in *; scalarR.
  all: match goal with
       | |- Rabs ?l <= / 2 * Rabs (?a * ?L) + ?rr =>
           replace l with (a * t + (l - a * t)) by ring;
           eapply Rle_trans; [apply Rabs_triang |];
           apply Rplus_le_compat;
             [ rewrite !Rabs_mult, (Rabs_pos_eq L) by assumption;
               pose proof (Rabs_pos a); nra
             | match goal with
               | H : Rabs ?m <= rr |- Rabs ?m' <= rr =>
                   replace m' with m by ring; exact H
               end ]
       end.
Qed.

(** X6: for a sphere and a capsule of radius at least 0, under a rigid
    transform, the AABB of [computeBV] holds the image of every point of the
    shape. *)
Theorem computeBV_AABB_holds_round_shapes
  (tf : Transform3d R) (Hrigid : rigid tf) (p : Vector3d R) :
  (forall s : Sphere R,
      0 <= sphere_radius s -> in_Sphere s p ->
      AABB_holds (computeBV_AABB_Sphere s tf) (tf_apply tf p))
  /\ (forall s : Capsule R,
      0 <= capsule_radius s -> in_Capsule s p ->
      AABB_holds (computeBV_AABB_Capsule s tf) (tf_apply tf p)).
Proof.
  split; intros s.
  - apply computeBV_AABB_holds_Sphere; assumption.
  - apply computeBV_AABB_holds_Capsule; assumption.
Qed.

Lemma computeBV_AABB_holds_round_shapes_witness :
  rigid (Tf rot_z_90 (Vec3 1 2 3))
  /\ 0 <= capsule_radius (mkCapsule 1 4)
  /\ in_Capsule (mkCapsule 1 4) (vadd (Vec3 0 0 2) (Vec3 0 0 1))
  /\ AABB_holds (computeBV_AABB_Capsule (mkCapsule 1 4) (Tf rot_z_90 (Vec3 1 2 3)))
                (tf_apply (Tf rot_z_90 (Vec3 1 2 3)) (vadd (Vec3 0 0 2) (Vec3 0 0 1))).
Proof.
  assert (Hr : 0 <= capsule_radius (mkCapsule 1 4)) by (cbn; lra).
  assert (Hin : in_Capsule (mkCapsule 1 4) (vadd (Vec3 0 0 2) (Vec3 0 0 1))).
  { exists 2, (Vec3 0 0 1). unfold dot; cbn; scalarR.
    split; [rabs | split; [lra | reflexivity]]. }
  split; [exact orthonormal_rot_z_90 | split; [exact Hr | split; [exact Hin |]]].
  exact (proj2 (computeBV_AABB_holds_round_shapes
                  (tf := Tf rot_z_90 (Vec3 1 2 3)) orthonormal_rot_z_90 _)
               (mkCapsule 1 4) Hr Hin).
Defined.

Lemma fold_AABB_add_map_holds (f : Vector3d R -> Vector3d R)
  (l : list (Vector3d R)) (p : Vector3d R) :
  forall bv, AABB_holds bv (f p) \/ In p l ->
             AABB_holds (fold_left (fun b x => AABB_add b (f x)) l bv) (f p).
Proof.
  induction l as [|x l IH]; intros bv [Hq | Hin]; cbn.
  - assumption.
  - destruct Hin.
  - apply IH; left; apply AABB_add_holds_old; assumption.
  - destruct Hin as [-> | Hin].
    + apply IH; left; apply AABB_add_holds_new.
    + apply IH; right; assumption.
Qed.

(** A box is convex, and a transform is affine. *)
Lemma AABB_holds_mix (bv : AABB R) (tf : Transform3d R) (p q : Vector3d R) (t : R) :
  0 <= t <= 1 ->
  AABB_holds bv (tf_apply tf p) -> AABB_holds bv (tf_apply tf q) ->
  AABB_holds bv (tf_apply tf (vadd (vscale p (1 - t)) (vscale q t))).
Proof.
  destruct bv as [[l0 l1 l2] [h0 h1 h2]], p as [x y z], q as [x' y' z'],
    tf as [[[a00 a01 a02] [a10 a11 a12] [a20 a21 a22]] [t0 t1 t2]].
  unfold AABB_holds, vle, tf_apply, mat_vec, dot, vadd, vscale; cbn. scalarR.
  intros Ht [(A0 & A1 & A2) (B0 & B1 & B2)] [(C0 & C1 & C2) (D0 & D1 & D2)].
  repeat split;
    match goal with
    | |- ?l <= ?e =>
        match e with
        | context [a00] =>
            replace e with ((1 - t) * (a00 * x + a01 * y + a02 * z + t0)
                            + t * (a00 * x' + a01 * y' + a02 * z' + t0)) by ring
        | context [a10] =>
            replace e with ((1 - t) * (a10 * x + a11 * y + a12 * z + t1)
                            + t * (a10 * x' + a11 * y' + a12 * z' + t1)) by ring
        | context [a20] =>
            replace e with ((1 - t) * (a20 * x + a21 * y + a22 * z + t2)
                            + t * (a20 * x' + a21 * y' + a22 * z' + t2)) by ring
        end
    | |- ?e <= ?l =>
        match e with
        | context [a00] =>
            replace e with ((1 - t) * (a00 * x + a01 * y + a02 * z + t0)
                            + t * (a00 * x' + a01 * y' + a02 * z' + t0)) by ring
        | context [a10] =>
            replace e with ((1 - t) * (a10 * x + a11 * y + a12 * z + t1)
                            + t * (a10 * x' + a11 * y' + a12 * z' + t1)) by ring
        | context [a20] =>
            replace e with ((1 - t) * (a20 * x + a21 * y + a22 * z + t2)
                            + t * (a20 * x' + a21 * y' + a22 * z' + t2)) by ring
        end
    end; nra.
Qed.

Lemma AABB_holds_hull (bv : AABB R) (tf : Transform3d R) (l : list (Vector3d R)) :
  (forall p, In p l -> AABB_holds bv (tf_apply tf p)) ->
  forall p, hull l p -> AABB_holds bv (tf_apply tf p).
Proof.
  intros Hl p Hp. induction Hp as [p Hin | p q t _ IHp _ IHq Ht].
  - apply Hl; assumption.
  - apply AABB_holds_mix; assumption.
Qed.

Lemma computeBV_AABB_holds_Convex (s : Convex R) (tf : Transform3d R) (p : Vector3d R) :
  in_Convex s p -> AABB_holds (computeBV_AABB_Convex s tf) (tf_apply tf p).
Proof.
  apply AABB_holds_hull. intros q Hq.
  unfold computeBV_AABB_Convex. cbv zeta.
  apply (fold_AABB_add_map_holds
           (fun x => vadd (mat_vec (linear tf) x) (translation tf))).
  right; assumption.
Qed.

Lemma AABB_of3_holds (a b c q : Vector3d R) :
  In q [a; b; c] -> AABB_holds (AABB_of3 a b c) q.
Proof.
  destruct a, b, c, q. unfold AABB_holds, vle, AABB_of3, vmin, vmax; cbn.
  rewrite !smin_R, !smax_R.
  intros [E | [E | [E | []]]]; injection E as <- <- <-;
    repeat split;
    unfold Rmin, Rmax; repeat (destruct (Rle_dec _ _)); lra.
Qed.

Lemma computeBV_AABB_holds_TriangleP
  (s : TriangleP R) (tf : Transform3d R) (p : Vector3d R) :
  in_TriangleP s p -> AABB_holds (computeBV_AABB_TriangleP s tf) (tf_apply tf p).
Proof.
  apply AABB_holds_hull. intros q Hq. unfold computeBV_AABB_TriangleP.
  apply AABB_of3_holds.
  destruct Hq as [<- | [<- | [<- | []]]]; cbn; tauto.
Qed.

(** X7: for a convex polytope and a triangle, under every transform, the
    AABB of [computeBV] holds the image of every point of the hull of the
    points, not only the image of the points. *)
Theorem computeBV_AABB_holds_hull (tf : Transform3d R) (p : Vector3d R) :
  (forall s : Convex R,
      in_Convex s p -> AABB_holds (computeBV_AABB_Convex s tf) (tf_apply tf p))
  /\ (forall s : TriangleP R,
      in_TriangleP s p -> AABB_holds (computeBV_AABB_TriangleP s tf) (tf_apply tf p)).
Proof.
  split; intros s.
  - apply computeBV_AABB_holds_Convex.
  - apply computeBV_AABB_holds_TriangleP.
Qed.

Lemma computeBV_AABB_holds_hull_witness :
  let s := mkTriangleP (Vec3 0 0 0) (Vec3 2 0 0) (Vec3 0 2 0) in
  let p := vadd (vscale (Vec3 0 0 0) (1 - / 2)) (vscale (Vec3 2 0 0) (/ 2)) in
  in_TriangleP s p
  /\ AABB_holds (computeBV_AABB_TriangleP s (Tf rot_z_90 (Vec3 1 2 3)))
                (tf_apply (Tf rot_z_90 (Vec3 1 2 3)) p).
Proof.
  cbv zeta.
  assert (Hin : in_TriangleP (mkTriangleP (Vec3 0 0 0) (Vec3 2 0 0) (Vec3 0 2 0))
                  (vadd (vscale (Vec3 0 0 0) (1 - / 2)) (vscale (Vec3 2 0 0) (/ 2)))).
  { apply hull_mix; [apply hull_point; cbn; tauto | apply hull_point; cbn; tauto | lra]. }
  split; [exact Hin |].
  exact (proj2 (computeBV_AABB_holds_hull (Tf rot_z_90 (Vec3 1 2 3)) _) _ Hin).
Defined.

Lemma sqr_1_cases (a : R) : a * a = 1 -> a = 1 \/ a = -1.
Proof.
  intros H. assert (E : (a - 1) * (a + 1) = 0) by nra.
  destruct (Rmult_integral _ _ E); [left | right]; lra.
Qed.

(** The component of a unit normal along an axis, once the other two are
    zero, is 1 or -1. *)
Ltac unit_axis :=
  subst;
  match goal with
  | H : _ + _ + _ = 1 |- _ =>
      match type of H with
      | context [?n * ?n] =>
          is_var n;
          let Hc := fresh "Hc" in
          assert (Hc : n * n = 1) by lra;
          destruct (sqr_1_cases Hc); subst n
      end
  end.

Lemma computeBV_AABB_holds_Halfspace
  (s : Halfspace R) (tf : Transform3d R) (x : Vector3d R) :
  rigid tf -> dot (hs_n s) (hs_n s) = 1 -> representable x ->
  in_Halfspace (transform_Halfspace s tf) x ->
  AABB_holds (computeBV_AABB_Halfspace s tf) x.
Proof.
  intros Hrigid Hn Hx Hin.
  unfold computeBV_AABB_Halfspace. cbv zeta.
  assert (Hn' : dot (hs_n (transform_Halfspace s tf))
                    (hs_n (transform_Halfspace s tf)) = 1).
  { cbn [transform_Halfspace hs_n]. rewrite (orthonormal_dot _ _ Hrigid). exact Hn. }
  destruct (transform_Halfspace s tf) as [[n0 n1 n2] d].
  destruct x as [x0 x1 x2].
  unfold representable, in_Halfspace, dot in *.
  cbn [vx vy vz coeff hs_n hs_d] in *. scalarR.
  destruct Hx as (X0 & X1 & X2).
  apply Rabs_le_bounds in X0, X1, X2.
  repeat cmpR; cbn [andb];
    unfold AABB_holds, vle, set_min, set_max, set_coeff, Constant;
    cbn [min_ max_ vx vy vz]; scalarR;
    try (repeat split; lra).
  all: clear Hn; unit_axis; repeat split; lra.
Qed.

Lemma computeBV_AABB_holds_Plane (s : Plane R) (tf : Transform3d R) (x : Vector3d R) :
  rigid tf -> dot (pl_n s) (pl_n s) = 1 -> representable x ->
  on_Plane (transform_Plane s tf) x ->
  AABB_holds (computeBV_AABB_Plane s tf) x.
Proof.
  intros Hrigid Hn Hx Hin.
  unfold computeBV_AABB_Plane. cbv zeta.
  assert (Hn' : dot (pl_n (transform_Plane s tf))
                    (pl_n (transform_Plane s tf)) = 1).
  { cbn [transform_Plane pl_n]. rewrite (orthonormal_dot _ _ Hrigid). exact Hn. }
  destruct (transform_Plane s tf) as [[n0 n1 n2] d].
  destruct x as [x0 x1 x2].
  unfold representable, on_Plane, dot in *.
  cbn [vx vy vz coeff pl_n pl_d] in *. scalarR.
  destruct Hx as (X0 & X1 & X2).
  apply Rabs_le_bounds in X0, X1, X2.
  repeat cmpR; cbn [andb];
    unfold AABB_holds, vle, set_min, set_max, set_coeff, Constant;
    cbn [min_ max_ vx vy vz]; scalarR;
    try (repeat split; lra).
  all: clear Hn; unit_axis; repeat split; lra.
Qed.

(** X8: for a half-space and a plane with a unit normal, under a rigid
    transform, the AABB of [computeBV] holds every point of the transformed
    half-space (plane) whose coordinates are values of [FCL_REAL]. *)
Theorem computeBV_AABB_holds_unbounded_shapes
  (tf : Transform3d R) (Hrigid : rigid tf) (x : Vector3d R) (Hx : representable x) :
  (forall s : Halfspace R,
      dot (hs_n s) (hs_n s) = 1 -> in_Halfspace (transform_Halfspace s tf) x ->
      AABB_holds (computeBV_AABB_Halfspace s tf) x)
  /\ (forall s : Plane R,
      dot (pl_n s) (pl_n s) = 1 -> on_Plane (transform_Plane s tf) x ->
      AABB_holds (computeBV_AABB_Plane s tf) x).
Proof.
  split; intros s Hn Hin.
  - apply computeBV_AABB_holds_Halfspace; assumption.
  - apply computeBV_AABB_holds_Plane; assumption.
Qed.

Lemma computeBV_AABB_holds_unbounded_shapes_witness :
  let tf := Tf rot_z_90 (Vec3 1 2 3) in
  let s := mkHalfspace (Vec3 1 0 0) 2 in
  let x := Vec3 5 3 0 in
  rigid tf /\ representable x /\ dot (hs_n s) (hs_n s) = 1
  /\ in_Halfspace (transform_Halfspace s tf) x
  /\ AABB_holds (computeBV_AABB_Halfspace s tf) x.
Proof.
  cbv zeta.
  assert (Hx : representable (Vec3 5 3 0)).
  { pose proof Rreal_max_large. unfold representable; cbn. repeat split; rabs. }
  assert (Hn : dot (hs_n (mkHalfspace (Vec3 1 0 0) 2))
                   (hs_n (mkHalfspace (Vec3 1 0 0) 2)) = 1).
  { unfold dot; cbn; scalarR. lra. }
  assert (Hin : in_Halfspace (transform_Halfspace (mkHalfspace (Vec3 1 0 0) 2)
                                (Tf rot_z_90 (Vec3 1 2 3))) (Vec3 5 3 0)).
  { unfold in_Halfspace, transform_Halfspace, rot_z_90, mat_vec, dot; cbn; scalarR. lra. }
  split; [exact orthonormal_rot_z_90 |].
  split; [exact Hx | split; [exact Hn | split; [exact Hin |]]].
  exact (proj1 (computeBV_AABB_holds_unbounded_shapes
                  (tf := Tf rot_z_90 (Vec3 1 2 3)) orthonormal_rot_z_90 Hx) _ Hn Hin).
Defined.

(** *** computeBV<OBB, S> *)

Lemma tf_apply_vsub (tf : Transform3d R) (p : Vector3d R) :
  vsub (tf_apply tf p) (translation tf) = mat_vec (linear tf) p.
Proof.
  destruct tf as [[[a00 a01 a02] [a10 a11 a12] [a20 a21 a22]] [t0 t1 t2]], p as [x y z].
  unfold tf_apply, vsub, vadd, mat_vec, dot; cbn; scalarR. f_equal; ring.
Qed.

Lemma orthonormal_mcol_dot (m : Matrix3d R) (p : Vector3d R) :
  orthonormal m ->
  dot (mcol m 0) (mat_vec m p) = vx p
  /\ dot (mcol m 1) (mat_vec m p) = vy p
  /\ dot (mcol m 2) (mat_vec m p) = vz p.
Proof.
  destruct m as [[a00 a01 a02] [a10 a11 a12] [a20 a21 a22]], p as [x y z].
  unfold orthonormal, mat_mul, transpose, Identity, mat_vec, mcol, mcoeff, dot; cbn.
  scalarR. intros Hm.
  injection Hm as H00 H01 H02 H10 H11 H12 H20 H21 H22.
  repeat split; nsatz.
Qed.

Lemma lt_3_cases (i : nat) : (i < 3)%nat -> i = 0%nat \/ i = 1%nat \/ i = 2%nat.
Proof. lia. Qed.

(** In the frame of a rigid transform an OBB whose axes are the transform's
    holds [tf p] exactly when [p] is within the extents. *)
Lemma OBB_holds_frame (tf : Transform3d R) (e p : Vector3d R) :
  rigid tf ->
  OBB_holds (mkOBB (linear tf) (translation tf) e) (tf_apply tf p)
  <-> Rabs (vx p) <= vx e /\ Rabs (vy p) <= vy e /\ Rabs (vz p) <= vz e.
Proof.
  intros Hrigid. unfold OBB_holds. cbn [obb_axis To extent].
  rewrite tf_apply_vsub.
  destruct (orthonormal_mcol_dot p Hrigid) as (E0 & E1 & E2).
  split.
  - intros H. pose proof (H 0%nat ltac:(lia)) as H0.
    pose proof (H 1%nat ltac:(lia)) as H1. pose proof (H 2%nat ltac:(lia)) as H2.
    rewrite E0 in H0. rewrite E1 in H1. rewrite E2 in H2.
    cbn [coeff] in *. tauto.
  - intros (H0 & H1 & H2) i Hi.
    destruct (lt_3_cases Hi) as [-> | [-> | ->]]; cbn [coeff];
      [rewrite E0 | rewrite E1 | rewrite E2]; assumption.
Qed.

(** X9: under a rigid transform the OBB of a box is the box: it holds the
    image of a point exactly when the point is in the box. *)
Theorem computeBV_OBB_Box_exact (s : Box R) (tf : Transform3d R) (p : Vector3d R) :
  rigid tf ->
  (OBB_holds (computeBV_OBB_Box s tf) (tf_apply tf p) <-> in_Box s p).
Proof.
  intros Hrigid. unfold computeBV_OBB_Box. rewrite (OBB_holds_frame _ _ Hrigid).
  unfold in_Box, vscale; cbn [vx vy vz]; scalarR.
  unfold Rdiv. tauto.
Qed.

Lemma computeBV_OBB_Box_exact_witness :
  rigid (Tf rot_z_90 (Vec3 1 2 3))
  /\ (OBB_holds (computeBV_OBB_Box (mkBox (Vec3 2 4 6)) (Tf rot_z_90 (Vec3 1 2 3)))
                (tf_apply (Tf rot_z_90 (Vec3 1 2 3)) (Vec3 1 (-2) 3))
      <-> in_Box (mkBox (Vec3 2 4 6)) (Vec3 1 (-2) 3)).
Proof.
  split; [exact orthonormal_rot_z_90 |].
  exact (computeBV_OBB_Box_exact (mkBox (Vec3 2 4 6)) (Vec3 1 (-2) 3)
           (tf := Tf rot_z_90 (Vec3 1 2 3)) orthonormal_rot_z_90).
Defined.

(** X10: for a sphere of radius at least 0 under a rigid transform, the
    OBB of [computeBV] holds the image of every point of the sphere,
    although it keeps the identity axes whatever the rotation. *)
Theorem computeBV_OBB_holds_Sphere
  (s : Sphere R) (tf : Transform3d R) (p : Vector3d R) :
  rigid tf -> 0 <= sphere_radius s -> in_Sphere s p ->
  OBB_holds (computeBV_OBB_Sphere s tf) (tf_apply tf p).
Proof.
  intros Hrigid Hr Hp. destruct (orthonormal_unit_rows Hrigid) as (U0 & U1 & U2).
  unfold computeBV_OBB_Sphere, OBB_holds. cbn [obb_axis To extent].
  rewrite tf_apply_vsub. intros i Hi.
  pose proof (unit_dot_le U0 Hr Hp) as Q0.
  pose proof (unit_dot_le U1 Hr Hp) as Q1.
  pose proof (unit_dot_le U2 Hr Hp) as Q2.
  destruct (lt_3_cases Hi) as [-> | [-> | ->]];
    unfold mcol, Identity, mat_vec, Constant, mcoeff;
    cbn [coeff mrow row0 row1 row2 vx vy vz];
    unfold dot at 1; cbn [vx vy vz]; scalarR;
    match goal with
    | |- Rabs ?e <= _ =>
        match goal with
        | H : Rabs ?m <= _ |- _ => replace e with m by ring; exact H
        end
    end.
Qed.

Lemma computeBV_OBB_holds_Sphere_witness :
  let tf := Tf rot_z_90 (Vec3 1 2 3) in
  rigid tf /\ 0 <= sphere_radius (mkSphere 2) /\ in_Sphere (mkSphere 2) (Vec3 1 1 1)
  /\ OBB_holds (computeBV_OBB_Sphere (mkSphere 2) tf) (tf_apply tf (Vec3 1 1 1)).
Proof.
  cbv zeta.
  assert (Hr : 0 <= sphere_radius (mkSphere 2)) by (cbn; lra).
  assert (Hin : in_Sphere (mkSphere 2) (Vec3 1 1 1)).
  { unfold in_Sphere, dot; cbn; scalarR. lra. }
  split; [exact orthonormal_rot_z_90 | split; [exact Hr | split; [exact Hin |]]].
  exact (computeBV_OBB_holds_Sphere (tf := Tf rot_z_90 (Vec3 1 2 3))
           orthonormal_rot_z_90 Hr Hin).
Defined.

Lemma computeBV_OBB_holds_Ellipsoid
  (s : Ellipsoid R) (tf : Transform3d R) (p : Vector3d R) :
  rigid tf -> vle (Constant 0%fcl) (radii s) -> in_Ellipsoid s p ->
  OBB_holds (computeBV_OBB_Ellipsoid s tf) (tf_apply tf p).
Proof.
  intros Hrigid (HA & HB & HC) ([x y z] & Hq & ->).
  unfold dot in Hq; cbn [vx vy vz Constant] in *; scalarR.
  unfold computeBV_OBB_Ellipsoid. apply (OBB_holds_frame _ _ Hrigid).
  assert (Hx : Rabs x <= 1) by (apply Rabs_le_sqr; nra).
  assert (Hy : Rabs y <= 1) by (apply Rabs_le_sqr; nra).
  assert (Hz : Rabs z <= 1) by (apply Rabs_le_sqr; nra).
  cbn [vx vy vz]. rewrite !Rabs_mult, !(Rabs_pos_eq _ HA), !(Rabs_pos_eq _ HB),
    !(Rabs_pos_eq _ HC).
  repeat split; nra.
Qed.

Lemma computeBV_OBB_holds_Capsule
  (s : Capsule R) (tf : Transform3d R) (p : Vector3d R) :
  rigid tf -> 0 <= capsule_radius s -> in_Capsule s p ->
  OBB_holds (computeBV_OBB_Capsule s tf) (tf_apply tf p).
Proof.
  intros Hrigid Hr (t & [x y z] & Ht & Hq & ->).
  unfold computeBV_OBB_Capsule. apply (OBB_holds_frame _ _ Hrigid).
  unfold dot, vadd in *; cbn [vx vy vz] in *; scalarR.
  rewrite !Rplus_0_l.
  repeat split; try (apply Rabs_le_sqr; nra).
  eapply Rle_trans; [apply Rabs_triang |].
  assert (Rabs z <= capsule_radius s) by (apply Rabs_le_sqr; nra).
  lra.
Qed.

Lemma computeBV_OBB_holds_Cylinder
  (s : Cylinder R) (tf : Transform3d R) (p : Vector3d R) :
  rigid tf -> 0 <= cylinder_radius s -> in_Cylinder s p ->
  OBB_holds (computeBV_OBB_Cylinder s tf) (tf_apply tf p).
Proof.
  intros Hrigid Hr (Hd & Hz).
  unfold computeBV_OBB_Cylinder. apply (OBB_holds_frame _ _ Hrigid).
  cbn [vx vy vz]; scalarR.
  repeat split; try (apply Rabs_le_sqr; nra). exact Hz.
Qed.

Lemma computeBV_OBB_holds_Cone (s : Cone R) (tf : Transform3d R) (p : Vector3d R) :
  rigid tf -> 0 <= cone_radius s -> 0 <= cone_lz s -> in_Cone s p ->
  OBB_holds (computeBV_OBB_Cone s tf) (tf_apply tf p).
Proof.
  intros Hrigid Hr Hlz (k & x & y & Hk & Hd & ->).
  unfold computeBV_OBB_Cone. apply (OBB_holds_frame _ _ Hrigid).
  cbn [vx vy vz]; scalarR.
  assert (Hx : Rabs (k * x) <= 1) by (apply Rabs_le_sqr; nra).
  assert (Hy : Rabs (k * y) <= 1) by (apply Rabs_le_sqr; nra).
  assert (Hz : Rabs (1 - 2 * k) <= 1) by (apply Rabs_le_sqr; nra).
  replace (k * cone_radius s * x) with (cone_radius s * (k * x)) by ring.
  replace (k * cone_radius s * y) with (cone_radius s * (k * y)) by ring.
  replace (cone_lz s / 2 - k * cone_lz s) with (cone_lz s / 2 * (1 - 2 * k)) by field.
  rewrite (Rabs_mult (cone_radius s) (k * x)), (Rabs_mult (cone_radius s) (k * y)),
    (Rabs_mult (cone_lz s / 2)), !(Rabs_pos_eq _ Hr), (Rabs_pos_eq (cone_lz s / 2))
    by lra.
  pose proof (Rmult_le_compat_l _ _ _ Hr Hx).
  pose proof (Rmult_le_compat_l _ _ _ Hr Hy).
  assert (Hl : 0 <= cone_lz s / 2) by lra.
  pose proof (Rmult_le_compat_l _ _ _ Hl Hz).
  repeat split; lra.
Qed.

(** X11: for an ellipsoid, a capsule, a cone and a cylinder whose sizes are
    not negative, under a rigid transform, the OBB of [computeBV] holds the
    image of every point of the shape. *)
Theorem computeBV_OBB_holds
  (tf : Transform3d R) (Hrigid : rigid tf) (p : Vector3d R) :
  (forall s : Ellipsoid R,
      vle (Constant 0%fcl) (radii s) -> in_Ellipsoid s p ->
      OBB_holds (computeBV_OBB_Ellipsoid s tf) (tf_apply tf p))
  /\ (forall s : Capsule R,
      0 <= capsule_radius s -> in_Capsule s p ->
      OBB_holds (computeBV_OBB_Capsule s tf) (tf_apply tf p))
  /\ (forall s : Cone R,
      0 <= cone_radius s -> 0 <= cone_lz s -> in_Cone s p ->
      OBB_holds (computeBV_OBB_Cone s tf) (tf_apply tf p))
  /\ (forall s : Cylinder R,
      0 <= cylinder_radius s -> in_Cylinder s p ->
      OBB_holds (computeBV_OBB_Cylinder s tf) (tf_apply tf p)).
Proof.
  split; [| split; [| split]]; intros s.
  - apply computeBV_OBB_holds_Ellipsoid; assumption.
  - apply computeBV_OBB_holds_Capsule; assumption.
  - apply computeBV_OBB_holds_Cone; assumption.
  - apply computeBV_OBB_holds_Cylinder; assumption.
Qed.

Lemma computeBV_OBB_holds_witness :
  let tf := Tf rot_z_90 (Vec3 1 2 3) in
  let p := vadd (Vec3 0 0 2) (Vec3 0 0 1) in
  rigid tf /\ 0 <= capsule_radius (mkCapsule 1 4) /\ in_Capsule (mkCapsule 1 4) p
  /\ OBB_holds (computeBV_OBB_Capsule (mkCapsule 1 4) tf) (tf_apply tf p).
Proof.
  cbv zeta.
  assert (Hr : 0 <= capsule_radius (mkCapsule 1 4)) by (cbn; lra).
  assert (Hin : in_Capsule (mkCapsule 1 4) (vadd (Vec3 0 0 2) (Vec3 0 0 1))).
  { exists 2, (Vec3 0 0 1). unfold dot; cbn; scalarR.
    split; [rabs | split; [lra | reflexivity]]. }
  split; [exact orthonormal_rot_z_90 | split; [exact Hr | split; [exact Hin |]]].
  exact (proj1 (proj2 (computeBV_OBB_holds (tf := Tf rot_z_90 (Vec3 1 2 3))
                         orthonormal_rot_z_90 _)) (mkCapsule 1 4) Hr Hin).
Defined.

Lemma OBB_holds_Identity (c e q : Vector3d R) :
  OBB_holds (mkOBB Identity c e) q
  <-> Rabs (vx q - vx c) <= vx e /\ Rabs (vy q - vy c) <= vy e
      /\ Rabs (vz q - vz c) <= vz e.
Proof.
  destruct c as [c0 c1 c2], e as [e0 e1 e2], q as [x y z].
  unfold OBB_holds. cbn [obb_axis To extent vx vy vz].
  assert (E0 : dot (mcol Identity 0) (vsub (Vec3 x y z) (Vec3 c0 c1 c2)) = x - c0).
  { unfold dot, mcol, Identity, mcoeff, vsub; cbn; scalarR. ring. }
  assert (E1 : dot (mcol Identity 1) (vsub (Vec3 x y z) (Vec3 c0 c1 c2)) = y - c1).
  { unfold dot, mcol, Identity, mcoeff, vsub; cbn; scalarR. ring. }
  assert (E2 : dot (mcol Identity 2) (vsub (Vec3 x y z) (Vec3 c0 c1 c2)) = z - c2).
  { unfold dot, mcol, Identity, mcoeff, vsub; cbn; scalarR. ring. }
  split.
  - intros H. pose proof (H 0%nat ltac:(lia)) as H0.
    pose proof (H 1%nat ltac:(lia)) as H1. pose proof (H 2%nat ltac:(lia)) as H2.
    rewrite E0 in H0. rewrite E1 in H1. rewrite E2 in H2.
    cbn [coeff vx vy vz] in *. tauto.
  - intros (H0 & H1 & H2) i Hi.
    destruct (lt_3_cases Hi) as [-> | [-> | ->]]; cbn [coeff vx vy vz];
      [rewrite E0 | rewrite E1 | rewrite E2]; assumption.
Qed.

Lemma tf_apply_vsub2 (tf : Transform3d R) (p c : Vector3d R) :
  vsub (tf_apply tf p) (tf_apply tf c) = mat_vec (linear tf) (vsub p c).
Proof.
  destruct tf as [[[a00 a01 a02] [a10 a11 a12] [a20 a21 a22]] [t0 t1 t2]],
    p as [x y z], c as [c0 c1 c2].
  unfold tf_apply, vsub, vadd, mat_vec, dot; cbn; scalarR. f_equal; ring.
Qed.

(** X24: the OBB of a convex polytope keeps the centre and the extents
    that [fit] returned but not its axes, which are overwritten by those of
    [tf]: under a rigid transform it holds [tf * q] exactly when the box
    with the fitted centre and extents and the identity axes holds [q],
    whatever axes [fit] chose. *)
Theorem computeBV_OBB_Convex_drops_fit_axes
  (fit : list (Vector3d R) -> OBB R -> OBB R)
  (s : Convex R) (tf : Transform3d R) (bv : OBB R) (q : Vector3d R) :
  rigid tf ->
  let fitted := fit (points s) bv in
  OBB_holds (computeBV_OBB_Convex fit s tf bv) (tf_apply tf q)
  <-> OBB_holds (mkOBB Identity (To fitted) (extent fitted)) q.
Proof.
  intros Hrigid fitted. rewrite OBB_holds_Identity.
  unfold computeBV_OBB_Convex. cbv zeta. cbn [obb_axis To extent]. fold fitted.
  unfold OBB_holds. cbn [obb_axis To extent].
  rewrite tf_apply_vsub2.
  destruct (orthonormal_mcol_dot (vsub q (To fitted)) Hrigid) as (E0 & E1 & E2).
  assert (Ex : vx (vsub q (To fitted)) = vx q - vx (To fitted)).
  { destruct q, (To fitted); reflexivity. }
  assert (Ey : vy (vsub q (To fitted)) = vy q - vy (To fitted)).
  { destruct q, (To fitted); reflexivity. }
  assert (Ez : vz (vsub q (To fitted)) = vz q - vz (To fitted)).
  { destruct q, (To fitted); reflexivity. }
  rewrite Ex in E0. rewrite Ey in E1. rewrite Ez in E2.
  split.
  - intros H. pose proof (H 0%nat ltac:(lia)) as H0.
    pose proof (H 1%nat ltac:(lia)) as H1. pose proof (H 2%nat ltac:(lia)) as H2.
    rewrite E0 in H0. rewrite E1 in H1. rewrite E2 in H2.
    cbn [coeff] in *. tauto.
  - intros (H0 & H1 & H2) i Hi.
    destruct (lt_3_cases Hi) as [-> | [-> | ->]]; cbn [coeff];
      [rewrite E0 | rewrite E1 | rewrite E2]; assumption.
Qed.

Lemma computeBV_OBB_Convex_drops_fit_axes_witness :
  let s := mkConvex [Vec3 0 1 0; Vec3 0 (-1) 0] in
  let bv := mkOBB Identity (Vec3 0 0 0) (Vec3 0 0 0) in
  let tf := Tf rot_z_90 (Vec3 1 2 3) in
  rigid tf
  /\ (OBB_holds (computeBV_OBB_Convex fit_along_y s tf bv) (tf_apply tf (Vec3 0 1 0))
      <-> OBB_holds (mkOBB Identity (To (fit_along_y (points s) bv))
                           (extent (fit_along_y (points s) bv))) (Vec3 0 1 0)).
Proof.
  cbv zeta. split; [exact orthonormal_rot_z_90 |].
  exact (computeBV_OBB_Convex_drops_fit_axes fit_along_y
           (mkConvex [Vec3 0 1 0; Vec3 0 (-1) 0])
           (mkOBB Identity (Vec3 0 0 0) (Vec3 0 0 0)) (Vec3 0 1 0)
           (tf := Tf rot_z_90 (Vec3 1 2 3)) orthonormal_rot_z_90).
Defined.

(** So a fitted box that holds the points can lose them: with the box
    fitted along y around (0, 1, 0) and (0, -1, 0), the OBB computed under
    the identity transform does not hold (0, 1, 0). *)
Lemma computeBV_OBB_Convex_misses_point :
  let s := mkConvex [Vec3 0 1 0; Vec3 0 (-1) 0] in
  let bv := mkOBB Identity (Vec3 0 0 0) (Vec3 0 0 0) in
  let tf := Tf Identity (Vec3 0 0 0) in
  (forall p, In p (points s) -> OBB_holds (fit_along_y (points s) bv) p)
  /\ ~ OBB_holds (computeBV_OBB_Convex fit_along_y s tf bv) (tf_apply tf (Vec3 0 1 0)).
Proof.
  cbv zeta. split.
  - intros p Hp i Hi. cbn [points In] in Hp.
    destruct Hp as [<- | [<- | []]];
      destruct (lt_3_cases Hi) as [-> | [-> | ->]];
      unfold fit_along_y, rot_z_90, dot, mcol, mcoeff, vsub; cbn; scalarR; rabs.
  - intros H. specialize (H 1%nat ltac:(lia)). revert H.
    unfold computeBV_OBB_Convex, fit_along_y, tf_apply, Identity, mat_vec, dot,
      mcol, mcoeff, vsub, vadd; cbn; scalarR. rabs.
Qed.

Lemma dot_vsub_r (u v w : Vector3d R) : dot u (vsub v w) = dot u v - dot u w.
Proof. destruct u, v, w. unfold dot, vsub; cbn; scalarR. ring. Qed.

Lemma dot_vscale_r (u v : Vector3d R) (k : R) : dot u (vscale v k) = k * dot u v.
Proof. destruct u, v. unfold dot, vscale; cbn; scalarR. ring. Qed.

Lemma mat_vec_vscale (m : Matrix3d R) (v : Vector3d R) (k : R) :
  mat_vec m (vscale v k) = vscale (mat_vec m v) k.
Proof.
  destruct m as [[] [] []], v. unfold mat_vec, vscale, dot; cbn; scalarR.
  f_equal; ring.
Qed.

(** The point [tf * (n * d)] that [computeBV] takes for the centre lies on
    the transformed plane. *)
Lemma plane_centre_offset (s : Plane R) (tf : Transform3d R) :
  rigid tf -> dot (pl_n s) (pl_n s) = 1 ->
  dot (pl_n (transform_Plane s tf)) (tf_apply tf (vscale (pl_n s) (pl_d s)))
  = pl_d (transform_Plane s tf).
Proof.
  intros Hrigid Hn. unfold transform_Plane, tf_apply. cbn [pl_n pl_d].
  rewrite dot_vadd_r, mat_vec_vscale, dot_vscale_r, (orthonormal_dot _ _ Hrigid), Hn.
  scalarR. ring.
Qed.

(** X12: for a plane with a unit normal under a rigid transform, the OBB and
    the RSS of [computeBV] have an orthonormal frame, their centre lies on
    the transformed plane, the transformed plane is the set of points with
    offset zero from the centre along axis 0, and axis 0 is the transformed
    normal itself. *)
Theorem computeBV_Plane_frame (s : Plane R) (tf : Transform3d R)
  (obb : OBB R) (rss : RSS R) :
  rigid tf -> dot (pl_n s) (pl_n s) = 1 ->
  let s' := transform_Plane s tf in
  let obb' := computeBV_OBB_Plane s tf obb in
  let rss' := computeBV_RSS_Plane s tf rss in
  orthonormal (obb_axis obb') /\ orthonormal (rss_axis rss')
  /\ on_Plane s' (To obb') /\ on_Plane s' (Tr rss')
  /\ (forall x, on_Plane s' x <-> dot (mcol (obb_axis obb') 0) (vsub x (To obb')) = 0)
  /\ (forall x, on_Plane s' x <-> dot (mcol (rss_axis rss') 0) (vsub x (Tr rss')) = 0)
  /\ mcol (obb_axis obb') 0 = pl_n s' /\ mcol (rss_axis rss') 0 = pl_n s'.
Proof.
  intros Hrigid Hn s' obb' rss'.
  pose proof (plane_centre_offset s Hrigid Hn) as Hc. fold s' in Hc.
  assert (Hu : dot (mat_vec (linear tf) (pl_n s)) (mat_vec (linear tf) (pl_n s)) = 1).
  { rewrite (orthonormal_dot _ _ Hrigid). exact Hn. }
  assert (Eo : mcol (obb_axis obb') 0 = pl_n s').
  { unfold obb', computeBV_OBB_Plane; cbn [obb_axis].
    rewrite generateCoordinateSystem_col0, mcol_set_col_0. reflexivity. }
  assert (Er : mcol (rss_axis rss') 0 = pl_n s').
  { unfold rss', computeBV_RSS_Plane; cbn [rss_axis].
    rewrite generateCoordinateSystem_col0, mcol_set_col_0. reflexivity. }
  split; [| split; [| split; [| split; [| split; [| split; [| split]]]]]].
  - unfold obb', computeBV_OBB_Plane; cbn [obb_axis].
    apply generateCoordinateSystem_orthonormal. rewrite mcol_set_col_0. exact Hu.
  - unfold rss', computeBV_RSS_Plane; cbn [rss_axis].
    apply generateCoordinateSystem_orthonormal. rewrite mcol_set_col_0. exact Hu.
  - exact Hc.
  - exact Hc.
  - intros x. rewrite Eo, dot_vsub_r. unfold on_Plane.
    change (To obb') with (tf_apply tf (vscale (pl_n s) (pl_d s))). rewrite Hc.
    split; intros; lra.
  - intros x. rewrite Er, dot_vsub_r. unfold on_Plane.
    change (Tr rss') with (tf_apply tf (vscale (pl_n s) (pl_d s))). rewrite Hc.
    split; intros; lra.
  - exact Eo.
  - exact Er.
Qed.

Lemma computeBV_Plane_frame_witness :
  let s := mkPlane (Vec3 1 0 0) 2 in
  let tf := Tf rot_z_90 (Vec3 1 2 3) in
  let obb := mkOBB Identity (Vec3 0 0 0) (Vec3 0 0 0) in
  let rss := mkRSS Identity (Vec3 0 0 0) 0 0 0 in
  rigid tf /\ dot (pl_n s) (pl_n s) = 1
  /\ on_Plane (transform_Plane s tf) (To (computeBV_OBB_Plane s tf obb))
  /\ on_Plane (transform_Plane s tf) (Tr (computeBV_RSS_Plane s tf rss)).
Proof.
  cbv zeta.
  assert (Hn : dot (pl_n (mkPlane (Vec3 1 0 0) 2)) (pl_n (mkPlane (Vec3 1 0 0) 2)) = 1).
  { unfold dot; cbn; scalarR. lra. }
  split; [exact orthonormal_rot_z_90 | split; [exact Hn |]].
  pose proof (computeBV_Plane_frame (mkPlane (Vec3 1 0 0) 2)
                (mkOBB Identity (Vec3 0 0 0) (Vec3 0 0 0))
                (mkRSS Identity (Vec3 0 0 0) 0 0 0)
                (tf := Tf rot_z_90 (Vec3 1 2 3)) orthonormal_rot_z_90 Hn)
    as (_ & _ & Ho & Hr & _).
  split; [exact Ho | exact Hr].
Defined.

(** ** The sampled vertices bound the shapes

    No plane separates a point of the shape, placed by [tf], from the
    vertices that [getBoundVertices] returns for the shape and [tf]. *)

Lemma dot_tf_apply (tf : Transform3d R) (u x : Vector3d R) :
  dot u (tf_apply tf x)
  = dot (mat_vec (transpose (linear tf)) u) x + dot u (translation tf).
Proof.
  destruct tf as [[[a00 a01 a02] [a10 a11 a12] [a20 a21 a22]] [t0 t1 t2]],
    u as [u0 u1 u2], x as [x y z].
  unfold tf_apply, transpose, mat_vec, mcol, mcoeff, vadd, dot; cbn; scalarR. ring.
Qed.

(** A transform is affine: it carries the vertices that bound [p] to
    vertices that bound its image. *)
Lemma bounded_by_tf (tf : Transform3d R) (vs : list (Vector3d R)) (p : Vector3d R) :
  bounded_by vs p -> bounded_by (map (tf_apply tf) vs) (tf_apply tf p).
Proof.
  intros H u.
  destruct (H (mat_vec (transpose (linear tf)) u)) as (v & Hin & Hle).
  exists (tf_apply tf v). split; [apply in_map; assumption |].
  rewrite !dot_tf_apply. lra.
Qed.

Lemma bounded_by_hull (l : list (Vector3d R)) (p : Vector3d R) :
  hull l p -> bounded_by l p.
Proof.
  intros Hp u. induction Hp as [p Hin | p q t _ (v & Hv & Lv) _ (w & Hw & Lw) Ht].
  - exists p; split; [assumption | lra].
  - assert (E : dot u (vadd (vscale p (1 - t)) (vscale q t))
                = (1 - t) * dot u p + t * dot u q).
    { destruct u, p, q. unfold dot, vadd, vscale; cbn; scalarR. ring. }
    rewrite E.
    destruct (Rle_dec (dot u v) (dot u w)).
    + exists w; split; [assumption | nra].
    + exists v; split; [assumption | nra].
Qed.

Lemma getBoundVertices_Convex_bounds
  (s : Convex R) (tf : Transform3d R) (p : Vector3d R) :
  in_Convex s p -> bounded_by (getBoundVertices_Convex s tf) (tf_apply tf p).
Proof.
  intros Hp. unfold getBoundVertices_Convex.
  apply bounded_by_tf, bounded_by_hull. exact Hp.
Qed.

Lemma getBoundVertices_TriangleP_bounds
  (s : TriangleP R) (tf : Transform3d R) (p : Vector3d R) :
  in_TriangleP s p -> bounded_by (getBoundVertices_TriangleP s tf) (tf_apply tf p).
Proof.
  intros Hp.
  change (getBoundVertices_TriangleP s tf)
    with (map (tf_apply tf) [tri_a s; tri_b s; tri_c s]).
  apply bounded_by_tf, bounded_by_hull. exact Hp.
Qed.

(** Tries the vertices of a list in turn. *)
Ltac try_vertices l tac :=
  lazymatch l with
  | ?v :: ?t => first [ exists v; split; [cbn; tauto | cbn [vx vy vz]; solve [tac]]
                      | try_vertices t tac ]
  end.

Lemma getBoundVertices_Box_bounds (s : Box R) (tf : Transform3d R) (p : Vector3d R) :
  in_Box s p -> bounded_by (getBoundVertices_Box s tf) (tf_apply tf p).
Proof.
  intros (Hx & Hy & Hz).
  set (a := vx (side s) / 2) in *. set (b := vy (side s) / 2) in *.
  set (c := vz (side s) / 2) in *.
  change (getBoundVertices_Box s tf)
    with (map (tf_apply tf)
              [Vec3 a b c; Vec3 a b (- c); Vec3 a (- b) c; Vec3 a (- b) (- c);
               Vec3 (- a) b c; Vec3 (- a) b (- c); Vec3 (- a) (- b) c;
               Vec3 (- a) (- b) (- c)]).
  clearbody a b c.
  apply bounded_by_tf. intros [u0 u1 u2]. destruct p as [x y z].
  cbn [vx vy vz] in *. apply Rabs_le_bounds in Hx, Hy, Hz.
  unfold dot; cbn [vx vy vz]; scalarR.
  assert (H0 : u0 * x <= u0 * a \/ u0 * x <= u0 * - a)
    by (destruct (Rle_dec 0 u0); [left | right]; nra).
  assert (H1 : u1 * y <= u1 * b \/ u1 * y <= u1 * - b)
    by (destruct (Rle_dec 0 u1); [left | right]; nra).
  assert (H2 : u2 * z <= u2 * c \/ u2 * z <= u2 * - c)
    by (destruct (Rle_dec 0 u2); [left | right]; nra).
  destruct H0, H1, H2;
    match goal with
    | |- exists v, In v ?l /\ _ => try_vertices l ltac:(lra)
    end.
Qed.

(** X13: the eight corners sampled for a box, and the points sampled for a
    convex polytope and for a triangle, bound the shape under every
    transform. *)
Theorem getBoundVertices_bound_polytopes (tf : Transform3d R) (p : Vector3d R) :
  (forall s : Box R,
      in_Box s p -> bounded_by (getBoundVertices_Box s tf) (tf_apply tf p))
  /\ (forall s : Convex R,
      in_Convex s p -> bounded_by (getBoundVertices_Convex s tf) (tf_apply tf p))
  /\ (forall s : TriangleP R,
      in_TriangleP s p -> bounded_by (getBoundVertices_TriangleP s tf) (tf_apply tf p)).
Proof.
  split; [| split]; intros s.
  - apply getBoundVertices_Box_bounds.
  - apply getBoundVertices_Convex_bounds.
  - apply getBoundVertices_TriangleP_bounds.
Qed.

Lemma getBoundVertices_bound_polytopes_witness :
  let tf := Tf rot_z_90 (Vec3 1 2 3) in
  in_Box (mkBox (Vec3 2 4 6)) (Vec3 1 (-2) 3)
  /\ bounded_by (getBoundVertices_Box (mkBox (Vec3 2 4 6)) tf)
                (tf_apply tf (Vec3 1 (-2) 3)).
Proof.
  cbv zeta.
  assert (Hin : in_Box (mkBox (Vec3 2 4 6)) (Vec3 1 (-2) 3)).
  { unfold in_Box; cbn. repeat split; rabs. }
  split; [exact Hin |].
  exact (proj1 (getBoundVertices_bound_polytopes (Tf rot_z_90 (Vec3 1 2 3)) _) _ Hin).
Defined.

Lemma dot_vscale_l (u v : Vector3d R) (k : R) : dot (vscale u k) v = k * dot u v.
Proof. destruct u, v. unfold dot, vscale; cbn; scalarR. ring. Qed.

(** The icosahedron of [getBoundVertices] bounds the ball it is built
    around: along every direction some vertex reaches beyond each point of
    the ball. *)
Lemma icosa_reach (u q : Vector3d R) (radius : R) :
  0 <= radius -> dot q q <= radius * radius ->
  exists v, In v (icosa_vertices radius) /\ dot u q <= dot u v.
Proof.
  intros Hr Hq.
  assert (Hnn : 0 <= dot u u).
  { destruct u. unfold dot; cbn; scalarR. nra. }
  destruct (Req_dec_T (dot u u) 0) as [Hz | Hnz].
  - assert (u = Vec3 0 0 0) as ->.
    { destruct u as [a b c]. unfold dot in Hz; cbn in Hz; scalarR.
      assert (a = 0) by nra. assert (b = 0) by nra. assert (c = 0) by nra.
      subst; reflexivity. }
    exists (Vec3 0 (icosa_a radius) (icosa_b radius)).
    split; [cbn; tauto |]. destruct q. unfold dot; cbn; scalarR. lra.
  - set (N := sqrt (dot u u)).
    assert (HN : 0 < N) by (apply sqrt_lt_R0; lra).
    assert (HNN : N * N = dot u u) by (apply sqrt_sqrt; lra).
    set (w := vscale u (/ N)).
    assert (Hw : dot w w = 1).
    { unfold w. rewrite dot_vscale_l.
      assert (E : dot u (vscale u (/ N)) = / N * dot u u).
      { destruct u. unfold dot, vscale; cbn; scalarR. ring. }
      rewrite E, <- HNN. field. lra. }
    destruct (icosa_vertex_support Hw Hr) as (v & _ & Hv & _ & Lv & _).
    pose proof (unit_dot_le Hw Hr Hq) as Lq. apply Rabs_le_bounds in Lq.
    exists v. split; [assumption |].
    unfold w in Lv, Lq. rewrite dot_vscale_l in Lv, Lq.
    assert (Eq : dot u q = N * (/ N * dot u q)) by (field; lra).
    assert (Ev : dot u v = N * (/ N * dot u v)) by (field; lra).
    rewrite Eq, Ev. apply Rmult_le_compat_l; lra.
Qed.

Lemma getBoundVertices_Sphere_bounds
  (s : Sphere R) (tf : Transform3d R) (p : Vector3d R) :
  0 <= sphere_radius s -> in_Sphere s p ->
  bounded_by (getBoundVertices_Sphere s tf) (tf_apply tf p).
Proof.
  intros Hr Hp. rewrite getBoundVertices_Sphere_icosa.
  apply bounded_by_tf. intros u. apply icosa_reach; assumption.
Qed.

(** The coordinate [a] of the ellipsoid's icosahedron is that of the unit
    sphere's. *)
Lemma ellipsoid_icosa_a :
  sqrt 3 / ((1 + sqrt 5) / 2 * ((1 + sqrt 5) / 2)) = icosa_a 1.
Proof.
  unfold icosa_a.
  assert (H3 : 0 < sqrt 3) by (apply sqrt_lt_R0; lra).
  assert (H5 : 0 < sqrt 5) by (apply sqrt_lt_R0; lra).
  assert (H33 : sqrt 3 * sqrt 3 = 3) by (apply sqrt_sqrt; lra).
  assert (H55 : sqrt 5 * sqrt 5 = 5) by (apply sqrt_sqrt; lra).
  assert (H27 : sqrt 27 = 3 * sqrt 3) by (apply sqrt_lem_1; nra).
  assert (H15 : sqrt 15 = sqrt 3 * sqrt 5) by (apply sqrt_lem_1; nra).
  rewrite H27, H15.
  set (s3 := sqrt 3) in *. set (s5 := sqrt 5) in *. clearbody s3 s5.
  assert (Hd : 0 < 3 * s3 + s3 * s5) by nra.
  apply (Rmult_eq_reg_r (3 * s3 + s3 * s5)); [| lra].
  apply (Rmult_eq_reg_r ((1 + s5) * (1 + s5))); [| nra].
  field_simplify; [| lra | lra].
  clear H27 H15. nra.
Qed.

Lemma getBoundVertices_Ellipsoid_bounds
  (s : Ellipsoid R) (tf : Transform3d R) (p : Vector3d R) :
  in_Ellipsoid s p ->
  bounded_by (getBoundVertices_Ellipsoid s tf) (tf_apply tf p).
Proof.
  intros (q & Hq & ->). destruct s as [[A B C]]. cbn [radii vx vy vz].
  assert (Hq1 : dot q q <= 1 * 1) by lra.
  pose proof (fun u => @icosa_reach u q 1 Rle_0_1 Hq1) as Hreach.
  clear Hq Hq1.
  unfold getBoundVertices_Ellipsoid. cbn [radii coeff vx vy vz].
  cbv [lit half sadd ssub smul sdiv sopp ssqrt Scalar_R].
  change (IZR 1) with 1. change (IZR 2) with 2. change (IZR 3) with 3.
  change (IZR 5) with 5. change (IZR 0) with 0.
  rewrite ellipsoid_icosa_a.
  set (a := icosa_a 1). set (b := (1 + sqrt 5) / 2 * a).
  match goal with
  | |- bounded_by ?l _ =>
      change l with
        (map (tf_apply tf)
             [Vec3 0 (B * a) (C * b); Vec3 0 (- (B * a)) (C * b);
              Vec3 0 (B * a) (- (C * b)); Vec3 0 (- (B * a)) (- (C * b));
              Vec3 (A * a) (B * b) 0; Vec3 (- (A * a)) (B * b) 0;
              Vec3 (A * a) (- (B * b)) 0; Vec3 (- (A * a)) (- (B * b)) 0;
              Vec3 (A * b) 0 (C * a); Vec3 (A * b) 0 (- (C * a));
              Vec3 (- (A * b)) 0 (C * a); Vec3 (- (A * b)) 0 (- (C * a))])
  end.
  apply bounded_by_tf. intros [u0 u1 u2].
  destruct (Hreach (Vec3 (A * u0) (B * u1) (C * u2))) as (v & Hv & Lv).
  unfold icosa_vertices in Hv. fold a in Hv. change (icosa_b 1) with b in Hv.
  clearbody a b. destruct q as [x y z].
  unfold dot in Lv |- *; cbn [vx vy vz] in Lv |- *; scalarR.
  cbn [In] in Hv.
  repeat (destruct Hv as [<- | Hv]; [cbn [vx vy vz] in Lv;
    match goal with
    | |- exists v, In v ?l /\ _ => try_vertices l ltac:(lra)
    end |]).
  destruct Hv.
Qed.

(** X14: the twelve vertices sampled for a sphere (of radius at least 0)
    and for an ellipsoid are those of an icosahedron around the shape: they
    bound it under every transform. *)
Theorem getBoundVertices_bound_icosahedron (tf : Transform3d R) (p : Vector3d R) :
  (forall s : Sphere R,
      0 <= sphere_radius s -> in_Sphere s p ->
      bounded_by (getBoundVertices_Sphere s tf) (tf_apply tf p))
  /\ (forall s : Ellipsoid R,
      in_Ellipsoid s p ->
      bounded_by (getBoundVertices_Ellipsoid s tf) (tf_apply tf p)).
Proof.
  split; intros s.
  - apply getBoundVertices_Sphere_bounds.
  - apply getBoundVertices_Ellipsoid_bounds.
Qed.

Lemma getBoundVertices_bound_icosahedron_witness :
  let tf := Tf rot_z_90 (Vec3 1 2 3) in
  0 <= sphere_radius (mkSphere 2) /\ in_Sphere (mkSphere 2) (Vec3 1 1 1)
  /\ bounded_by (getBoundVertices_Sphere (mkSphere 2) tf) (tf_apply tf (Vec3 1 1 1)).
Proof.
  cbv zeta.
  assert (Hr : 0 <= sphere_radius (mkSphere 2)) by (cbn; lra).
  assert (Hin : in_Sphere (mkSphere 2) (Vec3 1 1 1)).
  { unfold in_Sphere, dot; cbn; scalarR. lra. }
  split; [exact Hr | split; [exact Hin |]].
  exact (proj1 (getBoundVertices_bound_icosahedron (Tf rot_z_90 (Vec3 1 2 3)) _)
               (mkSphere 2) Hr Hin).
Defined.

(** X15: the 36 vertices sampled for a capsule of radius at least 0 bound
    it under every transform. *)
Theorem getBoundVertices_Capsule_bounds
  (s : Capsule R) (tf : Transform3d R) (p : Vector3d R) :
  0 <= capsule_radius s -> in_Capsule s p ->
  bounded_by (getBoundVertices_Capsule s tf) (tf_apply tf p).
Proof.
  intros Hr (t & q & Ht & Hq & ->). destruct s as [r lz].
  cbn [capsule_radius capsule_lz] in *.
  pose proof (fun u => @icosa_reach u q r Hr Hq) as Hreach. clear Hq.
  unfold getBoundVertices_Capsule. cbn [capsule_radius capsule_lz].
  cbv [lit half sadd ssub smul sdiv sopp ssqrt Scalar_R].
  change (IZR 1) with 1. change (IZR 2) with 2. change (IZR 3) with 3.
  change (IZR 5) with 5. change (IZR 0) with 0. change (IZR 6) with 6.
  change (IZR 15) with 15. change (IZR 27) with 27.
  change (r * 6 / (sqrt 27 + sqrt 15)) with (icosa_a r).
  change ((1 + sqrt 5) / 2 * icosa_a r) with (icosa_b r).
  assert (Hhl : Rabs t <= lz * / 2) by exact Ht. clear Ht.
  set (a := icosa_a r) in *. set (b := icosa_b r) in *. set (hl := lz * / 2) in *.
  set (r2 := r * 2 / sqrt 3). set (c := / 2 * r2).
  match goal with
  | |- bounded_by ?l _ =>
      change l with
        (map (tf_apply tf)
           [Vec3 0 a (b + hl); Vec3 0 (- a) (b + hl); Vec3 0 a (- b + hl);
            Vec3 0 (- a) (- b + hl); Vec3 a b hl; Vec3 (- a) b hl;
            Vec3 a (- b) hl; Vec3 (- a) (- b) hl; Vec3 b 0 (a + hl);
            Vec3 b 0 (- a + hl); Vec3 (- b) 0 (a + hl); Vec3 (- b) 0 (- a + hl);
            Vec3 0 a (b - hl); Vec3 0 (- a) (b - hl); Vec3 0 a (- b - hl);
            Vec3 0 (- a) (- b - hl); Vec3 a b (- hl); Vec3 (- a) b (- hl);
            Vec3 a (- b) (- hl); Vec3 (- a) (- b) (- hl); Vec3 b 0 (a - hl);
            Vec3 b 0 (- a - hl); Vec3 (- b) 0 (a - hl); Vec3 (- b) 0 (- a - hl);
            Vec3 r2 0 hl; Vec3 c r hl; Vec3 (- c) r hl; Vec3 (- r2) 0 hl;
            Vec3 (- c) (- r) hl; Vec3 c (- r) hl;
            Vec3 r2 0 (- hl); Vec3 c r (- hl); Vec3 (- c) r (- hl);
            Vec3 (- r2) 0 (- hl); Vec3 (- c) (- r) (- hl); Vec3 c (- r) (- hl)])
  end.
  apply bounded_by_tf. intros [u0 u1 u2].
  destruct (Hreach (Vec3 u0 u1 u2)) as (v & Hv & Lv).
  unfold icosa_vertices in Hv. fold a in Hv. fold b in Hv.
  clearbody a b hl r2 c. destruct q as [x y z].
  apply Rabs_le_bounds in Hhl.
  assert (Hz : u2 * t <= u2 * hl \/ u2 * t <= u2 * - hl)
    by (destruct (Rle_dec 0 u2); [left | right]; nra).
  unfold dot, vadd in Lv |- *; cbn [vx vy vz] in Lv |- *; scalarR.
  cbn [In] in Hv.
  repeat (destruct Hv as [<- | Hv]; [cbn [vx vy vz] in Lv; destruct Hz;
    match goal with
    | |- exists v, In v ?l /\ _ => try_vertices l ltac:(lra)
    end |]).
  destruct Hv.
Qed.

Lemma getBoundVertices_Capsule_bounds_witness :
  let tf := Tf rot_z_90 (Vec3 1 2 3) in
  0 <= capsule_radius (mkCapsule 1 4)
  /\ in_Capsule (mkCapsule 1 4) (vadd (Vec3 0 0 2) (Vec3 0 0 1))
  /\ bounded_by (getBoundVertices_Capsule (mkCapsule 1 4) tf)
                (tf_apply tf (vadd (Vec3 0 0 2) (Vec3 0 0 1))).
Proof.
  cbv zeta.
  assert (Hr : 0 <= capsule_radius (mkCapsule 1 4)) by (cbn; lra).
  assert (Hin : in_Capsule (mkCapsule 1 4) (vadd (Vec3 0 0 2) (Vec3 0 0 1))).
  { exists 2, (Vec3 0 0 1). unfold dot; cbn; scalarR.
    split; [rabs | split; [lra | reflexivity]]. }
  split; [exact Hr | split; [exact Hin |]].
  exact (getBoundVertices_Capsule_bounds (Tf rot_z_90 (Vec3 1 2 3)) Hr Hin).
Defined.

Lemma le_of_sqr_le_nonneg (a b : R) : 0 <= b -> a * a <= b * b -> a <= b.
Proof.
  intros Hb Hab. destruct (Rle_dec a b) as [|Hn]; [assumption | exfalso].
  apply Rnot_le_lt in Hn. nra.
Qed.

(** One reach [W] of a hexagon vertex along [(u0, u1)]. *)
Lemma disc_reach (u0 u1 X Y r W : R) :
  0 <= r -> X * X + Y * Y <= r * r ->
  0 <= W -> u0 * u0 + u1 * u1 <= W * W ->
  u0 * X + u1 * Y <= r * W.
Proof.
  intros Hr Hd HW HWW.
  apply le_of_sqr_le_nonneg; [apply Rmult_le_pos; assumption |].
  pose proof (Rle_0_sqr (u0 * Y - u1 * X)) as Hs. unfold Rsqr in Hs.
  assert (E : (u0 * X + u1 * Y) * (u0 * X + u1 * Y)
              + (u0 * Y - u1 * X) * (u0 * Y - u1 * X)
              = (u0 * u0 + u1 * u1) * (X * X + Y * Y)) by ring.
  assert (Hn : 0 <= u0 * u0 + u1 * u1) by nra.
  pose proof (Rmult_le_compat_l _ _ _ Hn Hd) as H1.
  assert (Hrr : 0 <= r * r) by nra.
  pose proof (Rmult_le_compat_r _ _ _ Hrr HWW) as H2.
  replace (r * W * (r * W)) with (W * W * (r * r)) by ring.
  lra.
Qed.

(** The hexagon of [getBoundVertices] is circumscribed to the circle of the
    given radius: along every direction of the plane one of its six vertices
    reaches beyond each point of the disc. *)
Lemma hexagon_reach (u0 u1 X Y r : R) :
  0 <= r -> X * X + Y * Y <= r * r ->
  let r2 := r * 2 / sqrt 3 in
  let a := / 2 * r2 in
  u0 * X + u1 * Y <= u0 * r2
  \/ u0 * X + u1 * Y <= u0 * a + u1 * r
  \/ u0 * X + u1 * Y <= u0 * - a + u1 * r
  \/ u0 * X + u1 * Y <= u0 * - r2
  \/ u0 * X + u1 * Y <= u0 * - a + u1 * - r
  \/ u0 * X + u1 * Y <= u0 * a + u1 * - r.
Proof.
  intros Hr Hd r2 a.
  assert (H3 : 0 < sqrt 3) by (apply sqrt_lt_R0; lra).
  assert (H33 : sqrt 3 * sqrt 3 = 3) by (apply sqrt_sqrt; lra).
  set (k := / sqrt 3).
  assert (Hk : 0 < k) by (apply Rinv_0_lt_compat; assumption).
  assert (Hks : k * sqrt 3 = 1) by (unfold k; field; lra).
  assert (Hkk : 3 * (k * k) = 1) by nra.
  assert (Er2 : r2 = r * (2 * k)) by (unfold r2, k; field; lra).
  assert (Ea : a = r * k) by (unfold a; rewrite Er2; field).
  rewrite Er2, Ea. clearbody k. clear Er2 Ea r2 a Hks H33 H3.
  pose proof (@disc_reach u0 u1 X Y r) as Hreach.
  specialize (Hreach) with (1 := Hr) (2 := Hd).
  set (m := k * u0).
  assert (Hm : u0 * u0 = 3 * (m * m)).
  { unfold m. replace (3 * (k * u0 * (k * u0))) with (3 * (k * k) * (u0 * u0)) by ring.
    rewrite Hkk. ring. }
  assert (Hm0 : 0 <= u0 -> 0 <= m) by (intros; unfold m; nra).
  assert (Hm1 : u0 < 0 -> m < 0) by (intros; unfold m; nra).
  replace (u0 * (r * (2 * k))) with (r * (2 * m)) by (unfold m; ring).
  replace (u0 * - (r * (2 * k))) with (r * (2 * - m)) by (unfold m; ring).
  replace (u0 * (r * k) + u1 * r) with (r * (m + u1)) by (unfold m; ring).
  replace (u0 * (r * k) + u1 * - r) with (r * (m - u1)) by (unfold m; ring).
  replace (u0 * - (r * k) + u1 * r) with (r * (- m + u1)) by (unfold m; ring).
  replace (u0 * - (r * k) + u1 * - r) with (r * (- m - u1)) by (unfold m; ring).
  clearbody m. clear Hkk Hk k.
  destruct (Rle_dec 0 u0) as [P0 | N0], (Rle_dec 0 u1) as [P1 | N1].
  - specialize (Hm0 P0). destruct (Rle_dec u1 m).
    + left. apply Hreach; nra.
    + right; left. apply Hreach; nra.
  - specialize (Hm0 P0). apply Rnot_le_lt in N1. destruct (Rle_dec (- u1) m).
    + left. apply Hreach; nra.
    + do 5 right. apply Hreach; nra.
  - apply Rnot_le_lt in N0. specialize (Hm1 N0). destruct (Rle_dec u1 (- m)).
    + do 3 right; left. apply Hreach; nra.
    + do 2 right; left. apply Hreach; nra.
  - apply Rnot_le_lt in N0, N1. specialize (Hm1 N0). destruct (Rle_dec (- u1) (- m)).
    + do 3 right; left. apply Hreach; nra.
    + do 4 right; left. apply Hreach; nra.
Qed.

Lemma getBoundVertices_Cylinder_bounds
  (s : Cylinder R) (tf : Transform3d R) (p : Vector3d R) :
  0 <= cylinder_radius s -> in_Cylinder s p ->
  bounded_by (getBoundVertices_Cylinder s tf) (tf_apply tf p).
Proof.
  destruct s as [r lz], p as [x y z]. unfold in_Cylinder.
  cbn [cylinder_radius cylinder_lz vx vy vz]. intros Hr (Hd & Hz).
  pose proof (fun u0 u1 => @hexagon_reach u0 u1 x y r Hr Hd) as Hreach.
  cbv zeta in Hreach.
  unfold getBoundVertices_Cylinder. cbn [cylinder_radius cylinder_lz].
  cbv [lit half sadd ssub smul sdiv sopp ssqrt Scalar_R].
  change (IZR 2) with 2. change (IZR 3) with 3.
  assert (Hhl : Rabs z <= lz * / 2) by exact Hz. clear Hz.
  set (hl := lz * / 2) in *. set (r2 := r * 2 / sqrt 3) in *.
  set (a := / 2 * r2) in *.
  match goal with
  | |- bounded_by ?l _ =>
      change l with
        (map (tf_apply tf)
           [Vec3 r2 0 (- hl); Vec3 a r (- hl); Vec3 (- a) r (- hl);
            Vec3 (- r2) 0 (- hl); Vec3 (- a) (- r) (- hl); Vec3 a (- r) (- hl);
            Vec3 r2 0 hl; Vec3 a r hl; Vec3 (- a) r hl;
            Vec3 (- r2) 0 hl; Vec3 (- a) (- r) hl; Vec3 a (- r) hl])
  end.
  clearbody a r2 hl.
  apply bounded_by_tf. intros [u0 u1 u2].
  apply Rabs_le_bounds in Hhl.
  assert (Hz : u2 * z <= u2 * hl \/ u2 * z <= u2 * - hl)
    by (destruct (Rle_dec 0 u2); [left | right]; nra).
  unfold dot; cbn [vx vy vz]; scalarR.
  destruct (Hreach u0 u1) as [H | [H | [H | [H | [H | H]]]]]; destruct Hz;
    match goal with
    | |- exists v, In v ?l /\ _ => try_vertices l ltac:(lra)
    end.
Qed.

Lemma getBoundVertices_Cone_bounds (s : Cone R) (tf : Transform3d R) (p : Vector3d R) :
  0 <= cone_radius s -> in_Cone s p ->
  bounded_by (getBoundVertices_Cone s tf) (tf_apply tf p).
Proof.
  destruct s as [r lz]. unfold in_Cone.
  cbn [cone_radius cone_lz]. intros Hr (k & x & y & Hk & Hd & ->).
  assert (Hd' : r * x * (r * x) + r * y * (r * y) <= r * r).
  { replace (r * x * (r * x) + r * y * (r * y)) with (r * r * (x * x + y * y)) by ring.
    assert (0 <= r * r) by nra. nra. }
  pose proof (fun u0 u1 => @hexagon_reach u0 u1 (r * x) (r * y) r Hr Hd') as Hreach.
  cbv zeta in Hreach.
  unfold getBoundVertices_Cone. cbn [cone_radius cone_lz].
  cbv [lit half sadd ssub smul sdiv sopp ssqrt Scalar_R].
  change (IZR 2) with 2. change (IZR 3) with 3. change (IZR 0) with 0.
  replace (lz / 2 - k * lz) with ((1 - k) * (lz * / 2) + k * - (lz * / 2)) by field.
  set (hl := lz * / 2) in *. set (r2 := r * 2 / sqrt 3) in *.
  set (a := / 2 * r2) in *.
  match goal with
  | |- bounded_by ?l _ =>
      change l with
        (map (tf_apply tf)
           [Vec3 r2 0 (- hl); Vec3 a r (- hl); Vec3 (- a) r (- hl);
            Vec3 (- r2) 0 (- hl); Vec3 (- a) (- r) (- hl); Vec3 a (- r) (- hl);
            Vec3 0 0 hl])
  end.
  clearbody a r2 hl.
  apply bounded_by_tf. intros [u0 u1 u2].
  unfold dot; cbn [vx vy vz]; scalarR.
  assert (E : u0 * (k * r * x) + u1 * (k * r * y) + u2 * ((1 - k) * hl + k * - hl)
              = (1 - k) * (u2 * hl)
                + k * (u0 * (r * x) + u1 * (r * y) + u2 * - hl)) by ring.
  rewrite E. clear E.
  pose proof (Hreach u0 u1) as Hh. clear Hreach.
  set (B := u0 * (r * x) + u1 * (r * y)) in *. clearbody B.
  destruct (Rle_dec (B + u2 * - hl) (u2 * hl)) as [Ha | Hb].
  - exists (Vec3 0 0 hl). split; [cbn; tauto |]. cbn [vx vy vz]. nra.
  - apply Rnot_le_lt in Hb.
    destruct Hh as [H | [H | [H | [H | [H | H]]]]];
      match goal with
      | |- exists v, In v ?l /\ _ => try_vertices l ltac:(nra)
      end.
Qed.

(** X16: the hexagon and the apex sampled for a cone, and the two hexagons
    sampled for a cylinder, of radius at least 0, bound the shape under every
    transform. *)
Theorem getBoundVertices_bound_hexagon (tf : Transform3d R) (p : Vector3d R) :
  (forall s : Cone R,
      0 <= cone_radius s -> in_Cone s p ->
      bounded_by (getBoundVertices_Cone s tf) (tf_apply tf p))
  /\ (forall s : Cylinder R,
      0 <= cylinder_radius s -> in_Cylinder s p ->
      bounded_by (getBoundVertices_Cylinder s tf) (tf_apply tf p)).
Proof.
  split; intros s.
  - apply getBoundVertices_Cone_bounds.
  - apply getBoundVertices_Cylinder_bounds.
Qed.

Lemma getBoundVertices_bound_hexagon_witness :
  let tf := Tf rot_z_90 (Vec3 1 2 3) in
  0 <= cylinder_radius (mkCylinder 2 4) /\ in_Cylinder (mkCylinder 2 4) (Vec3 1 1 2)
  /\ bounded_by (getBoundVertices_Cylinder (mkCylinder 2 4) tf)
                (tf_apply tf (Vec3 1 1 2)).
Proof.
  cbv zeta.
  assert (Hr : 0 <= cylinder_radius (mkCylinder 2 4)) by (cbn; lra).
  assert (Hin : in_Cylinder (mkCylinder 2 4) (Vec3 1 1 2)).
  { unfold in_Cylinder; cbn. split; [lra | rabs]. }
  split; [exact Hr | split; [exact Hin |]].
  exact (proj2 (getBoundVertices_bound_hexagon (Tf rot_z_90 (Vec3 1 2 3)) _)
               (mkCylinder 2 4) Hr Hin).
Defined.

Lemma mat_vec_mat_mul (a b : Matrix3d R) (v : Vector3d R) :
  mat_vec (mat_mul a b) v = mat_vec a (mat_vec b v).
Proof.
  destruct a as [[] [] []], b as [[] [] []], v.
  unfold mat_vec, mat_mul, mcol, mcoeff, dot; cbn; scalarR. f_equal; ring.
Qed.

Lemma tf_apply_tf_mul (a b : Transform3d R) (v : Vector3d R) :
  tf_apply (tf_mul a b) v = tf_apply a (tf_apply b v).
Proof.
  destruct a as [[[] [] []] []], b as [[[] [] []] []], v.
  unfold tf_apply, tf_mul, mat_vec, mat_mul, mcol, mcoeff, dot, vadd; cbn; scalarR.
  f_equal; ring.
Qed.

(** X17: sampling under the composed transform [a * b] is sampling under
    [b] and then moving each vertex by [a], for all eight shapes. *)
Theorem getBoundVertices_composes (a b : Transform3d R) :
  (forall s : Box R,
      getBoundVertices_Box s (tf_mul a b)
      = map (tf_apply a) (getBoundVertices_Box s b))
  /\ (forall s : Sphere R,
      getBoundVertices_Sphere s (tf_mul a b)
      = map (tf_apply a) (getBoundVertices_Sphere s b))
  /\ (forall s : Ellipsoid R,
      getBoundVertices_Ellipsoid s (tf_mul a b)
      = map (tf_apply a) (getBoundVertices_Ellipsoid s b))
  /\ (forall s : Capsule R,
      getBoundVertices_Capsule s (tf_mul a b)
      = map (tf_apply a) (getBoundVertices_Capsule s b))
  /\ (forall s : Cone R,
      getBoundVertices_Cone s (tf_mul a b)
      = map (tf_apply a) (getBoundVertices_Cone s b))
  /\ (forall s : Cylinder R,
      getBoundVertices_Cylinder s (tf_mul a b)
      = map (tf_apply a) (getBoundVertices_Cylinder s b))
  /\ (forall s : Convex R,
      getBoundVertices_Convex s (tf_mul a b)
      = map (tf_apply a) (getBoundVertices_Convex s b))
  /\ (forall s : TriangleP R,
      getBoundVertices_TriangleP s (tf_mul a b)
      = map (tf_apply a) (getBoundVertices_TriangleP s b)).
Proof.
  repeat match goal with |- _ /\ _ => split end; intros s;
    try (unfold getBoundVertices_Convex; rewrite map_map; apply map_ext;
         intros; apply tf_apply_tf_mul);
    unfold getBoundVertices_Box, getBoundVertices_Sphere, getBoundVertices_Ellipsoid,
      getBoundVertices_Capsule, getBoundVertices_Cone, getBoundVertices_Cylinder,
      getBoundVertices_TriangleP;
    cbv zeta; cbn [map]; rewrite !tf_apply_tf_mul; reflexivity.
Qed.

(** ** The dedicated AABB against the box of the sampled vertices *)

Lemma AABB_add_inside (bv b : AABB R) (p : Vector3d R) :
  AABB_inside bv b -> AABB_holds b p -> AABB_inside (AABB_add bv p) b.
Proof.
  destruct bv as [[l0 l1 l2] [h0 h1 h2]], b as [[L0 L1 L2] [H0 H1 H2]],
    p as [x y z].
  unfold AABB_inside, AABB_holds, vle, AABB_add, vmin, vmax; cbn.
  rewrite !smin_R, !smax_R.
  intros [(A0 & A1 & A2) (B0 & B1 & B2)] [(C0 & C1 & C2) (D0 & D1 & D2)].
  repeat split; first [apply Rmin_glb | apply Rmax_lub]; assumption.
Qed.

Lemma fold_AABB_add_inside (l : list (Vector3d R)) (b : AABB R) :
  (forall p, In p l -> AABB_holds b p) ->
  forall bv, AABB_inside bv b -> AABB_inside (fold_left AABB_add l bv) b.
Proof.
  induction l as [|p l IH]; intros Hl bv Hbv; cbn; [assumption |].
  apply IH; [intros q Hq; apply Hl; right; assumption |].
  apply AABB_add_inside; [assumption | apply Hl; left; reflexivity].
Qed.

(** The min/max box of a list of points is the box about [T] reaching [k]
    when every point is within [k] of [T] in each coordinate and each of the
    six bounds is met by a point. *)
Lemma AABB_of_points_about (l : list (Vector3d R)) (T k : Vector3d R) :
  (forall p, In p l -> AABB_holds (AABB_about T k) p) ->
  (exists p, In p l /\ vx p = vx T - vx k) ->
  (exists p, In p l /\ vy p = vy T - vy k) ->
  (exists p, In p l /\ vz p = vz T - vz k) ->
  (exists p, In p l /\ vx p = vx T + vx k) ->
  (exists p, In p l /\ vy p = vy T + vy k) ->
  (exists p, In p l /\ vz p = vz T + vz k) ->
  AABB_of_points l = AABB_about T k.
Proof.
  intros Hall (p0 & I0 & E0) (p1 & I1 & E1) (p2 & I2 & E2)
    (q0 & J0 & F0) (q1 & J1 & F1) (q2 & J2 & F2).
  assert (Hin : AABB_inside (AABB_of_points l) (AABB_about T k)).
  { destruct l as [|p l]; [destruct I0 |]. cbn [AABB_of_points].
    apply fold_AABB_add_inside.
    - intros q Hq. apply Hall. right; assumption.
    - pose proof (Hall p (or_introl eq_refl)) as Hp.
      unfold AABB_inside, AABB_holds in *. cbn [min_ max_]. tauto. }
  apply AABB_of_points_holds in I0, I1, I2, J0, J1, J2.
  set (bv := AABB_of_points l) in *. clearbody bv.
  destruct bv as [[l0 l1 l2] [h0 h1 h2]], T as [t0 t1 t2], k as [k0 k1 k2].
  unfold AABB_inside, AABB_holds, AABB_about, vle, vsub, vadd in *.
  cbn [min_ max_ vx vy vz] in *. scalarR.
  f_equal; f_equal; lra.
Qed.

Lemma tf_apply_Identity (T v : Vector3d R) : tf_apply (Tf Identity T) v = vadd v T.
Proof.
  destruct T, v. unfold tf_apply, Identity, mat_vec, dot, vadd; cbn; scalarR.
  f_equal; ring.
Qed.

Lemma icosa_b_unit_upper : icosa_b 1 < 108 / 100.
Proof.
  unfold icosa_b, icosa_a.
  assert (H5 : sqrt 5 <= 2237 / 1000) by (apply sqrt_upper; lra).
  assert (H27 : 5196 / 1000 <= sqrt 27) by (apply sqrt_lower; lra).
  assert (H15 : 3872 / 1000 <= sqrt 15) by (apply sqrt_lower; lra).
  assert (H50 : 0 <= sqrt 5) by apply sqrt_pos.
  set (q := sqrt 27 + sqrt 15) in *.
  assert (Hq : 9068 / 1000 <= q) by (unfold q; lra).
  assert (Hi : / q <= 1000 / 9068).
  { replace (1000 / 9068) with (/ (9068 / 1000)) by field.
    apply Rinv_le_contravar; lra. }
  assert (Hqi : 0 < / q) by (apply Rinv_0_lt_compat; lra).
  unfold Rdiv. rewrite Rmult_1_l.
  assert (He : 6 * / q <= 6 * (1000 / 9068)) by lra.
  assert (Hphi : (1 + sqrt 5) * / 2 <= 16185 / 10000) by lra.
  assert (Hphi0 : 0 <= (1 + sqrt 5) * / 2) by lra.
  assert (H6 : 0 <= 6 * / q) by lra.
  pose proof (Rmult_le_compat _ _ _ _ Hphi0 H6 Hphi He). lra.
Qed.

Lemma two_over_sqrt3_lower : 115 / 100 < 2 / sqrt 3.
Proof.
  assert (H3 : sqrt 3 <= 1733 / 1000) by (apply sqrt_upper; lra).
  assert (H30 : 0 < sqrt 3) by (apply sqrt_lt_R0; lra).
  assert (Hi : / (1733 / 1000) <= / sqrt 3) by (apply Rinv_le_contravar; lra).
  replace (/ (1733 / 1000)) with (1000 / 1733) in Hi by field.
  unfold Rdiv. lra.
Qed.

(** The order of the coordinates of the sampled vertices. *)
Lemma icosa_order (radius : R) :
  0 <= radius ->
  0 <= icosa_a radius /\ icosa_a radius <= icosa_b radius
  /\ radius <= icosa_b radius /\ icosa_b radius <= radius * 2 / sqrt 3.
Proof.
  intros Hr.
  assert (H5 : 1 <= sqrt 5) by (apply sqrt_lower; lra).
  assert (H27 : 0 < sqrt 27) by (apply sqrt_lt_R0; lra).
  assert (H15 : 0 < sqrt 15) by (apply sqrt_lt_R0; lra).
  assert (Ha : 0 <= icosa_a radius).
  { unfold icosa_a. apply Rmult_le_pos; [lra |].
    apply Rlt_le, Rinv_0_lt_compat. lra. }
  pose proof icosa_b_unit_lower as Hl. pose proof icosa_b_unit_upper as Hu.
  pose proof two_over_sqrt3_lower as H3.
  rewrite (icosa_b_linear radius).
  repeat split.
  - exact Ha.
  - rewrite <- (icosa_b_linear radius). unfold icosa_b. nra.
  - nra.
  - unfold Rdiv in *. rewrite Rmult_assoc. apply Rmult_le_compat_l; lra.
Qed.

Ltac held_by_box :=
  intros ? [];
  repeat match goal with
         | H : _ \/ _ |- _ => destruct H
         | H : In _ (_ :: _) |- _ => destruct H
         | H : In _ [] |- _ => destruct H
         | H : False |- _ => destruct H
         | H : _ = ?p |- AABB_holds _ ?p =>
             subst p; unfold AABB_holds, AABB_about, vle, vadd, vsub;
             cbn [min_ max_ vx vy vz];
             cbv [sadd ssub Scalar_R]; lra
         end.

Ltac met_by_vertex :=
  match goal with
  | |- exists v, In v ?l /\ _ => try_vertices l ltac:(lra)
  end.

Lemma AABB_of_points_Sphere_Identity (s : Sphere R) (T : Vector3d R) :
  0 <= sphere_radius s ->
  AABB_of_points (getBoundVertices_Sphere s (Tf Identity T))
  = AABB_about T (Constant (icosa_b (sphere_radius s))).
Proof.
  destruct s as [r], T as [t0 t1 t2]. cbn [sphere_radius]. intros Hr.
  destruct (icosa_order Hr) as (Ha & Hab & _).
  rewrite getBoundVertices_Sphere_icosa. cbn [sphere_radius].
  unfold icosa_vertices. cbn [map]. rewrite !tf_apply_Identity.
  set (a := icosa_a r) in *. set (b := icosa_b r) in *. clearbody a b.
  unfold vadd, Constant; cbn [vx vy vz]. scalarR.
  apply AABB_of_points_about; cbn [vx vy vz];
    [held_by_box | met_by_vertex ..].
Qed.

Ltac fold_literals :=
  change (IZR 0) with 0; change (IZR 1) with 1; change (IZR 2) with 2;
  change (IZR 3) with 3; change (IZR 5) with 5; change (IZR 6) with 6;
  change (IZR 15) with 15; change (IZR 27) with 27.

Lemma AABB_of_points_Ellipsoid_Identity (s : Ellipsoid R) (T : Vector3d R) :
  vle (Constant 0%fcl) (radii s) ->
  AABB_of_points (getBoundVertices_Ellipsoid s (Tf Identity T))
  = AABB_about T (vscale (radii s) (icosa_b 1)).
Proof.
  destruct s as [[A B C]], T as [t0 t1 t2]. cbn [radii Constant vx vy vz].
  scalarR. intros (HA & HB & HC).
  destruct (icosa_order Rle_0_1) as (Ha & Hab & _).
  unfold getBoundVertices_Ellipsoid. cbn [radii coeff vx vy vz].
  cbv [lit half sadd ssub smul sdiv sopp ssqrt Scalar_R]. fold_literals.
  rewrite ellipsoid_icosa_a. change ((1 + sqrt 5) / 2 * icosa_a 1) with (icosa_b 1).
  rewrite !tf_apply_Identity.
  set (a := icosa_a 1) in *. set (b := icosa_b 1) in *. clearbody a b.
  assert (0 <= A * a) by (apply Rmult_le_pos; assumption).
  assert (0 <= B * a) by (apply Rmult_le_pos; assumption).
  assert (0 <= C * a) by (apply Rmult_le_pos; assumption).
  assert (A * a <= A * b) by (apply Rmult_le_compat_l; assumption).
  assert (B * a <= B * b) by (apply Rmult_le_compat_l; assumption).
  assert (C * a <= C * b) by (apply Rmult_le_compat_l; assumption).
  unfold vadd, vscale; cbn [vx vy vz]. scalarR.
  set (Aa := A * a) in *. set (Ab := A * b) in *. set (Ba := B * a) in *.
  set (Bb := B * b) in *. set (Ca := C * a) in *. set (Cb := C * b) in *.
  clearbody Aa Ab Ba Bb Ca Cb.
  apply AABB_of_points_about; cbn [vx vy vz];
    [held_by_box | met_by_vertex ..].
Qed.

Lemma AABB_of_points_Capsule_Identity (s : Capsule R) (T : Vector3d R) :
  0 <= capsule_radius s -> 0 <= capsule_lz s ->
  AABB_of_points (getBoundVertices_Capsule s (Tf Identity T))
  = AABB_about T (Vec3 (capsule_radius s * 2 / sqrt 3)
                       (icosa_b (capsule_radius s))
                       (icosa_b (capsule_radius s) + capsule_lz s / 2)).
Proof.
  destruct s as [r lz], T as [t0 t1 t2]. cbn [capsule_radius capsule_lz].
  intros Hr Hlz.
  destruct (icosa_order Hr) as (Ha & Hab & Hrb & Hbr).
  unfold getBoundVertices_Capsule. cbn [capsule_radius capsule_lz].
  cbv [lit half sadd ssub smul sdiv sopp ssqrt Scalar_R]. fold_literals.
  change (r * 6 / (sqrt 27 + sqrt 15)) with (icosa_a r).
  change ((1 + sqrt 5) / 2 * icosa_a r) with (icosa_b r).
  rewrite !tf_apply_Identity.
  assert (Hhl : 0 <= lz * / 2) by lra.
  replace (lz / 2) with (lz * / 2) by reflexivity.
  assert (Hr2 : 0 <= r * 2 / sqrt 3) by lra.
  set (a := icosa_a r) in *. set (b := icosa_b r) in *. set (hl := lz * / 2) in *.
  set (r2 := r * 2 / sqrt 3) in *. clearbody a b hl r2.
  assert (Hc : / 2 * r2 <= r2) by lra.
  set (c := / 2 * r2) in *. assert (0 <= c) by (unfold c; lra). clearbody c.
  unfold vadd; cbn [vx vy vz]. scalarR.
  apply AABB_of_points_about; cbn [vx vy vz];
    [held_by_box | met_by_vertex ..].
Qed.

Lemma AABB_of_points_Cone_Identity (s : Cone R) (T : Vector3d R) :
  0 <= cone_radius s -> 0 <= cone_lz s ->
  AABB_of_points (getBoundVertices_Cone s (Tf Identity T))
  = AABB_about T (Vec3 (cone_radius s * 2 / sqrt 3) (cone_radius s)
                       (cone_lz s / 2)).
Proof.
  destruct s as [r lz], T as [t0 t1 t2]. cbn [cone_radius cone_lz].
  intros Hr Hlz.
  pose proof two_over_sqrt3_lower as H3.
  unfold getBoundVertices_Cone. cbn [cone_radius cone_lz].
  cbv [lit half sadd ssub smul sdiv sopp ssqrt Scalar_R]. fold_literals.
  rewrite !tf_apply_Identity.
  assert (Hhl : 0 <= lz * / 2) by lra.
  replace (lz / 2) with (lz * / 2) by reflexivity.
  assert (Hr2 : 0 <= r * 2 / sqrt 3).
  { unfold Rdiv in *. rewrite Rmult_assoc. apply Rmult_le_pos; lra. }
  set (hl := lz * / 2) in *. set (r2 := r * 2 / sqrt 3) in *. clearbody hl r2.
  assert (Hc : / 2 * r2 <= r2) by lra.
  set (c := / 2 * r2) in *. assert (0 <= c) by (unfold c; lra). clearbody c.
  unfold vadd; cbn [vx vy vz]. scalarR.
  apply AABB_of_points_about; cbn [vx vy vz];
    [held_by_box | met_by_vertex ..].
Qed.

Lemma AABB_of_points_Cylinder_Identity (s : Cylinder R) (T : Vector3d R) :
  0 <= cylinder_radius s -> 0 <= cylinder_lz s ->
  AABB_of_points (getBoundVertices_Cylinder s (Tf Identity T))
  = AABB_about T (Vec3 (cylinder_radius s * 2 / sqrt 3) (cylinder_radius s)
                       (cylinder_lz s / 2)).
Proof.
  destruct s as [r lz], T as [t0 t1 t2]. cbn [cylinder_radius cylinder_lz].
  intros Hr Hlz.
  pose proof two_over_sqrt3_lower as H3.
  unfold getBoundVertices_Cylinder. cbn [cylinder_radius cylinder_lz].
  cbv [lit half sadd ssub smul sdiv sopp ssqrt Scalar_R]. fold_literals.
  rewrite !tf_apply_Identity.
  assert (Hhl : 0 <= lz * / 2) by lra.
  replace (lz / 2) with (lz * / 2) by reflexivity.
  assert (Hr2 : 0 <= r * 2 / sqrt 3).
  { unfold Rdiv in *. rewrite Rmult_assoc. apply Rmult_le_pos; lra. }
  set (hl := lz * / 2) in *. set (r2 := r * 2 / sqrt 3) in *. clearbody hl r2.
  assert (Hc : / 2 * r2 <= r2) by lra.
  set (c := / 2 * r2) in *. assert (0 <= c) by (unfold c; lra). clearbody c.
  unfold vadd; cbn [vx vy vz]. scalarR.
  apply AABB_of_points_about; cbn [vx vy vz];
    [held_by_box | met_by_vertex ..].
Qed.

(** The dedicated formulas under the identity rotation. *)
Lemma computeBV_AABB_Identity (T : Vector3d R) :
  (forall s : Sphere R,
      computeBV_AABB_Sphere s (Tf Identity T)
      = AABB_about T (Constant (sphere_radius s)))
  /\ (forall s : Ellipsoid R,
      vle (Constant 0%fcl) (radii s) ->
      computeBV_AABB_Ellipsoid s (Tf Identity T) = AABB_about T (radii s))
  /\ (forall s : Capsule R,
      0 <= capsule_lz s ->
      computeBV_AABB_Capsule s (Tf Identity T)
      = AABB_about T (Vec3 (capsule_radius s) (capsule_radius s)
                           (capsule_radius s + capsule_lz s / 2)))
  /\ (forall s : Cone R,
      0 <= cone_radius s -> 0 <= cone_lz s ->
      computeBV_AABB_Cone s (Tf Identity T)
      = AABB_about T (Vec3 (cone_radius s) (cone_radius s) (cone_lz s / 2)))
  /\ (forall s : Cylinder R,
      0 <= cylinder_radius s -> 0 <= cylinder_lz s ->
      computeBV_AABB_Cylinder s (Tf Identity T)
      = AABB_about T (Vec3 (cylinder_radius s) (cylinder_radius s)
                           (cylinder_lz s / 2))).
Proof.
  destruct T as [t0 t1 t2].
  split; [reflexivity |].
  split; [| split; [| split]].
  - intros [[A B C]] (HA & HB & HC). cbn [radii Constant vx vy vz] in *. scalarR.
    unfold computeBV_AABB_Ellipsoid, AABB_about, Identity, vsub, vadd, mcoeff,
      mrow, coeff; cbn. scalarR.
    rewrite !Rmult_0_l, !Rmult_1_l, !Rabs_R0, !Rabs_pos_eq by assumption.
    f_equal; f_equal; lra.
  - intros [r lz] Hlz. cbn [capsule_radius capsule_lz] in *.
    unfold computeBV_AABB_Capsule, AABB_about, Identity, vsub, vadd, mcoeff,
      mrow, coeff; cbn. scalarR.
    rewrite !Rmult_0_l, !Rmult_1_l, !Rabs_R0, !Rabs_pos_eq by assumption.
    f_equal; f_equal; lra.
  - intros [r lz] Hr Hlz. cbn [cone_radius cone_lz] in *.
    unfold computeBV_AABB_Cone, AABB_about, Identity, vsub, vadd, mcoeff,
      mrow, coeff; cbn. scalarR.
    rewrite !Rmult_0_l, !Rmult_1_l, !Rabs_R0, !Rabs_pos_eq by assumption.
    f_equal; f_equal; lra.
  - intros [r lz] Hr Hlz. cbn [cylinder_radius cylinder_lz] in *.
    unfold computeBV_AABB_Cylinder, AABB_about, Identity, vsub, vadd, mcoeff,
      mrow, coeff; cbn. scalarR.
    rewrite !Rmult_0_l, !Rmult_1_l, !Rabs_R0, !Rabs_pos_eq by assumption.
    f_equal; f_equal; lra.
Qed.

(** The triangle: the three-point box is the box of the three points. *)
Lemma AABB_of_points_TriangleP (s : TriangleP R) (tf : Transform3d R) :
  AABB_of_points (getBoundVertices_TriangleP s tf) = computeBV_AABB_TriangleP s tf.
Proof. reflexivity. Qed.

Lemma AABB_add_default (p : Vector3d R) :
  representable p -> AABB_add AABB_default p = mkAABB p p.
Proof.
  destruct p as [x y z]. unfold representable; cbn [vx vy vz].
  intros (Hx & Hy & Hz). apply Rabs_le_bounds in Hx, Hy, Hz.
  unfold AABB_add, AABB_default, Constant, vmin, vmax; cbn.
  rewrite !smin_R, !smax_R. scalarR.
  rewrite !Rmin_right, !Rmax_right by lra. reflexivity.
Qed.

Lemma fold_left_AABB_add_map (f : Vector3d R -> Vector3d R) (l : list (Vector3d R)) :
  forall bv, fold_left (fun b p => AABB_add b (f p)) l bv
             = fold_left AABB_add (map f l) bv.
Proof. induction l as [|p l IH]; intros bv; cbn; [reflexivity | apply IH]. Qed.

(** The convex polytope: the loop from the empty box gives the box of the
    points when the first of them is a value of [FCL_REAL]. *)
Lemma AABB_of_points_Convex (s : Convex R) (tf : Transform3d R) :
  (forall p, hd_error (getBoundVertices_Convex s tf) = Some p -> representable p) ->
  AABB_of_points (getBoundVertices_Convex s tf) = computeBV_AABB_Convex s tf.
Proof.
  unfold getBoundVertices_Convex, computeBV_AABB_Convex. cbv zeta.
  rewrite (fold_left_AABB_add_map
             (fun p => vadd (mat_vec (linear tf) p) (translation tf))).
  change (fun p => vadd (mat_vec (linear tf) p) (translation tf))
    with (tf_apply tf).
  destruct (points s) as [|p l]; cbn [map hd_error AABB_of_points fold_left];
    [reflexivity |].
  intros Hp. rewrite AABB_add_default; [reflexivity | apply Hp; reflexivity].
Qed.

Lemma AABB_inside_Sphere (s : Sphere R) (tf : Transform3d R) :
  rigid tf -> 0 <= sphere_radius s ->
  AABB_inside (computeBV_AABB_Sphere s tf)
              (AABB_of_points (getBoundVertices_Sphere s tf)).
Proof.
  intros Hrigid Hr. destruct s as [radius]. cbn [sphere_radius] in Hr.
  rewrite getBoundVertices_Sphere_icosa. cbn [sphere_radius].
  destruct (orthonormal_unit_rows Hrigid) as (U0 & U1 & U2).
  destruct (icosa_vertex_support U0 Hr) as (p0 & q0 & Hp0 & Hq0 & Lp0 & Eq0).
  destruct (icosa_vertex_support U1 Hr) as (p1 & q1 & Hp1 & Hq1 & Lp1 & Eq1).
  destruct (icosa_vertex_support U2 Hr) as (p2 & q2 & Hp2 & Hq2 & Lp2 & Eq2).
  apply (in_map (tf_apply tf)), AABB_of_points_holds in Hp0, Hq0, Hp1, Hq1, Hp2, Hq2.
  set (bv := AABB_of_points _) in *. clearbody bv.
  destruct Hp0 as [_ (Hp0 & _ & _)], Hq0 as [(Hq0 & _ & _) _].
  destruct Hp1 as [_ (_ & Hp1 & _)], Hq1 as [(_ & Hq1 & _) _].
  destruct Hp2 as [_ (_ & _ & Hp2)], Hq2 as [(_ & _ & Hq2) _].
  unfold tf_apply, mat_vec, vadd in Hp0, Hq0, Hp1, Hq1, Hp2, Hq2.
  cbn [vx vy vz] in Hp0, Hq0, Hp1, Hq1, Hp2, Hq2.
  unfold AABB_inside, vle, computeBV_AABB_Sphere, vadd, vsub, Constant.
  cbn [min_ max_ vx vy vz sphere_radius]. scalarR.
  repeat split; lra.
Qed.

(** The vertices sampled for a capsule hold, for each vertex [v] of the
    icosahedron, [v] moved to either end of the segment. *)
Lemma getBoundVertices_Capsule_icosa (s : Capsule R) (tf : Transform3d R)
  (v : Vector3d R) :
  In v (icosa_vertices (capsule_radius s)) ->
  In (tf_apply tf (vadd v (Vec3 0 0 (capsule_lz s * / 2))))
     (getBoundVertices_Capsule s tf)
  /\ In (tf_apply tf (vadd v (Vec3 0 0 (- (capsule_lz s * / 2)))))
        (getBoundVertices_Capsule s tf).
Proof.
  destruct s as [r lz]. cbn [capsule_radius capsule_lz].
  unfold getBoundVertices_Capsule. cbn [capsule_radius capsule_lz].
  cbv [lit half sadd ssub smul sdiv sopp ssqrt Scalar_R]. fold_literals.
  change (r * 6 / (sqrt 27 + sqrt 15)) with (icosa_a r).
  change ((1 + sqrt 5) / 2 * icosa_a r) with (icosa_b r).
  unfold icosa_vertices.
  set (a := icosa_a r). set (b := icosa_b r). set (hl := lz * / 2).
  set (r2 := r * 2 / sqrt 3). set (c := / 2 * r2). clearbody a b hl r2 c.
  intros Hv. cbn [In] in Hv.
  repeat (destruct Hv as [Hv | Hv];
          [subst v; unfold vadd; cbn [vx vy vz]; scalarR;
           split; cbn [In];
           repeat first [ left; solve [f_equal; f_equal; lra] | right ] |]).
  destruct Hv.
Qed.

Lemma AABB_inside_Capsule (s : Capsule R) (tf : Transform3d R) :
  rigid tf -> 0 <= capsule_radius s ->
  AABB_inside (computeBV_AABB_Capsule s tf)
              (AABB_of_points (getBoundVertices_Capsule s tf)).
Proof.
  intros Hrigid Hr.
  destruct (orthonormal_unit_rows Hrigid) as (U0 & U1 & U2).
  destruct (icosa_vertex_support U0 Hr) as (p0 & q0 & Hp0 & Hq0 & Lp0 & Eq0).
  destruct (icosa_vertex_support U1 Hr) as (p1 & q1 & Hp1 & Hq1 & Lp1 & Eq1).
  destruct (icosa_vertex_support U2 Hr) as (p2 & q2 & Hp2 & Hq2 & Lp2 & Eq2).
  destruct (getBoundVertices_Capsule_icosa s tf Hp0) as [Ap0 Bp0].
  destruct (getBoundVertices_Capsule_icosa s tf Hq0) as [Aq0 Bq0].
  destruct (getBoundVertices_Capsule_icosa s tf Hp1) as [Ap1 Bp1].
  destruct (getBoundVertices_Capsule_icosa s tf Hq1) as [Aq1 Bq1].
  destruct (getBoundVertices_Capsule_icosa s tf Hp2) as [Ap2 Bp2].
  destruct (getBoundVertices_Capsule_icosa s tf Hq2) as [Aq2 Bq2].
  apply AABB_of_points_holds in Ap0, Bp0, Aq0, Bq0, Ap1, Bp1, Aq1, Bq1,
    Ap2, Bp2, Aq2, Bq2.
  set (bv := AABB_of_points _) in *. clearbody bv.
  destruct Ap0 as [_ (Ap0 & _ & _)], Bp0 as [_ (Bp0 & _ & _)],
    Aq0 as [(Aq0 & _ & _) _], Bq0 as [(Bq0 & _ & _) _].
  destruct Ap1 as [_ (_ & Ap1 & _)], Bp1 as [_ (_ & Bp1 & _)],
    Aq1 as [(_ & Aq1 & _) _], Bq1 as [(_ & Bq1 & _) _].
  destruct Ap2 as [_ (_ & _ & Ap2)], Bp2 as [_ (_ & _ & Bp2)],
    Aq2 as [(_ & _ & Aq2) _], Bq2 as [(_ & _ & Bq2) _].
  clear Hp0 Hq0 Hp1 Hq1 Hp2 Hq2 U0 U1 U2 Hrigid.
  destruct s as [r lz], tf as [[[a00 a01 a02] [a10 a11 a12] [a20 a21 a22]] [t0 t1 t2]],
    p0 as [x0 y0 z0], q0 as [x0' y0' z0'], p1 as [x1 y1 z1], q1 as [x1' y1' z1'],
    p2 as [x2 y2 z2], q2 as [x2' y2' z2'].
  unfold tf_apply, mat_vec, vadd, dot in *.
  cbn [vx vy vz capsule_radius capsule_lz linear translation row0 row1 row2] in *.
  unfold AABB_inside, vle, computeBV_AABB_Capsule, vadd, vsub, mcoeff, mrow, coeff.
  cbn [min_ max_ vx vy vz capsule_radius capsule_lz linear translation
       row0 row1 row2]. scalarR.
  rewrite !(Rabs_mult _ lz).
  assert (E0 : / 2 * (Rabs a02 * Rabs lz) = Rabs (a02 * (lz * / 2))).
  { rewrite !Rabs_mult, (Rabs_pos_eq (/ 2)) by lra. ring. }
  assert (E1 : / 2 * (Rabs a12 * Rabs lz) = Rabs (a12 * (lz * / 2))).
  { rewrite !Rabs_mult, (Rabs_pos_eq (/ 2)) by lra. ring. }
  assert (E2 : / 2 * (Rabs a22 * Rabs lz) = Rabs (a22 * (lz * / 2))).
  { rewrite !Rabs_mult, (Rabs_pos_eq (/ 2)) by lra. ring. }
  rewrite E0, E1, E2. clear E0 E1 E2.
  set (hl := lz * / 2) in *. clearbody hl.
  unfold Rabs.
  destruct (Rcase_abs (a02 * hl)), (Rcase_abs (a12 * hl)), (Rcase_abs (a22 * hl));
    repeat split; lra.
Qed.

(** Vertices that bound a point hold it in their min/max box. *)
Lemma bounded_by_AABB_of_points (vs : list (Vector3d R)) (q : Vector3d R) :
  bounded_by vs q -> AABB_holds (AABB_of_points vs) q.
Proof.
  intros H.
  destruct (H (Vec3 1 0 0)) as (v0 & I0 & L0).
  destruct (H (Vec3 0 1 0)) as (v1 & I1 & L1).
  destruct (H (Vec3 0 0 1)) as (v2 & I2 & L2).
  destruct (H (Vec3 (-1) 0 0)) as (w0 & J0 & M0).
  destruct (H (Vec3 0 (-1) 0)) as (w1 & J1 & M1).
  destruct (H (Vec3 0 0 (-1))) as (w2 & J2 & M2).
  apply AABB_of_points_holds in I0, I1, I2, J0, J1, J2.
  set (bv := AABB_of_points vs) in *. clearbody bv.
  destruct bv as [[l0 l1 l2] [h0 h1 h2]], q as [x y z],
    v0 as [a0 b0 c0], v1 as [a1 b1 c1], v2 as [a2 b2 c2],
    w0 as [d0 e0 f0], w1 as [d1 e1 f1], w2 as [d2 e2 f2].
  unfold AABB_holds, vle, dot in *. cbn [min_ max_ vx vy vz] in *. scalarR.
  repeat split; lra.
Qed.

(** C4, as the code has it.  The two paths agree exactly for a box, a
    triangle and a convex polytope (whose first point is a value of
    [FCL_REAL]), under every transform.  For the round shapes they do not:
    the sampled vertices are those of polyhedra around the shape.  Under a
    rigid transform the box of the sampled vertices holds the dedicated AABB
    of a sphere and of a capsule; under every transform both boxes hold
    every point of an ellipsoid, a cone and a cylinder; and under the
    identity rotation both boxes are known: about the translation, the
    dedicated one reaches the sizes of the shape, the sampled one reaches
    [icosa_b radius], about 1.07 times the radius, or [2 / sqrt 3], about
    1.15 times the radius, where the dedicated one reaches the radius. *)
Theorem AABB_of_sampled_vertices :
  (* the two paths agree *)
  (forall (s : Box R) (tf : Transform3d R),
      AABB_of_points (getBoundVertices_Box s tf) = computeBV_AABB_Box s tf)
  /\ (forall (s : TriangleP R) (tf : Transform3d R),
      AABB_of_points (getBoundVertices_TriangleP s tf)
      = computeBV_AABB_TriangleP s tf)
  /\ (forall (s : Convex R) (tf : Transform3d R),
      (forall p, hd_error (getBoundVertices_Convex s tf) = Some p ->
                 representable p) ->
      AABB_of_points (getBoundVertices_Convex s tf) = computeBV_AABB_Convex s tf)
  (* the sampled box holds the dedicated one *)
  /\ (forall (s : Sphere R) (tf : Transform3d R),
      rigid tf -> 0 <= sphere_radius s ->
      AABB_inside (computeBV_AABB_Sphere s tf)
                  (AABB_of_points (getBoundVertices_Sphere s tf)))
  /\ (forall (s : Capsule R) (tf : Transform3d R),
      rigid tf -> 0 <= capsule_radius s ->
      AABB_inside (computeBV_AABB_Capsule s tf)
                  (AABB_of_points (getBoundVertices_Capsule s tf)))
  (* both boxes hold the shape *)
  /\ (forall (s : Ellipsoid R) (tf : Transform3d R) (p : Vector3d R),
      in_Ellipsoid s p ->
      AABB_holds (computeBV_AABB_Ellipsoid s tf) (tf_apply tf p)
      /\ AABB_holds (AABB_of_points (getBoundVertices_Ellipsoid s tf))
                    (tf_apply tf p))
  /\ (forall (s : Cone R) (tf : Transform3d R) (p : Vector3d R),
      0 <= cone_radius s -> in_Cone s p ->
      AABB_holds (computeBV_AABB_Cone s tf) (tf_apply tf p)
      /\ AABB_holds (AABB_of_points (getBoundVertices_Cone s tf)) (tf_apply tf p))
  /\ (forall (s : Cylinder R) (tf : Transform3d R) (p : Vector3d R),
      0 <= cylinder_radius s -> in_Cylinder s p ->
      AABB_holds (computeBV_AABB_Cylinder s tf) (tf_apply tf p)
      /\ AABB_holds (AABB_of_points (getBoundVertices_Cylinder s tf))
                    (tf_apply tf p))
  (* the two boxes under the identity rotation *)
  /\ (forall (s : Sphere R) (T : Vector3d R),
      0 <= sphere_radius s ->
      computeBV_AABB_Sphere s (Tf Identity T)
      = AABB_about T (Constant (sphere_radius s))
      /\ AABB_of_points (getBoundVertices_Sphere s (Tf Identity T))
         = AABB_about T (Constant (icosa_b (sphere_radius s))))
  /\ (forall (s : Ellipsoid R) (T : Vector3d R),
      vle (Constant 0%fcl) (radii s) ->
      computeBV_AABB_Ellipsoid s (Tf Identity T) = AABB_about T (radii s)
      /\ AABB_of_points (getBoundVertices_Ellipsoid s (Tf Identity T))
         = AABB_about T (vscale (radii s) (icosa_b 1)))
  /\ (forall (s : Capsule R) (T : Vector3d R),
      0 <= capsule_radius s -> 0 <= capsule_lz s ->
      computeBV_AABB_Capsule s (Tf Identity T)
      = AABB_about T (Vec3 (capsule_radius s) (capsule_radius s)
                           (capsule_radius s + capsule_lz s / 2))
      /\ AABB_of_points (getBoundVertices_Capsule s (Tf Identity T))
         = AABB_about T (Vec3 (capsule_radius s * 2 / sqrt 3)
                              (icosa_b (capsule_radius s))
                              (icosa_b (capsule_radius s) + capsule_lz s / 2)))
  /\ (forall (s : Cone R) (T : Vector3d R),
      0 <= cone_radius s -> 0 <= cone_lz s ->
      computeBV_AABB_Cone s (Tf Identity T)
      = AABB_about T (Vec3 (cone_radius s) (cone_radius s) (cone_lz s / 2))
      /\ AABB_of_points (getBoundVertices_Cone s (Tf Identity T))
         = AABB_about T (Vec3 (cone_radius s * 2 / sqrt 3) (cone_radius s)
                              (cone_lz s / 2)))
  /\ (forall (s : Cylinder R) (T : Vector3d R),
      0 <= cylinder_radius s -> 0 <= cylinder_lz s ->
      computeBV_AABB_Cylinder s (Tf Identity T)
      = AABB_about T (Vec3 (cylinder_radius s) (cylinder_radius s)
                           (cylinder_lz s / 2))
      /\ AABB_of_points (getBoundVertices_Cylinder s (Tf Identity T))
         = AABB_about T (Vec3 (cylinder_radius s * 2 / sqrt 3)
                              (cylinder_radius s) (cylinder_lz s / 2)))
  (* by how much they differ *)
  /\ (forall radius : R, icosa_b radius = radius * icosa_b 1)
  /\ 107 / 100 < icosa_b 1 < 108 / 100
  /\ 115 / 100 < 2 / sqrt 3.
Proof.
  repeat match goal with |- _ /\ _ => split end.
  - exact AABB_of_points_Box.
  - exact AABB_of_points_TriangleP.
  - exact AABB_of_points_Convex.
  - exact AABB_inside_Sphere.
  - exact AABB_inside_Capsule.
  - intros s tf p Hp. split.
    + apply computeBV_AABB_holds_Ellipsoid; assumption.
    + apply bounded_by_AABB_of_points, getBoundVertices_Ellipsoid_bounds;
        assumption.
  - intros s tf p Hr Hp. split.
    + apply computeBV_AABB_holds_Cone; assumption.
    + apply bounded_by_AABB_of_points, getBoundVertices_Cone_bounds; assumption.
  - intros s tf p Hr Hp. split.
    + apply computeBV_AABB_holds_Cylinder; assumption.
    + apply bounded_by_AABB_of_points, getBoundVertices_Cylinder_bounds;
        assumption.
  - intros s T Hr. split.
    + apply (proj1 (computeBV_AABB_Identity T)).
    + apply AABB_of_points_Sphere_Identity; assumption.
  - intros s T Hr. split.
    + apply (proj1 (proj2 (computeBV_AABB_Identity T))); assumption.
    + apply AABB_of_points_Ellipsoid_Identity; assumption.
  - intros s T Hr Hlz. split.
    + apply (proj1 (proj2 (proj2 (computeBV_AABB_Identity T)))); assumption.
    + apply AABB_of_points_Capsule_Identity; assumption.
  - intros s T Hr Hlz. split.
    + apply (proj1 (proj2 (proj2 (proj2 (computeBV_AABB_Identity T)))));
        assumption.
    + apply AABB_of_points_Cone_Identity; assumption.
  - intros s T Hr Hlz. split.
    + apply (proj2 (proj2 (proj2 (proj2 (computeBV_AABB_Identity T)))));
        assumption.
    + apply AABB_of_points_Cylinder_Identity; assumption.
  - exact icosa_b_linear.
  - exact icosa_b_unit_lower.
  - exact icosa_b_unit_upper.
  - exact two_over_sqrt3_lower.
Qed.

Lemma AABB_of_sampled_vertices_witness :
  let tf := Tf rot_z_90 (Vec3 1 2 3) in
  rigid tf /\ 0 <= capsule_radius (mkCapsule 1 4)
  /\ AABB_inside (computeBV_AABB_Capsule (mkCapsule 1 4) tf)
                 (AABB_of_points (getBoundVertices_Capsule (mkCapsule 1 4) tf)).
Proof.
  cbv zeta.
  assert (Hr : 0 <= capsule_radius (mkCapsule 1 4)) by (cbn; lra).
  split; [exact orthonormal_rot_z_90 | split; [exact Hr |]].
  exact (proj1 (proj2 (proj2 (proj2 (proj2 AABB_of_sampled_vertices))))
           (mkCapsule 1 4) (Tf rot_z_90 (Vec3 1 2 3)) orthonormal_rot_z_90 Hr).
Defined.

(** ** transform composes *)

(** X18: transforming a half-space (a plane) by [b] and then by a rigid [a]
    is transforming it by [a * b]. *)
Theorem transform_composes (a b : Transform3d R) :
  rigid a ->
  (forall s : Halfspace R,
      transform_Halfspace (transform_Halfspace s b) a
      = transform_Halfspace s (tf_mul a b))
  /\ (forall s : Plane R,
      transform_Plane (transform_Plane s b) a = transform_Plane s (tf_mul a b)).
Proof.
  intros Hrigid.
  assert (E : forall (n : Vector3d R) (d : R),
             d + dot (mat_vec (linear b) n) (translation b)
             + dot (mat_vec (linear a) (mat_vec (linear b) n)) (translation a)
             = d + dot (mat_vec (linear (tf_mul a b)) n) (translation (tf_mul a b))).
  { intros n d. unfold tf_mul; cbn [linear translation].
    rewrite dot_vadd_r, mat_vec_mat_mul, (orthonormal_dot _ _ Hrigid). ring. }
  split; intros [n d].
  - unfold transform_Halfspace; cbn [hs_n hs_d]. scalarR.
    rewrite E. unfold tf_mul; cbn [linear]. rewrite mat_vec_mat_mul. reflexivity.
  - unfold transform_Plane; cbn [pl_n pl_d]. scalarR.
    rewrite E. unfold tf_mul; cbn [linear]. rewrite mat_vec_mat_mul. reflexivity.
Qed.

Lemma transform_composes_witness :
  let a := Tf rot_z_90 (Vec3 1 2 3) in
  let b := Tf Identity (Vec3 4 5 6) in
  let s := mkHalfspace (Vec3 1 0 0) 2 in
  rigid a
  /\ transform_Halfspace (transform_Halfspace s b) a
     = transform_Halfspace s (tf_mul a b).
Proof.
  cbv zeta. split; [exact orthonormal_rot_z_90 |].
  exact (proj1 (transform_composes (Tf Identity (Vec3 4 5 6))
                  (a := Tf rot_z_90 (Vec3 1 2 3)) orthonormal_rot_z_90) _).
Defined.

(** ** constructBox against computeBV *)

(** X19: [constructBox] and [computeBV<OBB, Box>] are inverse to each other:
    the box and the placement come back from the OBB, and the OBB from
    them. *)
Theorem constructBox_OBB_round_trip :
  (forall (s : Box R) (tf : Transform3d R),
      constructBox_OBB (computeBV_OBB_Box s tf) = (s, tf))
  /\ (forall bv : OBB R,
      computeBV_OBB_Box (fst (constructBox_OBB bv)) (snd (constructBox_OBB bv)) = bv).
Proof.
  split.
  - intros [[s0 s1 s2]] [Rm T].
    unfold constructBox_OBB, computeBV_OBB_Box, vscale; cbn. scalarR.
    repeat f_equal; field.
  - intros [ax c [e0 e1 e2]].
    unfold constructBox_OBB, computeBV_OBB_Box, vscale; cbn. scalarR.
    repeat f_equal; field.
Qed.

(** X20: the AABB of the box that [constructBox] builds from an AABB with
    [min_ <= max_] is that AABB; the box built from the AABB of a box sits at
    the translation of the transform, whatever its rotation; and under the
    identity rotation a box with sides at least 0 comes back from its
    AABB. *)
Theorem constructBox_AABB_round_trip :
  (forall bv : AABB R,
      AABB_ok bv ->
      computeBV_AABB_Box (fst (constructBox_AABB bv)) (snd (constructBox_AABB bv)) = bv)
  /\ (forall (s : Box R) (tf : Transform3d R),
      snd (constructBox_AABB (computeBV_AABB_Box s tf))
      = Tf Identity (translation tf))
  /\ (forall (s : Box R) (T : Vector3d R),
      vle (Constant 0%fcl) (side s) ->
      constructBox_AABB (computeBV_AABB_Box s (Tf Identity T)) = (s, Tf Identity T)).
Proof.
  split; [| split].
  - intros [[l0 l1 l2] [h0 h1 h2]] (H0 & H1 & H2). cbn [min_ max_ vx vy vz] in *.
    unfold constructBox_AABB, computeBV_AABB_Box, AABB_center, Identity, vscale,
      vadd, vsub, mcoeff, mrow, coeff; cbn. scalarR.
    rewrite !Rmult_0_l, !Rmult_1_l, !Rabs_R0, !Rplus_0_r, !Rplus_0_l,
      !Rabs_pos_eq by lra.
    f_equal; f_equal; field.
  - intros [[s0 s1 s2]] [[[a00 a01 a02] [a10 a11 a12] [a20 a21 a22]] [t0 t1 t2]].
    unfold constructBox_AABB, computeBV_AABB_Box, AABB_center, vscale,
      vadd, vsub, mcoeff, mrow, coeff; cbn. scalarR.
    f_equal; f_equal; field.
  - intros [[s0 s1 s2]] [t0 t1 t2] (H0 & H1 & H2). cbn [side Constant vx vy vz] in *.
    scalarR.
    unfold constructBox_AABB, computeBV_AABB_Box, AABB_center, Identity, vscale,
      vadd, vsub, mcoeff, mrow, coeff; cbn. scalarR.
    rewrite !Rmult_0_l, !Rmult_1_l, !Rabs_R0, !Rplus_0_r, !Rplus_0_l,
      !Rabs_pos_eq by assumption.
    f_equal; [f_equal | f_equal]; f_equal; field.
Qed.

Lemma constructBox_AABB_round_trip_witness :
  let bv := mkAABB (Vec3 (-1) 0 2) (Vec3 1 4 5) in
  AABB_ok bv
  /\ computeBV_AABB_Box (fst (constructBox_AABB bv)) (snd (constructBox_AABB bv)) = bv.
Proof.
  cbv zeta.
  assert (Hok : AABB_ok (mkAABB (Vec3 (-1) 0 2) (Vec3 1 4 5))).
  { unfold AABB_ok, vle; cbn. lra. }
  split; [exact Hok | exact (proj1 constructBox_AABB_round_trip _ Hok)].
Defined.

(** An orthonormal matrix has determinant 1 or -1. *)
Lemma orthonormal_det (a00 a01 a02 a10 a11 a12 a20 a21 a22 : R) :
  orthonormal (Mat3 (Vec3 a00 a01 a02) (Vec3 a10 a11 a12) (Vec3 a20 a21 a22)) ->
  let det := a00 * a11 * a22 + a01 * a12 * a20 + a02 * a10 * a21
             - a02 * a11 * a20 - a01 * a10 * a22 - a00 * a12 * a21 in
  det * det = 1.
Proof.
  unfold orthonormal, mat_mul, transpose, Identity, mcol, mcoeff, dot; cbn.
  scalarR. intros Hm.
  injection Hm as H00 H01 H02 H10 H11 H12 H20 H21 H22.
  nsatz.
Qed.

Lemma Rabs_prod3 (a b c : R) :
  - (Rabs a * Rabs b * Rabs c) <= a * b * c <= Rabs a * Rabs b * Rabs c.
Proof.
  rewrite <- !Rabs_mult. unfold Rabs. destruct (Rcase_abs (a * b * c)); lra.
Qed.

(** The permanent of the absolute values of an orthonormal matrix is at
    least 1. *)
Lemma orthonormal_permanent (a00 a01 a02 a10 a11 a12 a20 a21 a22 : R) :
  orthonormal (Mat3 (Vec3 a00 a01 a02) (Vec3 a10 a11 a12) (Vec3 a20 a21 a22)) ->
  1 <= Rabs a00 * Rabs a11 * Rabs a22 + Rabs a01 * Rabs a12 * Rabs a20
       + Rabs a02 * Rabs a10 * Rabs a21 + Rabs a02 * Rabs a11 * Rabs a20
       + Rabs a01 * Rabs a10 * Rabs a22 + Rabs a00 * Rabs a12 * Rabs a21.
Proof.
  intros Hm. pose proof (orthonormal_det Hm) as Hd. cbv zeta in Hd.
  pose proof (Rabs_prod3 a00 a11 a22). pose proof (Rabs_prod3 a01 a12 a20).
  pose proof (Rabs_prod3 a02 a10 a21). pose proof (Rabs_prod3 a02 a11 a20).
  pose proof (Rabs_prod3 a01 a10 a22). pose proof (Rabs_prod3 a00 a12 a21).
  destruct (sqr_1_cases Hd); lra.
Qed.

Ltac nonneg :=
  repeat first [ assumption
               | apply Rplus_le_le_0_compat
               | apply Rmult_le_pos ].

(** X21: the box that [constructBox] builds from the AABB of a box under a
    rigid transform has at least the volume of the box. *)
Theorem constructBox_AABB_volume (s : Box R) (tf : Transform3d R) :
  rigid tf -> vle (Constant 0%fcl) (side s) ->
  Box_volume s <= Box_volume (fst (constructBox_AABB (computeBV_AABB_Box s tf))).
Proof.
  destruct s as [[s0 s1 s2]],
    tf as [[[a00 a01 a02] [a10 a11 a12] [a20 a21 a22]] [t0 t1 t2]].
  unfold rigid; cbn [linear side Constant]. intros Hm (H0 & H1 & H2).
  cbn [vx vy vz] in H0, H1, H2. scalarR.
  pose proof (orthonormal_permanent Hm) as Hp.
  unfold Box_volume, constructBox_AABB, computeBV_AABB_Box, vsub, vadd, mcoeff,
    mrow, coeff; cbn. scalarR.
  rewrite !Rabs_mult, !(Rabs_pos_eq s0), !(Rabs_pos_eq s1), !(Rabs_pos_eq s2)
    by assumption.
  pose proof (Rabs_pos a00) as P00. pose proof (Rabs_pos a01) as P01.
  pose proof (Rabs_pos a02) as P02. pose proof (Rabs_pos a10) as P10.
  pose proof (Rabs_pos a11) as P11. pose proof (Rabs_pos a12) as P12.
  pose proof (Rabs_pos a20) as P20. pose proof (Rabs_pos a21) as P21.
  pose proof (Rabs_pos a22) as P22.
  set (b00 := Rabs a00) in *. set (b01 := Rabs a01) in *. set (b02 := Rabs a02) in *.
  set (b10 := Rabs a10) in *. set (b11 := Rabs a11) in *. set (b12 := Rabs a12) in *.
  set (b20 := Rabs a20) in *. set (b21 := Rabs a21) in *. set (b22 := Rabs a22) in *.
  clearbody b00 b01 b02 b10 b11 b12 b20 b21 b22. clear Hm.
  set (perm := b00 * b11 * b22 + b01 * b12 * b20 + b02 * b10 * b21
               + b02 * b11 * b20 + b01 * b10 * b22 + b00 * b12 * b21) in *.
  match goal with
  | |- _ <= ?P =>
      assert (E : P = s0 * s1 * s2 * perm
                  + (b00 * s0 * (b10 * s0) * (b20 * s0 + b21 * s1 + b22 * s2)
                     + b00 * s0 * (b11 * s1) * (b20 * s0 + b21 * s1)
                     + b00 * s0 * (b12 * s2) * (b20 * s0 + b22 * s2)
                     + b01 * s1 * (b10 * s0) * (b20 * s0 + b21 * s1)
                     + b01 * s1 * (b11 * s1) * (b20 * s0 + b21 * s1 + b22 * s2)
                     + b01 * s1 * (b12 * s2) * (b21 * s1 + b22 * s2)
                     + b02 * s2 * (b10 * s0) * (b20 * s0 + b22 * s2)
                     + b02 * s2 * (b11 * s1) * (b21 * s1 + b22 * s2)
                     + b02 * s2 * (b12 * s2) * (b20 * s0 + b21 * s1 + b22 * s2)))
        by (unfold perm; field)
  end.
  rewrite E. clear E.
  assert (Hs : 0 <= s0 * s1 * s2) by nonneg.
  pose proof (Rmult_le_compat_l _ _ _ Hs Hp) as Hv.
  match goal with
  | |- _ <= _ + ?rest => assert (Hrest : 0 <= rest) by nonneg
  end.
  lra.
Qed.

Lemma constructBox_AABB_volume_witness :
  let s := mkBox (Vec3 2 4 6) in
  let tf := Tf rot_z_90 (Vec3 1 2 3) in
  rigid tf /\ vle (Constant 0%fcl) (side s)
  /\ Box_volume s <= Box_volume (fst (constructBox_AABB (computeBV_AABB_Box s tf))).
Proof.
  cbv zeta.
  assert (Hs : vle (Constant 0%fcl) (side (mkBox (Vec3 2 4 6)))).
  { unfold vle; cbn; scalarR. lra. }
  split; [exact orthonormal_rot_z_90 | split; [exact Hs |]].
  exact (constructBox_AABB_volume (mkBox (Vec3 2 4 6))
           (tf := Tf rot_z_90 (Vec3 1 2 3)) orthonormal_rot_z_90 Hs).
Defined.

(** ** Unbounded shapes on binary64 *)

(** X22: on binary64, the box that [constructBox] builds from the OBB, the
    OBBRSS or the kIOS that [computeBV] returns for a half-space has the
    sides [+infinity]: the extent [max], doubled, overflows. *)
Theorem constructBox_Halfspace_overflow (tf : Transform3d PrimFloat.float) :
  (forall s : Halfspace PrimFloat.float,
      fst (constructBox_OBB (computeBV_OBB_Halfspace s tf))
      = mkBox (Constant PrimFloat.infinity))
  /\ (forall s : Halfspace PrimFloat.float,
      fst (constructBox_OBBRSS (computeBV_OBBRSS_Halfspace s tf))
      = mkBox (Constant PrimFloat.infinity))
  /\ (forall (s : Halfspace PrimFloat.float) (bv : kIOS PrimFloat.float),
      fst (constructBox_kIOS (computeBV_kIOS_Halfspace s tf bv))
      = mkBox (Constant PrimFloat.infinity)).
Proof.
  repeat split; intros; vm_compute; reflexivity.
Qed.

(** X23: on binary64, the box that [constructBox] builds from the OBB, the
    OBBRSS or the kIOS that [computeBV] returns for a plane has the sides
    [0], [+infinity] and [+infinity], whatever the plane and the
    transform. *)
Theorem constructBox_Plane_overflow (tf : Transform3d PrimFloat.float) :
  (forall (s : Plane PrimFloat.float) (bv : OBB PrimFloat.float),
      fst (constructBox_OBB (computeBV_OBB_Plane s tf bv))
      = mkBox (Vec3 PrimFloat.zero PrimFloat.infinity PrimFloat.infinity))
  /\ (forall (s : Plane PrimFloat.float) (bv : OBBRSS PrimFloat.float),
      fst (constructBox_OBBRSS (computeBV_OBBRSS_Plane s tf bv))
      = mkBox (Vec3 PrimFloat.zero PrimFloat.infinity PrimFloat.infinity))
  /\ (forall (s : Plane PrimFloat.float) (bv : kIOS PrimFloat.float),
      fst (constructBox_kIOS (computeBV_kIOS_Plane s tf bv))
      = mkBox (Vec3 PrimFloat.zero PrimFloat.infinity PrimFloat.infinity)).
Proof.
  repeat split; intros; vm_compute; reflexivity.
Qed.

(** ** The sentinel on binary64 *)

Section Binary64_sentinel.
Import PrimFloat.
Local Open Scope float_scope.

(** For every binary64 offset [d], the bounds of the half-space with normal
    (1, 0, 0) under the identity transform, as the code computes them: the
    bounds it leaves open hold [max], which is a finite number. *)
Lemma computeBV_Halfspace_x_axis_binary64 (d : float) :
  let s := mkHalfspace (Vec3 1 0 0) d in
  let m := (real_max : float) in
  computeBV_AABB_Halfspace s id64
  = mkAABB (Vec3 (- m) (- m) (- m)) (Vec3 (d + 0) m m)
  /\ computeBV_KDOP16_Halfspace s id64
     = [- m; - m; - m; - m; - m; - m; - m; - m;
         d + 0; m; m; m; m; m; m; m]
  /\ is_finite m = true.
Proof. vm_compute. repeat split. Qed.

(** The bounds that C5 expects at infinity are finite: at [d = 2.5] none of
    the five other bounds of the AABB is an infinity, and all sixteen
    entries of the KDOP<16> are finite, not one. *)
Lemma computeBV_Halfspace_x_axis_all_finite :
  let s := mkHalfspace (Vec3 1 0 0) 2.5 in
  let bv := computeBV_AABB_Halfspace s id64 in
  let kd := computeBV_KDOP16_Halfspace s id64 in
  map is_infinity
      [vx (min_ bv); vy (min_ bv); vz (min_ bv); vy (max_ bv); vz (max_ bv)]
  = [false; false; false; false; false]
  /\ length kd = 16%nat
  /\ length (filter is_finite kd) = 16%nat.
Proof. vm_compute. repeat split. Qed.

End Binary64_sentinel.

(** ** The embedding run on binary64 *)

Module Binary64.
Import PrimFloat.
Local Open Scope float_scope.

Example real_max_binary64 : (real_max : float) = 0x1.fffffffffffffp+1023.
Proof. vm_compute. reflexivity. Qed.

Example halfspace_x_axis_AABB :
  computeBV_AABB_Halfspace (mkHalfspace (Vec3 1 0 0) 2.5) id64
  = mkAABB (Vec3 (- real_max) (- real_max) (- real_max))
           (Vec3 2.5 real_max real_max).
Proof. vm_compute. reflexivity. Qed.

Example halfspace_x_axis_KDOP16 :
  computeBV_KDOP16_Halfspace (mkHalfspace (Vec3 1 0 0) 2.5) id64
  = set_dist (KDOP_unbounded 8) 8 2.5.
Proof. vm_compute. reflexivity. Qed.

(** Normal along (1, 0, 1): the source tests [n[1] > 0] where [n[1]] is
    zero, and the lower slot 4 is written, not the upper slot 12. *)
Example halfspace_xz_diagonal_KDOP16 :
  computeBV_KDOP16_Halfspace (mkHalfspace (Vec3 c64 0 c64) 1) id64
  = set_dist (KDOP_unbounded 8) 4 (c64 * 1 * 2).
Proof. vm_compute. reflexivity. Qed.

(** Normal along (0, 1, 1): KDOP<16> writes the slots 6 and 13, KDOP<18>
    the slots 5 and 14. *)
Example plane_yz_diagonal_KDOP16 :
  computeBV_KDOP16_Plane (mkPlane (Vec3 0 c64 c64) 1) id64
  = set_dist (set_dist (KDOP_unbounded 8) 13 (c64 * 1 * 2)) 6 (c64 * 1 * 2).
Proof. vm_compute. reflexivity. Qed.

Example plane_yz_diagonal_KDOP18 :
  computeBV_KDOP18_Plane (mkPlane (Vec3 0 c64 c64) 1) id64
  = set_dist (set_dist (KDOP_unbounded 9) 14 (c64 * 1 * 2)) 5 (c64 * 1 * 2).
Proof. vm_compute. reflexivity. Qed.

Example plane_z_OBB :
  computeBV_OBB_Plane (mkPlane (Vec3 0 0 1) 2) id64
                      (mkOBB Identity (Vec3 0 0 0) (Vec3 0 0 0))
  = mkOBB (Mat3 (Vec3 0 (-1) 0) (Vec3 0 0 (-1)) (Vec3 1 0 0))
          (Vec3 0 0 2) (Vec3 0 real_max real_max).
Proof. vm_compute. reflexivity. Qed.

Example unit_sphere_AABB :
  computeBV_AABB_Sphere (mkSphere 1) id64
  = mkAABB (Vec3 (-1) (-1) (-1)) (Vec3 1 1 1).
Proof. vm_compute. reflexivity. Qed.

Example unit_sphere_sampled :
  AABB_of_points (getBoundVertices_Sphere (mkSphere 1) id64)
  = mkAABB (Constant (-0x1.120a13d232885p+0)) (Constant 0x1.120a13d232885p+0).
Proof. vm_compute. reflexivity. Qed.

Example box_sampled :
  AABB_of_points (getBoundVertices_Box (mkBox (Vec3 2 4 6)) id64)
  = computeBV_AABB_Box (mkBox (Vec3 2 4 6)) id64.
Proof. vm_compute. reflexivity. Qed.

Example OBBRSS_parent_translation :
  snd (constructBox_OBBRSS_tf
         (mkOBBRSS (mkOBB Identity (Vec3 0 0 0) (Vec3 1 1 1))
                   (mkRSS Identity (Vec3 0 0 0) 1 1 1))
         (Tf Identity (Vec3 1 0 0)))
  = Tf Identity (Vec3 1 0 0).
Proof. vm_compute. reflexivity. Qed.

Example OBB_parent_ignored :
  snd (constructBox_OBB_tf (mkOBB Identity (Vec3 0 0 0) (Vec3 1 1 1))
                           (Tf Identity (Vec3 1 0 0)))
  = Tf Identity (Vec3 0 0 0).
Proof. vm_compute. reflexivity. Qed.

Example capsule_sampled :
  AABB_of_points (getBoundVertices_Capsule (mkCapsule 1 2) id64)
  = mkAABB (Vec3 (- 0x1.279a74590331dp+0) (- 0x1.120a13d232885p+0)
                 (- 0x1.090509e919442p+1))
           (Vec3 0x1.279a74590331dp+0 0x1.120a13d232885p+0 0x1.090509e919442p+1).
Proof. vm_compute. reflexivity. Qed.

Example capsule_AABB :
  computeBV_AABB_Capsule (mkCapsule 1 2) id64
  = mkAABB (Vec3 (-1) (-1) (-2)) (Vec3 1 1 2).
Proof. vm_compute. reflexivity. Qed.

Example ellipsoid_sampled :
  AABB_of_points (getBoundVertices_Ellipsoid (mkEllipsoid (Vec3 1 2 3)) id64)
  = mkAABB (Vec3 (- 0x1.120a13d232885p+0) (- 0x1.120a13d232885p+1)
                 (- 0x1.9b0f1dbb4bcc8p+1))
           (Vec3 0x1.120a13d232885p+0 0x1.120a13d232885p+1 0x1.9b0f1dbb4bcc8p+1).
Proof. vm_compute. reflexivity. Qed.

Example cone_sampled :
  AABB_of_points (getBoundVertices_Cone (mkCone 1 2) id64)
  = mkAABB (Vec3 (- 0x1.279a74590331dp+0) (-1) (-1))
           (Vec3 0x1.279a74590331dp+0 1 1).
Proof. vm_compute. reflexivity. Qed.

Example cylinder_sampled :
  AABB_of_points (getBoundVertices_Cylinder (mkCylinder 1 2) id64)
  = mkAABB (Vec3 (- 0x1.279a74590331dp+0) (-1) (-1))
           (Vec3 0x1.279a74590331dp+0 1 1).
Proof. vm_compute. reflexivity. Qed.

Example triangle_sampled :
  getBoundVertices_TriangleP
    (mkTriangleP (Vec3 1 0 0) (Vec3 0 1 0) (Vec3 0 0 1)) (Tf Identity (Vec3 1 2 3))
  = [Vec3 2 2 3; Vec3 1 3 3; Vec3 1 2 4].
Proof. vm_compute. reflexivity. Qed.

Example plane_z_RSS :
  computeBV_RSS_Plane (mkPlane (Vec3 0 0 1) 2) id64
                      (mkRSS Identity (Vec3 0 0 0) 0 0 0)
  = mkRSS (Mat3 (Vec3 0 (-1) 0) (Vec3 0 0 (-1)) (Vec3 1 0 0))
          (Vec3 0 0 2) real_max real_max 0.
Proof. vm_compute. reflexivity. Qed.

Example halfspace_far_offset_AABB :
  computeBV_AABB_Halfspace (mkHalfspace (Vec3 1 0 0) (- 0x1.8p+1023))
                           (Tf Identity (Vec3 (- 0x1.8p+1023) 0 0))
  = mkAABB (Vec3 (- real_max) (- real_max) (- real_max))
           (Vec3 neg_infinity real_max real_max).
Proof. vm_compute. reflexivity. Qed.

End Binary64.
